(** * RAG chatbot back end: the vector stores and the query / index pipeline

    A shallow embedding of [backend/rag_system.py]:
    [DocumentChunk], [SearchResult], [LocalVectorStore], [PineconeVectorStore],
    [DocumentProcessor] and [RAGSystem].

    Conventions of the embedding.
    - A Python [float] that is finite is represented by its exact rational
      value in [Q]; comparisons of finite floats are comparisons of these
      values.  Rounding is not modelled: the similarity of two rows is a
      parameter [cosine] of the development.
    - A Python exception that an [except Exception] clause catches is a value
      of [exn]; code that may raise returns a [res].
    - Stateful code runs in the monad [M] over a [World] (the vector store
      held by the [RAGSystem], the snapshot file, the remote upserts and the
      trace of calls made to the external collaborators).
    - Calls to [logging] are not modelled. *)

From Stdlib Require Import Ascii String ZArith QArith Qabs Lia Sorted Permutation.
From stdpp Require Import base option list sorting strings pretty gmap.

Local Open Scope string_scope.
Local Open Scope list_scope.

(** ** Exceptions and fallible results *)

Module Py.

Inductive exn : Type :=
| ValueError (msg : string)
| IndexError (msg : string)
| KeyError (msg : string)
| TypeError (msg : string)
| OSError (msg : string)
| RuntimeError (msg : string).

(** [str(e)] *)
Definition str (e : exn) : string :=
  match e with
  | ValueError m | IndexError m | TypeError m | OSError m | RuntimeError m => m
  | KeyError m => "'" ++ m ++ "'"
  end.

Inductive res (A : Type) : Type :=
| Ok (a : A)
| Raise (e : exn).
Arguments Ok {A} a.
Arguments Raise {A} e.

Definition rbind {A B} (r : res A) (k : A -> res B) : res B :=
  match r with
  | Ok a => k a
  | Raise e => Raise e
  end.

Definition is_ok {A} (r : res A) : bool :=
  match r with Ok _ => true | Raise _ => false end.

(** Characters that [str.strip()] removes, for code points below 256. *)
Definition is_space (c : ascii) : bool :=
  let n := nat_of_ascii c in
  (((9 <=? n) && (n <=? 13)) || ((28 <=? n) && (n <=? 32))
   || (n =? 133) || (n =? 160))%nat.

Fixpoint lstrip (s : string) : string :=
  match s with
  | EmptyString => EmptyString
  | String c s' => if is_space c then lstrip s' else s
  end.

(** [rstrip] keeps a character when something other than white space
    follows it, or when it is not white space itself. *)
Fixpoint rstrip (s : string) : string :=
  match s with
  | EmptyString => EmptyString
  | String c s' =>
      match rstrip s' with
      | EmptyString => if is_space c then EmptyString else String c EmptyString
      | t => String c t
      end
  end.

Definition strip (s : string) : string := rstrip (lstrip s).

(** [s.isspace()] or [s == ""] *)
Fixpoint whitespace_only (s : string) : bool :=
  match s with
  | EmptyString => true
  | String c s' => is_space c && whitespace_only s'
  end.

(** Truth value of a string: [bool(s)] *)
Definition truthy (s : string) : bool :=
  match s with EmptyString => false | _ => true end.

(** [sep.join(parts)] *)
Fixpoint join (sep : string) (parts : list string) : string :=
  match parts with
  | [] => ""
  | [p] => p
  | p :: ps => p ++ sep ++ join sep ps
  end.

(** [s[:n]] for [n >= 0] *)
Fixpoint str_take (n : nat) (s : string) : string :=
  match n, s with
  | O, _ => EmptyString
  | S _, EmptyString => EmptyString
  | S n', String c s' => String c (str_take n' s')
  end.

(** [l[-k:]] for a Python [int] [k]: the last [k] items when [k > 0], the
    whole list when [k = 0], and [l[|k|:]] when [k < 0]. *)
Definition slice_from_neg {A} (k : Z) (l : list A) : list A :=
  if (0 <? k)%Z then drop (length l - Z.to_nat k) l
  else drop (Z.to_nat (- k)) l.

End Py.
Import Py.

#[global] Instance res_ret : MRet res := fun _ a => Ok a.
#[global] Instance res_bind : MBind res := fun _ _ k r => rbind r k.

(** ** Numeric arrays *)

(** A one-dimensional array of floats, or a row of a matrix. *)
Abbreviation vector := (list Q) (only parsing).

(** A two-dimensional [np.ndarray] of shape [(length rows, width)]. *)
Record ndarray : Type := mk_ndarray {
  width : nat;
  rows : list vector
}.

Definition nrows (E : ndarray) : nat := length (rows E).

(** [np.vstack([A, B])] *)
Definition vstack (A B : ndarray) : res ndarray :=
  if Nat.eqb (width A) (width B)
  then Ok (mk_ndarray (width A) (rows A ++ rows B))
  else Raise (ValueError "all the input array dimensions except for the concatenation axis must match exactly").

Definition Qltb (a b : Q) : bool := negb (Qle_bool b a).

(** A position of an array together with the score found there. *)
Abbreviation scored := (nat * Q)%type (only parsing).

(** [np.argsort]: indices that sort the scores in ascending order.  The
    default sort of numpy is not stable, so the order of equal scores is
    not fixed by the call.  [argsort] is the instance that keeps equal
    scores in index order; [LocalVS.search_by] leaves the sort open. *)

Fixpoint insert_asc (x : scored) (l : list scored) : list scored :=
  match l with
  | [] => [x]
  | y :: l' =>
      if Qle_bool (snd x) (snd y) then x :: l else y :: insert_asc x l'
  end.

Fixpoint sort_asc (l : list scored) : list scored :=
  match l with
  | [] => []
  | x :: l' => insert_asc x (sort_asc l')
  end.

Fixpoint enumerate_from {A} (i : nat) (l : list A) : list (nat * A) :=
  match l with
  | [] => []
  | a :: l' => (i, a) :: enumerate_from (S i) l'
  end.

Definition enumerate {A} (l : list A) : list (nat * A) := enumerate_from 0 l.

Definition argsort (scores : list Q) : list nat :=
  map fst (sort_asc (enumerate scores)).

(** ** Data model *)

Record DocumentChunk : Type := mk_chunk {
  content : string;
  source : string;
  chunk_id : string;
  metadata : option (gmap string string)
}.

Record SearchResult : Type := mk_result {
  chunk : DocumentChunk;
  similarity : Q
}.

(** The fields of [config] that the modelled code reads. *)
Record Config : Type := mk_config {
  similarity_threshold : Q;
  max_results : Z;
  data_dir : string
}.

(** ** LocalVectorStore: numpy arrays in memory, a pickle file on disk *)

Record LocalVectorStore : Type := mk_local {
  chunks : list DocumentChunk;
  embeddings : option ndarray
}.

(** What [_save_cache] pickles. *)
Record Snapshot : Type := mk_snapshot {
  snap_chunks : list DocumentChunk;
  snap_embeddings : option ndarray
}.

(** The file [cache_dir / "vector_store.pkl"]. *)
Inductive Disk : Type :=
| NoFile
| CacheFile (s : Snapshot)
| Truncated.

(** How the body of [_save_cache] ([mkdir], [open], [pickle.dump]) ends. *)
Inductive WriteOutcome : Type :=
| Written
| FailedBeforeOpen (e : exn)
| FailedDuringDump (e : exn).

Module LocalVS.
Section WithEnvironment.
Variable config : Config.
(** [sklearn]'s cosine similarity of two rows. *)
Variable cosine : vector -> vector -> Q.
(** What the file system does with a write of the snapshot. *)
Variable write_outcome : Snapshot -> WriteOutcome.

(** [__init__] with [_load_cache]: a readable cache file replaces the empty
    store, an unreadable one is reported and ignored. *)
Definition init (d : Disk) : LocalVectorStore :=
  match d with
  | CacheFile s => mk_local (snap_chunks s) (snap_embeddings s)
  | NoFile | Truncated => mk_local [] None
  end.

(** The [try] body of [_save_cache]. *)
Definition write_cache (st : LocalVectorStore) (d : Disk) : res unit * Disk :=
  let s := mk_snapshot (chunks st) (embeddings st) in
  match write_outcome s with
  | Written => (Ok tt, CacheFile s)
  | FailedBeforeOpen e => (Raise e, d)
  | FailedDuringDump e => (Raise e, Truncated)
  end.

(** [_save_cache]: an exception of the write is logged, not raised. *)
Definition _save_cache (st : LocalVectorStore) (d : Disk) : Disk :=
  match write_cache st d with
  | (Ok _, d') => d'
  | (Raise _, d') => d'
  end.

(** [add_documents]: the chunk list is extended first, then the matrix is
    stacked, then the cache is saved; an exception of [np.vstack] leaves
    the extended chunk list behind. *)
Definition add_documents (st : LocalVectorStore) (d : Disk)
    (new_chunks : list DocumentChunk) (new_embeddings : ndarray)
    : res unit * LocalVectorStore * Disk :=
  let cs := chunks st ++ new_chunks in
  match embeddings st with
  | None =>
      let st' := mk_local cs (Some new_embeddings) in
      (Ok tt, st', _save_cache st' d)
  | Some E =>
      match vstack E new_embeddings with
      | Ok E' =>
          let st' := mk_local cs (Some E') in
          (Ok tt, st', _save_cache st' d)
      | Raise e => (Raise e, mk_local cs (Some E), d)
      end
  end.

(** [cosine_similarity([query_embedding], self.embeddings)[0]]: the input
    check of [sklearn] rejects an empty matrix and a query of another
    dimension. *)
Definition cosine_similarity (q : vector) (E : ndarray) : res (list Q) :=
  if Nat.eqb (nrows E) 0
  then Raise (ValueError "Found array with 0 sample(s) while a minimum of 1 is required")
  else if negb (Nat.eqb (length q) (width E))
  then Raise (ValueError "Incompatible dimension for X and Y matrices")
  else Ok (map (cosine q) (rows E)).

(** [x[idx]] on a list or a one-dimensional array *)
Definition getitem {A} (l : list A) (idx : nat) : res A :=
  match l !! idx with
  | Some a => Ok a
  | None => Raise (IndexError "index out of range")
  end.

(** The [for idx in top_indices] loop of [search]. *)
Fixpoint search_loop (similarities : list Q) (cs : list DocumentChunk)
    (top_indices : list nat) (results : list SearchResult)
    : res (list SearchResult) :=
  match top_indices with
  | [] => Ok results
  | idx :: rest =>
      s ← getitem similarities idx;
      if Qltb (similarity_threshold config) s
      then c ← getitem cs idx;
           search_loop similarities cs rest (results ++ [mk_result c s])
      else search_loop similarities cs rest results
  end.

(** [np.argsort(similarities)[-k:][::-1]] *)
Definition top_indices (similarities : list Q) (k : Z) : list nat :=
  rev (slice_from_neg k (argsort similarities)).

Definition search (st : LocalVectorStore) (query_embedding : vector) (k : Z)
    : res (list SearchResult) :=
  match embeddings st with
  | None => Ok []
  | Some E =>
      if Nat.eqb (length (chunks st)) 0 then Ok []
      else
        similarities ← cosine_similarity query_embedding E;
        search_loop similarities (chunks st) (top_indices similarities k) []
  end.

(** [np.argsort(similarities)[-k:][::-1]] with the sort of [np.argsort] left
    open.  numpy documents its default sort as not stable: which of two
    equal scores comes first is the choice of the library build. *)
Definition top_indices_by (sort : list Q -> list nat) (similarities : list Q)
    (k : Z) : list nat :=
  rev (slice_from_neg k (sort similarities)).

(** [search] over any [np.argsort]; [search] is [search_by argsort]. *)
Definition search_by (sort : list Q -> list nat) (st : LocalVectorStore)
    (query_embedding : vector) (k : Z) : res (list SearchResult) :=
  match embeddings st with
  | None => Ok []
  | Some E =>
      if Nat.eqb (length (chunks st)) 0 then Ok []
      else
        similarities ← cosine_similarity query_embedding E;
        search_loop similarities (chunks st)
          (top_indices_by sort similarities k) []
  end.

End WithEnvironment.
End LocalVS.

(** ** PineconeVectorStore: a hosted index behind [upsert] and [query] *)

Record PineconeVectorStore : Type := mk_pinecone {
  index_name : string
}.

(** One element of [response["matches"]]; a match without metadata has
    [None] there. *)
Record Match : Type := mk_match {
  m_id : string;
  m_score : Q;
  m_metadata : option (gmap string string)
}.

(** One vector of an [upsert] batch. *)
Record PVector : Type := mk_pvector {
  pv_id : string;
  pv_values : vector;
  pv_metadata : gmap string string
}.

Module PineconeVS.
Section WithEnvironment.
Variable config : Config.
(** [self.index.query(vector=..., top_k=k, include_metadata=True)["matches"]] *)
Variable index_query : vector -> Z -> res (list Match).
(** [self.index.upsert(vectors=batch)] *)
Variable index_upsert : list PVector -> res unit.

Definition to_vector (c : DocumentChunk) (embedding : vector) : PVector :=
  mk_pvector (chunk_id c) embedding
    (<["text" := str_take 1000 (content c)]>
       (<["source" := source c]> (<["chunk_id" := chunk_id c]> ∅))).

(** [zip(chunks, embeddings)] stops at the shorter of the two. *)
Fixpoint zip_vectors (cs : list DocumentChunk) (es : list vector) : list PVector :=
  match cs, es with
  | c :: cs', e :: es' => to_vector c e :: zip_vectors cs' es'
  | _, _ => []
  end.

(** [vectors[i : i + batch_size] for i in range(0, len(vectors), batch_size)] *)
Fixpoint batches_fuel {A} (fuel batch_size : nat) (l : list A) : list (list A) :=
  match fuel, l with
  | O, _ | _, [] => []
  | S fuel', _ => take batch_size l :: batches_fuel fuel' batch_size (drop batch_size l)
  end.

Definition batches {A} (batch_size : nat) (l : list A) : list (list A) :=
  batches_fuel (length l) batch_size l.

(** The upsert loop: the batches sent so far are appended to [sent]; the
    first failing [upsert] ends the loop with its exception. *)
Fixpoint upsert_loop (bs : list (list PVector)) (sent : list (list PVector))
    : res unit * list (list PVector) :=
  match bs with
  | [] => (Ok tt, sent)
  | b :: bs' =>
      match index_upsert b with
      | Ok _ => upsert_loop bs' (sent ++ [b])
      | Raise e => (Raise e, sent)
      end
  end.

Definition add_documents (sent : list (list PVector))
    (new_chunks : list DocumentChunk) (new_embeddings : ndarray)
    : res unit * list (list PVector) :=
  upsert_loop (batches 50 (zip_vectors new_chunks (rows new_embeddings))) sent.

(** [match["metadata"].get(...)] on a match that has no metadata raises. *)
Definition match_metadata (m : Match) : res (gmap string string) :=
  match m_metadata m with
  | Some md => Ok md
  | None => Raise (TypeError "'NoneType' object has no attribute 'get'")
  end.

Fixpoint search_loop (matches : list Match) (results : list SearchResult)
    : res (list SearchResult) :=
  match matches with
  | [] => Ok results
  | m :: rest =>
      if Qltb (similarity_threshold config) (m_score m)
      then md ← match_metadata m;
           let content := default (default "" (md !! "content")) (md !! "text") in
           let source := default "unknown" (md !! "source") in
           let c := mk_chunk content source (m_id m) None in
           search_loop rest (results ++ [mk_result c (m_score m)])
      else search_loop rest results
  end.

(** The [try] body of [search]. *)
Definition search_body (query_embedding : vector) (k : Z) : res (list SearchResult) :=
  matches ← index_query query_embedding k;
  search_loop matches [].

Definition search (query_embedding : vector) (k : Z) : list SearchResult :=
  match search_body query_embedding k with
  | Ok results => results
  | Raise _ => []
  end.

End WithEnvironment.
End PineconeVS.

(** ** DocumentProcessor: loading and chunking *)

(** A document of [PyPDFDirectoryLoader.load()]. *)
Record PdfDoc : Type := mk_pdf {
  page_content : string;
  pdf_source : option string
}.

(** The data directory as [load_documents] sees it: the [*.txt] files in
    glob order, each with its text or the exception of reading it, and the
    outcome of the PDF loader. *)
Record Directory : Type := mk_directory {
  txt_files : list (string * res string);
  pdf_docs : res (list PdfDoc)
}.

Module Processor.
Section WithEnvironment.
(** [RecursiveCharacterTextSplitter(...).split_text] *)
Variable split_text : string -> list string.
(** [hashlib.md5(s.encode()).hexdigest()] *)
Variable md5_hexdigest : string -> string.

Definition make_chunk_id (source : string) (i : nat) (chunk_text : string) : string :=
  source ++ "_" ++ pretty i ++ "_" ++ str_take 8 (md5_hexdigest chunk_text).

(** The [for i, chunk_text in enumerate(text_chunks)] loop. *)
Fixpoint chunk_loop (source : string) (items : list (nat * string))
    (acc : list DocumentChunk) : list DocumentChunk :=
  match items with
  | [] => acc
  | (i, chunk_text) :: rest =>
      if truthy (strip chunk_text)
      then chunk_loop source rest
             (acc ++ [mk_chunk (strip chunk_text) source
                        (make_chunk_id source i chunk_text) None])
      else chunk_loop source rest acc
  end.

Definition _chunk_document (content source : string) : list DocumentChunk :=
  chunk_loop source (enumerate (split_text content)) [].

Fixpoint load_txt (files : list (string * res string)) (acc : list DocumentChunk)
    : list DocumentChunk :=
  match files with
  | [] => acc
  | (name, Ok text) :: rest =>
      if truthy (strip text)
      then load_txt rest (acc ++ _chunk_document text name)
      else load_txt rest acc
  | (_, Raise _) :: rest => load_txt rest acc
  end.

Fixpoint load_pdf (docs : list PdfDoc) (acc : list DocumentChunk)
    : list DocumentChunk :=
  match docs with
  | [] => acc
  | doc :: rest =>
      if truthy (strip (page_content doc))
      then load_pdf rest
             (acc ++ _chunk_document (page_content doc)
                       (default "unknown.pdf" (pdf_source doc)))
      else load_pdf rest acc
  end.

Definition load_documents (dir : Directory) : list DocumentChunk :=
  let acc := load_txt (txt_files dir) [] in
  match pdf_docs dir with
  | Ok docs => load_pdf docs acc
  | Raise _ => acc
  end.

End WithEnvironment.
End Processor.

(** ** RAGSystem *)

Inductive VectorStore : Type :=
| Local (st : LocalVectorStore)
| Pinecone (pc : PineconeVectorStore).

(** The object [generate_content] returns; reading [.text] may raise. *)
Record Response : Type := mk_response {
  text : res string
}.

(** Calls to the external collaborators, in the order they are made. *)
Inductive Event : Type :=
| EvLoadDocuments (dir : string)
| EvEncode (texts : list string)
| EvGenerate (prompt : string).

Record World : Type := mk_world {
  vector_store : VectorStore;
  disk : Disk;
  upserted : list (list PVector);
  trace : list Event
}.

(** The collaborators the pipeline is built on. *)
Record Services : Type := mk_services {
  cosine : vector -> vector -> Q;
  write_outcome : Snapshot -> WriteOutcome;
  index_query : vector -> Z -> res (list Match);
  index_upsert : list PVector -> res unit;
  split_text : string -> list string;
  md5_hexdigest : string -> string;
  directory : Directory;
  encode : list string -> res ndarray;
  generate_content : string -> res Response
}.

(** State and exceptions: a computation maps a world to its outcome and the
    world it leaves behind, also when it raises. *)
Definition M (A : Type) : Type := World -> res A * World.

#[global] Instance M_ret : MRet M := fun _ a w => (Ok a, w).
#[global] Instance M_bind : MBind M := fun _ _ k m w =>
  match m w with
  | (Ok a, w') => k a w'
  | (Raise e, w') => (Raise e, w')
  end.

Definition raise {A} (e : exn) : M A := fun w => (Raise e, w).
Definition lift {A} (r : res A) : M A := fun w => (r, w).
Definition get_world : M World := fun w => (Ok w, w).
Definition emit (ev : Event) : M unit := fun w =>
  (Ok tt, mk_world (vector_store w) (disk w) (upserted w) (trace w ++ [ev])).

(** [try: body except Exception as e: handler(e)] *)
Definition try_except {A} (body : M A) (handler : exn -> M A) : M A := fun w =>
  match body w with
  | (Ok a, w') => (Ok a, w')
  | (Raise e, w') => handler e w'
  end.

Definition nl : string := String (ascii_of_nat 10) EmptyString.

Module RAG.

Definition system_prompt : string :=
"You are a University Course Information Assistant for Texas A&M University's CSCE (Computer Science & Engineering) and ECEN (Electrical & Computer Engineering) departments.

Your responsibilities:
- Provide accurate, reliable information about graduate-level courses and programs
- Base responses exclusively on the provided context from official documents
- Include specific details like course numbers, credit hours, prerequisites, and requirements
- Help students understand degree plans, specializations, and academic policies

Guidelines for responses:
- Give detailed, helpful answers when context supports it
- Include relevant course codes, credit hours, and prerequisites
- Explain degree requirements clearly and completely
- Reference specific policies and guidelines when mentioned in documents
- If information is insufficient, clearly state what you don't know
- Always be factual and avoid speculation beyond the provided documents

Focus areas:
- Course descriptions and requirements
- MS and PhD degree plan requirements
- Specializations and research areas
- Academic rules, guidelines, and policies
- Prerequisites and course sequencing".

Definition _generate_no_context_response : string :=
"I don't have specific information about that topic in my current database.

For the most accurate and up-to-date information about Texas A&M University courses and programs, I recommend:
- Checking the official Texas A&M course catalog
- Contacting the CSCE or ECEN department directly
- Speaking with an academic advisor

Is there anything else about the available course information I can help you with?".

Definition empty_response_apology : string :=
  "I apologize, but I couldn't generate a response. Please try rephrasing your question.".

Definition error_prefix : string :=
  "I encountered an error while processing your question: ".

Section WithEnvironment.
Variable config : Config.
Variable sv : Services.

Definition call_encode (texts : list string) : M ndarray :=
  _ ← emit (EvEncode texts); lift (encode sv texts).

Definition call_load_documents : M (list DocumentChunk) :=
  _ ← emit (EvLoadDocuments (data_dir config));
  mret (Processor.load_documents (split_text sv) (md5_hexdigest sv) (directory sv)).

Definition call_generate_content (prompt : string) : M Response :=
  _ ← emit (EvGenerate prompt); lift (generate_content sv prompt).

(** [self.vector_store.search(...)], by the class of the store. *)
Definition vs_search (query_embedding : vector) (k : Z) : M (list SearchResult) :=
  w ← get_world;
  match vector_store w with
  | Local st => lift (LocalVS.search config (cosine sv) st query_embedding k)
  | Pinecone _ => mret (PineconeVS.search config (index_query sv) query_embedding k)
  end.

(** [self.vector_store.add_documents(...)], by the class of the store. *)
Definition vs_add_documents (cs : list DocumentChunk) (E : ndarray) : M unit := fun w =>
  match vector_store w with
  | Local st =>
      let '(r, st', d') := LocalVS.add_documents (write_outcome sv) st (disk w) cs E in
      (r, mk_world (Local st') d' (upserted w) (trace w))
  | Pinecone pc =>
      let '(r, sent) := PineconeVS.add_documents (index_upsert sv) (upserted w) cs E in
      (r, mk_world (Pinecone pc) (disk w) sent (trace w))
  end.

(** The short cut of [index_documents]: a local store that holds chunks. *)
Definition already_indexed (force_reindex : bool) (vs : VectorStore) : bool :=
  negb force_reindex &&
  match vs with
  | Local st => Nat.ltb 0 (length (chunks st))
  | Pinecone _ => false
  end.

Definition index_documents (force_reindex : bool) : M unit :=
  w ← get_world;
  if already_indexed force_reindex (vector_store w) then mret tt
  else
    cs ← call_load_documents;
    match cs with
    | [] => raise (ValueError ("No documents found in " ++ data_dir config))
    | _ =>
        embeddings ← call_encode (map content cs);
        vs_add_documents cs embeddings
    end.

Definition format_result (r : SearchResult) : string :=
  "Source: " ++ source (chunk r) ++ nl ++ "Content: " ++ content (chunk r).

Definition make_prompt (context question : string) : string :=
  system_prompt ++ nl ++ nl ++ "CONTEXT INFORMATION:" ++ nl ++ context
  ++ nl ++ nl ++ "STUDENT QUESTION: " ++ question ++ nl ++ nl
  ++ "Please provide a comprehensive and helpful response based on the context information above. Include specific details like course numbers, credit hours, prerequisites, and requirements when available.".

(** The [try] body of [query]. *)
Definition query_body (question : string) : M string :=
  E ← call_encode [question];
  query_embedding ← lift (LocalVS.getitem (rows E) 0);
  results ← vs_search query_embedding (max_results config);
  match results with
  | [] => mret _generate_no_context_response
  | _ =>
      let context := join (nl ++ nl ++ "---" ++ nl ++ nl) (map format_result results) in
      response ← call_generate_content (make_prompt context question);
      t ← lift (text response);
      if truthy t then mret (strip t) else mret empty_response_apology
  end.

Definition query (question : string) : M string :=
  try_except (query_body question)
    (fun e => mret (error_prefix ++ str e)%string).

End WithEnvironment.
End RAG.

(** ** A reference instance of the collaborators

    Used to run the definitions on concrete stores. *)

Module Reference.

Definition dot (u v : vector) : Q := foldr Qplus 0%Q (zip_with Qmult u v).

(** The square root of a rational square; rounded down otherwise. *)
Definition Qsqrt (x : Q) : Q := (Z.sqrt (Qnum x * Zpos (Qden x)) # Qden x)%Q.

(** The row norm, with [sklearn]'s replacement of a zero norm by one. *)
Definition norm (v : vector) : Q :=
  let n := Qsqrt (dot v v) in if Qeq_bool n 0 then 1%Q else n.

Definition normalize (v : vector) : vector := map (fun x => (x / norm v)%Q) v.

(** Cosine similarity as the normalized dot product, the metric that
    [sklearn.metrics.pairwise.cosine_similarity] computes in floating
    point.  Exact on rows whose squared norm is a rational square. *)
Definition cosine (u v : vector) : Q := Qred (dot (normalize u) (normalize v)).

Definition config : Config := mk_config (1 # 10) 3 "data".

Definition chunk_a : DocumentChunk :=
  mk_chunk "CSCE 629 requires CSCE 221" "a.txt" "a.txt_0_0f3c9a1b" None.
Definition chunk_b : DocumentChunk :=
  mk_chunk "CSCE 629 requires CSCE 221" "b.txt" "b.txt_0_0f3c9a1b" None.
Definition chunk_c : DocumentChunk :=
  mk_chunk "ECEN 602 is a networks course" "c.txt" "c.txt_0_77aa01de" None.

(** Two files with the same text: rows 0 and 1 are the same embedding. *)
Definition store_ab : LocalVectorStore :=
  mk_local [chunk_a; chunk_b; chunk_c]
    (Some (mk_ndarray 2 [[1; 0]; [1; 0]; [3 # 5; 4 # 5]]%Q)).

(** A hosted index that answers with two matches, one of them below the
    threshold, and one that cannot be reached. *)
Definition md (t s : string) : gmap string string :=
  <["text" := t]> (<["source" := s]> ∅).

Definition index_query (q : vector) (k : Z) : res (list Match) :=
  Ok [mk_match "a.txt_0_0f3c9a1b" (9 # 10)
        (Some (md "CSCE 629 requires CSCE 221" "a.txt"));
      mk_match "c.txt_0_77aa01de" (1 # 20)
        (Some (md "ECEN 602 is a networks course" "c.txt"))].

Definition index_query_down (q : vector) (k : Z) : res (list Match) :=
  Raise (RuntimeError "connection refused").

Definition index_query_nothing (q : vector) (k : Z) : res (list Match) :=
  Ok [].

(** A two-dimensional embedding by the department a text starts with. *)
Definition embed_text (t : string) : vector :=
  if String.prefix "CSCE" t then [1; 0]%Q
  else if String.prefix "ECEN" t then [3 # 5; 4 # 5]%Q
  else [0; 1]%Q.

Definition encode (texts : list string) : res ndarray :=
  Ok (mk_ndarray 2 (map embed_text texts)).

Definition generate_content (prompt : string) : res Response :=
  Ok (mk_response (Ok " CSCE 629 requires CSCE 221. ")).

Definition split_text (t : string) : list string := [t; "   "].

Definition md5_hexdigest (t : string) : string :=
  "0f3c9a1b" ++ pretty (String.length t).

Definition directory : Directory :=
  mk_directory
    [("a.txt", Ok "CSCE 629 requires CSCE 221");
     ("b.txt", Ok "CSCE 629 requires CSCE 221");
     ("blank.txt", Ok "   ");
     ("locked.txt", Raise (OSError "Permission denied"))]
    (Ok []).

Definition empty_directory : Directory :=
  mk_directory [("blank.txt", Ok "   ")] (Raise (OSError "No such directory")).

(** The generator is rate limited. *)
Definition generate_content_down (prompt : string) : res Response :=
  Raise (RuntimeError "429 Resource has been exhausted").

Definition build (wo : Snapshot -> WriteOutcome)
    (iq : vector -> Z -> res (list Match)) (dir : Directory)
    (gen : string -> res Response) : Services :=
  mk_services cosine wo iq (fun _ => Ok tt) split_text md5_hexdigest dir
    encode gen.

Definition services : Services :=
  build (fun _ => Written) index_query directory generate_content.

(** The disk is full: every write of the snapshot fails. *)
Definition disk_full (s : Snapshot) : WriteOutcome :=
  FailedDuringDump (OSError "No space left on device").

(** The store of the end-to-end example: one chunk and its embedding. *)
Definition store_a : LocalVectorStore :=
  mk_local [chunk_a] (Some (mk_ndarray 2 [[1; 0]]%Q)).

Definition world_local : World := mk_world (Local store_a) NoFile [] [].
Definition world_hosted : World :=
  mk_world (Pinecone (mk_pinecone "aggie-courses")) NoFile [] [].

End Reference.

(** ** EmbeddingManager: provider selection and fall back *)

Module Embedding.

Inductive Provider : Type := OpenAI | SentenceTransformers.

(** The exceptions this class meets: those of [exn], and two more classes. *)
Inductive py_exn : Type :=
| Builtin (e : exn)
| ImportError (msg : string)
| AttributeError (msg : string).

Inductive outcome (A : Type) : Type :=
| Return (a : A)
| Throw (e : py_exn).
Arguments Return {A} a.
Arguments Throw {A} e.

(** The attributes of an [EmbeddingManager]: [embedding_model] and
    [openai_client] say whether the attribute holds an object. *)
Record EmbeddingManager : Type := mk_manager {
  provider : Provider;
  embedding_model : bool;
  openai_client : bool;
  embedding_dim : option nat
}.

(** What the class finds around it. *)
Record Environment : Type := mk_environment {
  openai_api_key : string;
  (** [import openai] succeeds *)
  openai_importable : bool;
  (** [openai.OpenAI(api_key=...)] *)
  openai_connect : outcome unit;
  (** [SentenceTransformer(config.embedding_model)] and its dimension *)
  load_model : outcome nat;
  (** [self.openai_client.embeddings.create(...)], as an array *)
  openai_create : list string -> outcome ndarray;
  (** [self.embedding_model.encode(texts)] *)
  model_encode : list string -> outcome ndarray
}.

(** Calls that leave the process, in the order they are made. *)
Inductive Call : Type :=
| CallOpenAI (texts : list string)
| CallLoadModel
| CallModelEncode (texts : list string).

Section WithEnvironment.
Variable env : Environment.

Definition _select_provider : Provider :=
  if truthy (openai_api_key env)
  then if openai_importable env then OpenAI else SentenceTransformers
  else SentenceTransformers.

Definition missing_package : string :=
  "sentence-transformers package is required but not installed. Please install it with: pip install sentence-transformers".

Definition _initialize_sentence_transformers (m : EmbeddingManager)
    : outcome unit * EmbeddingManager :=
  match load_model env with
  | Return dim =>
      (Return tt, mk_manager (provider m) true (openai_client m) (Some dim))
  | Throw (ImportError _) => (Throw (ImportError missing_package), m)
  | Throw e => (Throw e, m)
  end.

Definition use_sentence_transformers (m : EmbeddingManager) : EmbeddingManager :=
  mk_manager SentenceTransformers (embedding_model m) (openai_client m)
    (embedding_dim m).

Definition _initialize_embeddings (m : EmbeddingManager)
    : outcome unit * EmbeddingManager :=
  match provider m with
  | OpenAI =>
      if openai_importable env
      then match openai_connect env with
           | Return _ =>
               (Return tt, mk_manager (provider m) (embedding_model m) true (Some 1536))
           | Throw _ =>
               _initialize_sentence_transformers (use_sentence_transformers m)
           end
      else _initialize_sentence_transformers (use_sentence_transformers m)
  | SentenceTransformers => _initialize_sentence_transformers m
  end.

(** [EmbeddingManager()] *)
Definition init : outcome EmbeddingManager :=
  let m := mk_manager _select_provider false false None in
  match _initialize_embeddings m with
  | (Return _, m') => Return m'
  | (Throw e, _) => Throw e
  end.

Definition no_encode : py_exn :=
  AttributeError "'NoneType' object has no attribute 'encode'".

Definition no_client : py_exn :=
  AttributeError "'EmbeddingManager' object has no attribute 'openai_client'".

(** [self.embedding_model.encode(texts)] *)
Definition encode_with_model (m : EmbeddingManager) (texts : list string)
    : outcome ndarray * list Call :=
  if embedding_model m
  then (model_encode env texts, [CallModelEncode texts])
  else (Throw no_encode, []).

(** The inner [try] of the OpenAI branch of [encode]. *)
Definition encode_with_openai (m : EmbeddingManager) (texts : list string)
    : outcome ndarray * list Call :=
  if openai_client m
  then (openai_create env texts, [CallOpenAI texts])
  else (Throw no_client, []).

Definition encode (m : EmbeddingManager) (texts : list string)
    : outcome ndarray * EmbeddingManager * list Call :=
  match provider m with
  | OpenAI =>
      match encode_with_openai m texts with
      | (Return E, calls) => (Return E, m, calls)
      | (Throw _, calls) =>
          let m1 := use_sentence_transformers m in
          if embedding_model m1
          then let '(r, calls') := encode_with_model m1 texts in
               (r, m1, calls ++ calls')
          else
            match _initialize_sentence_transformers m1 with
            | (Return _, m2) =>
                let '(r, calls') := encode_with_model m2 texts in
                (r, m2, calls ++ [CallLoadModel] ++ calls')
            | (Throw e, m2) => (Throw e, m2, calls ++ [CallLoadModel])
            end
      end
  | SentenceTransformers =>
      let '(r, calls) := encode_with_model m texts in (r, m, calls)
  end.

(** A sequence of [encode] calls on the same manager. *)
Fixpoint encode_all (m : EmbeddingManager) (batches : list (list string))
    : list (outcome ndarray) * EmbeddingManager * list Call :=
  match batches with
  | [] => ([], m, [])
  | texts :: rest =>
      let '(r, m1, calls) := encode m texts in
      let '(rs, m2, calls') := encode_all m1 rest in
      (r :: rs, m2, calls ++ calls')
  end.

End WithEnvironment.
End Embedding.

(** ** AggieeRag: the wrapper the web application holds *)

Module Aggiee.
Section WithEnvironment.
Variable config : Config.
Variable sv : Services.

(** The part of [__init__] that follows the construction of the
    [RAGSystem]: index when the data directory exists, and only warn when
    that fails. *)
Definition auto_index (data_dir_exists : bool) : M unit :=
  if data_dir_exists
  then try_except (RAG.index_documents config sv false) (fun _ => mret tt)
  else mret tt.

Definition augment_prompt (query : string) : M string :=
  RAG.query config sv query.

End WithEnvironment.
End Aggiee.

(** ** The web application: [/llmtrigger] and [/api/reindex] *)

Module App.

Local Unset Elimination Schemes.

(** A parsed JSON value; an object is the list of its members. *)
Inductive Json : Type :=
| JNull
| JBool (b : bool)
| JNumber (z : Z)
| JString (s : string)
| JArray (items : list Json)
| JObject (members : list (string * Json)).

Local Set Elimination Schemes.

(** The request as the handler reads it. *)
Record Request : Type := mk_request {
  method : string;
  is_json : bool;
  (** [request.get_json()]: the parsed body, or the [BadRequest] of a body
      that does not parse *)
  get_json : option Json;
  form : gmap string string
}.

(** [jsonify(body), status] *)
Record Reply : Type := mk_reply {
  status : nat;
  body : list (string * string)
}.

(** Exceptions inside the handler: [ValueError] has a clause of its own,
    every other exception ends in the [except Exception] clause. *)
Inductive handler_exn : Type :=
| HValueError (msg : string)
| HOther.

Inductive attempt (A : Type) : Type :=
| Done (a : A)
| Failed (e : handler_exn).
Arguments Done {A} a.
Arguments Failed {A} e.

Definition classify (e : exn) : handler_exn :=
  match e with
  | ValueError msg => HValueError msg
  | _ => HOther
  end.

(** [d.get(key, default)] on the members of an object *)
Fixpoint dict_get (key : string) (members : list (string * Json)) : option Json :=
  match members with
  | [] => None
  | (k, v) :: rest => if String.eqb k key then Some v else dict_get key rest
  end.

(** [data.get('message', '').strip()], with the [AttributeError] of a body
    that is no object or of a message that is no string. *)
Definition json_message (data : Json) : attempt string :=
  match data with
  | JObject members =>
      match dict_get "message" members with
      | None => Done (strip "")
      | Some (JString s) => Done (strip s)
      | Some _ => Failed HOther
      end
  | _ => Failed HOther
  end.

Definition read_message (req : Request) : attempt string :=
  if is_json req
  then match get_json req with
       | Some data => json_message data
       | None => Failed HOther
       end
  else Done (strip (default "" (form req !! "message"))).

Definition empty_answer_apology : string :=
  "I apologize, but I couldn't generate a response. Please try again.".

Definition internal_error_reply : Reply :=
  mk_reply 500
    [("error", "An internal error occurred. Please try again.");
     ("message", "I apologize, but I encountered an error while processing your request. Please try again.")].

(** The two [except] clauses of [process_query]. *)
Definition on_exception (e : handler_exn) : Reply :=
  match e with
  | HValueError msg => mk_reply 400 [("error", msg)]
  | HOther => internal_error_reply
  end.

Section WithEnvironment.
Variable config : Config.
Variable sv : Services.

Definition process_query (req : Request) (w : World) : Reply * World :=
  if negb (String.eqb (method req) "POST")
  then (mk_reply 405 [("error", "Method not allowed")], w)
  else
    match read_message req with
    | Failed e => (on_exception e, w)
    | Done query =>
        if negb (truthy query)
        then (mk_reply 400 [("error", "No message provided")], w)
        else if Nat.ltb 2000 (String.length query)
        then (mk_reply 400 [("error", "Message too long")], w)
        else
          match Aggiee.augment_prompt config sv query w with
          | (Ok response, w') =>
              let response :=
                if truthy response then response else empty_answer_apology in
              (mk_reply 200 [("message", response)], w')
          | (Raise e, w') => (on_exception (classify e), w')
          end
    end.

Definition reindex_documents (w : World) : Reply * World :=
  match RAG.index_documents config sv true w with
  | (Ok _, w') => (mk_reply 200 [("message", "Documents reindexed successfully")], w')
  | (Raise _, w') => (mk_reply 500 [("error", "Failed to reindex documents")], w')
  end.

End WithEnvironment.
End App.

(** ** ConfigManager.validate_config *)

Module Settings.

(** The fields of [Config] that the validation reads. *)
Record Settings : Type := mk_settings {
  gemini_api_key : string;
  pinecone_api_key : string;
  use_pinecone : bool;
  pinecone_index_name : string;
  data_dir : string
}.

(** What the [pinecone] package answers to [list_indexes]. *)
Inductive Probe : Type :=
| NotInstalled
| Indexes (names : list string)
| ProbeFailed (e : exn).

(** The machine the validation runs on. *)
Record Deployment : Type := mk_deployment {
  data_dir_exists : bool;
  (** [glob("*.txt")] followed by [glob("*.pdf")] *)
  data_files : list string;
  probe : Probe
}.

Definition string_in (s : string) (l : list string) : bool :=
  existsb (String.eqb s) l.

Definition check_key (s : Settings) : list string :=
  if truthy (gemini_api_key s) then []
  else ["GEMINI_API_KEY environment variable is required"].

Definition check_data (s : Settings) (dep : Deployment) : list string :=
  if negb (data_dir_exists dep)
  then [("Data directory '" ++ data_dir s ++ "' not found")%string]
  else match data_files dep with
       | [] => [("No data files found in '" ++ data_dir s ++ "'")%string]
       | _ => []
       end.

(** The Pinecone block: its issues, and the value of [use_pinecone] it
    leaves behind. *)
Definition check_pinecone (s : Settings) (dep : Deployment) : list string * bool :=
  if use_pinecone s
  then if negb (truthy (pinecone_api_key s))
       then (["PINECONE_API_KEY required when USE_PINECONE=true"], true)
       else match probe dep with
            | NotInstalled => ([], false)
            | Indexes names =>
                if string_in (pinecone_index_name s) names then ([], true)
                else ([("Pinecone index '" ++ pinecone_index_name s ++ "' not found")%string], true)
            | ProbeFailed e => ([("Pinecone validation failed: " ++ str e)%string], true)
            end
  else ([], false).

Definition validate_config (s : Settings) (dep : Deployment)
    : bool * list string * Settings :=
  let '(pinecone_issues, use) := check_pinecone s dep in
  let issues := check_key s ++ check_data s dep ++ pinecone_issues in
  (Nat.eqb (length issues) 0, issues,
   mk_settings (gemini_api_key s) (pinecone_api_key s) use
     (pinecone_index_name s) (data_dir s)).

End Settings.

(** * Vocabulary of the properties *)

(** Ascending by score, and by index among equal scores: the order a
    stable ascending sort leaves the enumerated scores in. *)
Definition lex_lt (x y : scored) : Prop :=
  (snd x < snd y)%Q \/ (snd x == snd y /\ fst x < fst y).

Definition idx_lt (x y : scored) : Prop := fst x < fst y.

(** The sorted pairs behind [argsort]. *)
Definition ranked (scores : list Q) : list scored := sort_asc (enumerate scores).

(** The pairs behind [top_indices]: best score first, and among equal
    scores the larger index first. *)
Definition top_ranked (scores : list Q) (k : Z) : list scored :=
  rev (slice_from_neg k (ranked scores)).

(** Result [r] was built from the pair [p] of a stored position and its
    score. *)
Definition hit_of (config : Config) (similarities : list Q)
    (cs : list DocumentChunk) (p : scored) (r : SearchResult) : Prop :=
  cs !! fst p = Some (chunk r) /\ similarity r = snd p /\
  similarities !! fst p = Some (snd p) /\
  (similarity_threshold config < snd p)%Q.

(** The similarity of the query to the stored row at position [i]. *)
Definition score_at (cosine : vector -> vector -> Q) (st : LocalVectorStore)
    (q : vector) (i : nat) : option Q :=
  E ← embeddings st; v ← rows E !! i; Some (cosine q v).

(** Result [r] is the chunk stored at position [i] with the similarity of
    the row stored at position [i]. *)
Definition result_of (cosine : vector -> vector -> Q) (st : LocalVectorStore)
    (q : vector) (i : nat) (r : SearchResult) : Prop :=
  chunks st !! i = Some (chunk r) /\ score_at cosine st q i = Some (similarity r).

(** Every row has a chunk, and the other way round. *)
Definition aligned (st : LocalVectorStore) : Prop :=
  length (chunks st) = from_option nrows 0 (embeddings st).

(** The query has the dimension of the stored rows. *)
Definition same_dimension (st : LocalVectorStore) (q : vector) : Prop :=
  match embeddings st with
  | Some E => length q = width E
  | None => True
  end.

(** Ascending by score alone. *)
Definition snd_le (a b : nat * Q) : Prop := (snd a <= snd b)%Q.

(** The score at position [i] is at most the score at position [j]. *)
Definition score_le (scores : list Q) (i j : nat) : Prop :=
  exists x y, scores !! i = Some x /\ scores !! j = Some y /\ (x <= y)%Q.

(** What numpy promises of [np.argsort] with its default sort: the indices
    of the array, each once, in an order of ascending scores.  Nothing is
    promised on the order of equal scores. *)
Definition is_argsort (sort : list Q -> list nat) : Prop :=
  forall scores,
    sort scores ≡ₚ seq 0 (length scores)
    /\ StronglySorted (score_le scores) (sort scores).

(** An [np.argsort] that leaves equal scores in the reverse of their index
    order ([argsort] leaves them in index order). *)
Definition argsort_last_first (scores : list Q) : list nat :=
  map fst (sort_asc (rev (enumerate scores))).

(** A bound on what rounding a threshold [t] to single precision can add
    to it: at most [|t| / 2^24] where single precision is normal, and less
    than [1 / 2^149] below that range.  A comparison with a score in single
    precision rounds the threshold first. *)
Definition float32_slack (t : Q) : Q :=
  (Qabs t * (1 # 16777216)
   + (1 # 713623846352979940529142984724747568191373312))%Q.

(** Later results are not more similar than earlier ones. *)
Definition non_increasing (rs : list SearchResult) : Prop :=
  forall a b ra rb, a < b -> rs !! a = Some ra -> rs !! b = Some rb ->
    (similarity rb <= similarity ra)%Q.

(** [hits] lists the stored position of each result; two results of equal
    similarity have their positions related by [R], the earlier result
    first. *)
Definition ties_ordered (R : nat -> nat -> Prop) (hits : list nat)
    (rs : list SearchResult) : Prop :=
  forall a b ia ib ra rb, a < b ->
    hits !! a = Some ia -> hits !! b = Some ib ->
    rs !! a = Some ra -> rs !! b = Some rb ->
    (similarity ra == similarity rb)%Q -> R ia ib.

(** The ordering claim as the specification words it, for the search over
    a given [np.argsort]: at most [k] results, non-increasing, equal
    similarities in insertion order. *)
Definition ranked_with_insertion_order_ties (config : Config)
    (cosine : vector -> vector -> Q) (sort : list Q -> list nat)
    (st : LocalVectorStore) (q : vector) (k : Z) : Prop :=
  forall rs, LocalVS.search_by config cosine sort st q k = Ok rs ->
  exists hits : list nat,
    Forall2 (result_of cosine st q) hits rs
    /\ length rs <= Z.to_nat k
    /\ non_increasing rs
    /\ ties_ordered lt hits rs.

Definition above_threshold (config : Config) (r : SearchResult) : Prop :=
  (similarity_threshold config < similarity r)%Q.

(** [self.vector_store.search] as a function of the store. *)
Definition store_search (config : Config) (sv : Services) (vs : VectorStore)
    (q : vector) (k : Z) : res (list SearchResult) :=
  match vs with
  | Local st => LocalVS.search config (cosine sv) st q k
  | Pinecone _ => Ok (PineconeVS.search config (index_query sv) q k)
  end.

Definition log_event (ev : Event) (w : World) : World :=
  mk_world (vector_store w) (disk w) (upserted w) (trace w ++ [ev]).

(** Running a computation of [M] one step. *)
Ltac run_M :=
  unfold mbind, mret, M_bind, M_ret, get_world, lift, raise, emit; cbn.

(** The prompt [query] sends to the generator for a list of results. *)
Definition prompt_for (question : string) (results : list SearchResult) : string :=
  RAG.make_prompt
    (join (nl ++ nl ++ "---" ++ nl ++ nl) (map RAG.format_result results))
    question.

Definition with_index_query (sv : Services)
    (iq : vector -> Z -> res (list Match)) : Services :=
  mk_services (cosine sv) (write_outcome sv) iq (index_upsert sv)
    (split_text sv) (md5_hexdigest sv) (directory sv) (encode sv)
    (generate_content sv).

(** The chunk the loop builds from piece [t] at position [i], if any. *)
Definition chunk_of (md5_hexdigest : string -> string) (source : string)
    (p : nat * string) : option DocumentChunk :=
  if truthy (strip (snd p))
  then Some (mk_chunk (strip (snd p)) source
               (Processor.make_chunk_id md5_hexdigest source (fst p) (snd p)) None)
  else None.

Definition stored_rows (st : LocalVectorStore) : list vector :=
  from_option rows [] (embeddings st).

(** The new rows have the width of the stored ones, so [np.vstack] accepts
    them. *)
Definition compatible (st : LocalVectorStore) (E : ndarray) : Prop :=
  match embeddings st with
  | Some E0 => width E0 = width E
  | None => True
  end.

Definition snapshot_of (st : LocalVectorStore) : Snapshot :=
  mk_snapshot (chunks st) (embeddings st).

(** The persistence claim as the specification words it: whenever
    [add_documents] returns, the snapshot file holds the new state. *)
Definition add_documents_always_persists
    (write_outcome : Snapshot -> WriteOutcome) (st : LocalVectorStore)
    (d : Disk) (cs : list DocumentChunk) (E : ndarray) : Prop :=
  aligned st -> compatible st E -> length cs = nrows E ->
  forall st' d',
    LocalVS.add_documents write_outcome st d cs E = (Ok tt, st', d') ->
    aligned st' /\ d' = CacheFile (snapshot_of st').

(** The round trip as the specification words it, for the search over a
    given [np.argsort]: every chunk added with embedding [v] is the top
    result of a search for [v], with a similarity of 1 within [eps]. *)
Definition round_trip_returns_that_chunk (config : Config)
    (cosine : vector -> vector -> Q) (sort : list Q -> list nat)
    (write_outcome : Snapshot -> WriteOutcome)
    (st0 : LocalVectorStore) (d : Disk) (cs : list DocumentChunk) (E : ndarray)
    (v : vector) (k : Z) (eps : Q) : Prop :=
  aligned st0 -> compatible st0 E -> length cs = nrows E ->
  length v = width E ->
  (1 <= k)%Z -> (similarity_threshold config < 1)%Q ->
  forall j c, cs !! j = Some c -> rows E !! j = Some v ->
  exists st1 d1 r rs,
    LocalVS.add_documents write_outcome st0 d cs E = (Ok tt, st1, d1)
    /\ LocalVS.search_by config cosine sort st1 v k = Ok (r :: rs)
    /\ chunk r = c
    /\ (1 - eps <= similarity r)%Q /\ (similarity r <= 1 + eps)%Q.

(** * Vocabulary of the further properties *)

(** [l[-k:]] is the whole list: [k = 0], or [k] at least the length. *)
Definition keeps_all (k : Z) (n : nat) : Prop :=
  (k = 0 \/ Z.of_nat n <= k)%Z.

(** The match a hosted index returns for a vector it was sent, with the
    score it gives it. *)
Definition remote_match (v : PVector) (score : Q) : Match :=
  mk_match (pv_id v) score (Some (pv_metadata v)).

(** A chunk as it comes back from the hosted index: the text cut to 1000
    characters, no metadata. *)
Definition read_back (c : DocumentChunk) : DocumentChunk :=
  mk_chunk (str_take 1000 (content c)) (source c) (chunk_id c) None.

(** The result for a stored triple of chunk, embedding and score, if the
    score passes the threshold. *)
Definition hosted_result (config : Config) (t : DocumentChunk * list Q * Q)
    : option SearchResult :=
  if Qltb (similarity_threshold config) (snd t)
  then Some (mk_result (read_back (fst (fst t))) (snd t))
  else None.

Definition has_metadata (m : Match) : Prop := m_metadata m <> None.

(** The chunks one [*.txt] file contributes: none when it cannot be read
    or is blank. *)
Definition txt_chunks (split_text : string -> list string)
    (md5_hexdigest : string -> string) (f : string * res string)
    : list DocumentChunk :=
  match snd f with
  | Ok text =>
      if truthy (strip text)
      then Processor._chunk_document split_text md5_hexdigest text (fst f)
      else []
  | Raise _ => []
  end.

(** The chunks one PDF document contributes. *)
Definition pdf_chunks (split_text : string -> list string)
    (md5_hexdigest : string -> string) (doc : PdfDoc) : list DocumentChunk :=
  if truthy (strip (page_content doc))
  then Processor._chunk_document split_text md5_hexdigest (page_content doc)
         (default "unknown.pdf" (pdf_source doc))
  else [].

(** A file that contributes nothing: unreadable, or blank. *)
Definition contributes_nothing (f : string * res string) : Prop :=
  match snd f with
  | Ok text => strip text = EmptyString
  | Raise _ => True
  end.

(** No character of [s] is [c]. *)
Fixpoint free_of (c : ascii) (s : string) : bool :=
  match s with
  | EmptyString => true
  | String c' s' => negb (Ascii.eqb c' c) && free_of c s'
  end.

(** Nothing that is stored has changed between two worlds. *)
Definition same_stores (w w' : World) : Prop :=
  vector_store w' = vector_store w /\ disk w' = disk w
  /\ upserted w' = upserted w.

(** The answer [query] makes of the text of the generator. *)
Definition answer_of (t : string) : string :=
  if truthy t then strip t else RAG.empty_response_apology.

(** The world after the load and the embedding calls of [index_documents]. *)
Definition after_load_and_encode (config : Config) (cs : list DocumentChunk)
    (w : World) : World :=
  log_event (EvEncode (map content cs)) (log_event (EvLoadDocuments (data_dir config)) w).

(** The message the handler accepts: stripped, not empty, at most 2000
    characters. *)
Definition acceptable (req : App.Request) (q : string) : Prop :=
  App.method req = "POST" /\ App.read_message req = App.Done q
  /\ q <> EmptyString /\ String.length q <= 2000.

(** A JSON body from which no message can be read: it does not parse, it
    is no object, or its message is no string. *)
Definition unreadable_json (body : option App.Json) : Prop :=
  match body with
  | None => True
  | Some (App.JObject members) =>
      match App.dict_get "message" members with
      | Some (App.JString _) | None => False
      | Some _ => True
      end
  | Some _ => True
  end.

(** The OpenAI client can be built: key, package and connection. *)
Definition openai_usable (env : Embedding.Environment) : Prop :=
  Embedding.openai_api_key env <> EmptyString
  /\ Embedding.openai_importable env = true
  /\ exists u, Embedding.openai_connect env = Embedding.Return u.

(** The manager holds the object its provider needs. *)
Definition ready (m : Embedding.EmbeddingManager) : Prop :=
  match Embedding.provider m with
  | Embedding.OpenAI => Embedding.openai_client m = true
  | Embedding.SentenceTransformers => Embedding.embedding_model m = true
  end.

Definition is_openai_call (c : Embedding.Call) : bool :=
  match c with
  | Embedding.CallOpenAI _ => true
  | _ => false
  end.

(** The configuration and the machine of [validate_config] are in order. *)
Definition deployable (s : Settings.Settings) (dep : Settings.Deployment) : Prop :=
  Settings.gemini_api_key s <> EmptyString
  /\ Settings.data_dir_exists dep = true
  /\ Settings.data_files dep <> []
  /\ (Settings.use_pinecone s = true ->
      Settings.pinecone_api_key s <> EmptyString
      /\ (Settings.probe dep = Settings.NotInstalled
          \/ exists names, Settings.probe dep = Settings.Indexes names
                           /\ Settings.pinecone_index_name s ∈ names)).

(** A machine for the reference instance: an OpenAI key and package, a
    failing OpenAI service, and a local model of dimension 384. *)
Definition reference_environment : Embedding.Environment :=
  Embedding.mk_environment "sk-test" true (Embedding.Return tt)
    (Embedding.Return 384)
    (fun _ => Embedding.Throw (Embedding.Builtin (RuntimeError "rate limit")))
    (fun texts => Embedding.Return (mk_ndarray 384 [])).

(** The same machine without the [sentence-transformers] package. *)
Definition reference_environment_no_model : Embedding.Environment :=
  Embedding.mk_environment "sk-test" true (Embedding.Return tt)
    (Embedding.Throw (Embedding.ImportError "No module named 'sentence_transformers'"))
    (fun _ => Embedding.Throw (Embedding.Builtin (RuntimeError "rate limit")))
    (fun texts => Embedding.Return (mk_ndarray 384 [])).

Definition reference_settings : Settings.Settings :=
  Settings.mk_settings "gemini-key" "pinecone-key" true "aggie-courses" "Database".

Definition reference_deployment : Settings.Deployment :=
  Settings.mk_deployment true ["a.txt"; "plan.pdf"] Settings.NotInstalled.

(** No call of the list goes to OpenAI. *)
Definition no_openai_call (calls : list Embedding.Call) : Prop :=
  forallb (fun c => negb (is_openai_call c)) calls = true.

(** The OpenAI attempt of [encode] fails for these texts. *)
Definition openai_fails (env : Embedding.Environment)
    (m : Embedding.EmbeddingManager) (texts : list string) : Prop :=
  exists e, fst (Embedding.encode_with_openai env m texts) = Embedding.Throw e.

(** * Properties *)

(** ** Order of the scores *)

Lemma Qltb_lt (a b : Q) : Qltb a b = true <-> (a < b)%Q.
Proof.
  unfold Qltb. rewrite negb_true_iff. split.
  - intros H. apply Qnot_le_lt. intros Hle.
    apply Qle_bool_iff in Hle. congruence.
  - intros H. destruct (Qle_bool b a) eqn:E; [|reflexivity].
    apply Qle_bool_iff in E. exfalso. exact (Qlt_not_le _ _ H E).
Qed.

Lemma Qle_bool_false (a b : Q) : Qle_bool a b = false -> (b < a)%Q.
Proof.
  intros H. apply Qnot_le_lt. intros Hle.
  apply Qle_bool_iff in Hle. congruence.
Qed.

Lemma lex_lt_score_le (x y : scored) : lex_lt x y -> (snd x <= snd y)%Q.
Proof.
  intros [H | [H _]].
  - apply Qlt_le_weak, H.
  - rewrite H. apply Qle_refl.
Qed.

Lemma score_le_lex_lt (x y : scored) :
  (snd x <= snd y)%Q -> fst x < fst y -> lex_lt x y.
Proof.
  intros Hle Hlt. apply Qle_lteq in Hle as [H | H].
  - left. exact H.
  - right. split; assumption.
Qed.

Lemma Forall_insert_asc (P : scored -> Prop) x l :
  P x -> Forall P l -> Forall P (insert_asc x l).
Proof.
  intros Hx Hl. induction Hl as [|y l Hy Hl IH]; simpl.
  - repeat constructor. exact Hx.
  - destruct (Qle_bool (snd x) (snd y)).
    + repeat constructor; assumption.
    + constructor; assumption.
Qed.

Lemma insert_asc_length x l : length (insert_asc x l) = S (length l).
Proof.
  induction l as [|y l IH]; simpl; [reflexivity|].
  destruct (Qle_bool (snd x) (snd y)); simpl; congruence.
Qed.

Lemma insert_asc_sorted x l :
  StronglySorted lex_lt l ->
  Forall (idx_lt x) l ->
  StronglySorted lex_lt (insert_asc x l).
Proof.
  induction 1 as [|y l Hs IH Hy]; intros Hidx; simpl.
  - repeat constructor.
  - inversion Hidx as [|? ? Hxy Hxl]; subst.
    destruct (Qle_bool (snd x) (snd y)) eqn:E.
    + apply Qle_bool_iff in E.
      constructor; [constructor; assumption|].
      constructor; [apply score_le_lex_lt; assumption|].
      rewrite Forall_forall in Hy, Hxl. apply Forall_forall. intros z Hz.
      apply score_le_lex_lt; [|apply Hxl, Hz].
      eapply Qle_trans; [exact E|]. apply lex_lt_score_le, Hy, Hz.
    + apply Qle_bool_false in E.
      constructor; [apply IH, Hxl|].
      apply Forall_insert_asc; [left; exact E | exact Hy].
Qed.

Lemma sort_asc_Forall (P : scored -> Prop) l :
  Forall P l -> Forall P (sort_asc l).
Proof.
  induction 1; simpl; [constructor|]. apply Forall_insert_asc; assumption.
Qed.

Lemma sort_asc_length l : length (sort_asc l) = length l.
Proof.
  induction l; simpl; [reflexivity|]. rewrite insert_asc_length. congruence.
Qed.

Lemma sort_asc_sorted l :
  StronglySorted idx_lt l -> StronglySorted lex_lt (sort_asc l).
Proof.
  induction 1 as [|x l Hs IH Hx]; simpl; [constructor|].
  apply insert_asc_sorted; [exact IH|]. apply sort_asc_Forall, Hx.
Qed.

Lemma enumerate_from_spec {A} (l : list A) i :
  Forall (fun p => i <= fst p /\ l !! (fst p - i) = Some (snd p)) (enumerate_from i l).
Proof.
  revert i. induction l as [|a l IH]; intros i; simpl; constructor.
  - simpl. split; [lia|]. replace (i - i) with 0 by lia. reflexivity.
  - eapply Forall_impl; [apply (IH (S i))|].
    intros [j b] [Hle Hl]; simpl in *. split; [lia|].
    replace (j - i) with (S (j - S i)) by lia. exact Hl.
Qed.

Lemma enumerate_from_sorted (l : list Q) i :
  StronglySorted idx_lt (enumerate_from i l).
Proof.
  revert i. induction l as [|a l IH]; intros i; simpl; constructor.
  - apply IH.
  - eapply Forall_impl; [apply (enumerate_from_spec l (S i))|].
    intros [j b] [Hle _]. unfold idx_lt. simpl in *. lia.
Qed.

Lemma enumerate_from_length {A} (l : list A) i :
  length (enumerate_from i l) = length l.
Proof. revert i. induction l; intros; simpl; [reflexivity|]. f_equal. auto. Qed.

Lemma ranked_lookup scores :
  Forall (fun p => scores !! fst p = Some (snd p)) (ranked scores).
Proof.
  apply sort_asc_Forall.
  eapply Forall_impl; [apply (enumerate_from_spec scores 0)|].
  intros [j b] [_ H]; simpl in *. replace (j - 0) with j in H by lia. exact H.
Qed.

Lemma ranked_sorted scores : StronglySorted lex_lt (ranked scores).
Proof. apply sort_asc_sorted, enumerate_from_sorted. Qed.

Lemma ranked_length scores : length (ranked scores) = length scores.
Proof. unfold ranked. rewrite sort_asc_length. apply enumerate_from_length. Qed.

Lemma StronglySorted_sublist {A} (R : relation A) (l1 l2 : list A) :
  sublist l1 l2 -> StronglySorted R l2 -> StronglySorted R l1.
Proof.
  induction 1 as [|x l1 l2 Hsub IH|x l1 l2 Hsub IH]; intros Hs.
  - constructor.
  - apply StronglySorted_cons in Hs as [Hx Hs]. constructor; [auto|].
    rewrite Forall_forall in Hx. apply Forall_forall. intros y Hy.
    apply Hx. eapply elem_of_sublist; eauto.
  - apply StronglySorted_cons in Hs as [_ Hs]. auto.
Qed.

Lemma StronglySorted_rev {A} (R : relation A) (l : list A) :
  StronglySorted R l -> StronglySorted (flip R) (rev l).
Proof.
  induction 1 as [|x l Hs IH Hx]; simpl; [constructor|].
  apply StronglySorted_app_2; [|exact IH|repeat constructor].
  intros y z Hy Hz. apply list_elem_of_In, in_rev in Hy.
  apply list_elem_of_singleton in Hz. subst z.
  rewrite Forall_forall in Hx. apply Hx, list_elem_of_In, Hy.
Qed.

Lemma StronglySorted_lookup {A} (R : relation A) (l : list A) a b x y :
  StronglySorted R l -> a < b -> l !! a = Some x -> l !! b = Some y -> R x y.
Proof.
  intros Hs. revert a b. induction Hs as [|z l Hs IH Hz]; intros a b Hab Ha Hb.
  - rewrite lookup_nil in Ha. discriminate.
  - destruct b as [|b]; [lia|]. simpl in Hb. destruct a as [|a]; simpl in Ha.
    + injection Ha as ->. rewrite Forall_forall in Hz.
      apply Hz. eapply list_elem_of_lookup_2, Hb.
    + apply (IH a b); [lia|assumption..].
Qed.

Lemma slice_from_neg_sublist {A} (k : Z) (l : list A) :
  sublist (slice_from_neg k l) l.
Proof. unfold slice_from_neg. destruct (0 <? k)%Z; apply sublist_drop. Qed.

Lemma slice_from_neg_length {A} (k : Z) (l : list A) :
  (0 < k)%Z -> length (slice_from_neg k l) <= Z.to_nat k.
Proof.
  intros Hk. unfold slice_from_neg.
  apply Z.ltb_lt in Hk as ->. rewrite length_drop. lia.
Qed.

Lemma slice_from_neg_map {A B} (f : A -> B) (k : Z) (l : list A) :
  slice_from_neg k (map f l) = map f (slice_from_neg k l).
Proof.
  unfold slice_from_neg. rewrite length_map.
  destruct (0 <? k)%Z; symmetry; apply (fmap_drop f).
Qed.

Lemma top_indices_ranked scores k :
  LocalVS.top_indices scores k = map fst (top_ranked scores k).
Proof.
  unfold LocalVS.top_indices, top_ranked, argsort, ranked.
  rewrite slice_from_neg_map, map_rev. reflexivity.
Qed.

Lemma top_ranked_sorted scores k :
  StronglySorted (flip lex_lt) (top_ranked scores k).
Proof.
  apply StronglySorted_rev.
  eapply StronglySorted_sublist; [apply slice_from_neg_sublist|].
  apply ranked_sorted.
Qed.

Lemma top_ranked_lookup scores k :
  Forall (fun p => scores !! fst p = Some (snd p)) (top_ranked scores k).
Proof.
  unfold top_ranked. apply Forall_forall. intros p Hp.
  apply list_elem_of_In, in_rev, list_elem_of_In in Hp.
  pose proof (ranked_lookup scores) as H. rewrite Forall_forall in H.
  apply H. eapply elem_of_sublist; [exact Hp|apply slice_from_neg_sublist].
Qed.

Lemma top_ranked_length scores k :
  (0 < k)%Z -> length (top_ranked scores k) <= Z.to_nat k.
Proof.
  intros Hk. unfold top_ranked. rewrite length_rev.
  apply slice_from_neg_length, Hk.
Qed.

Lemma insert_asc_perm x l : insert_asc x l ≡ₚ x :: l.
Proof.
  induction l as [|y l IH]; simpl; [reflexivity|].
  destruct (Qle_bool (snd x) (snd y)); [reflexivity|].
  rewrite IH. apply Permutation_swap.
Qed.

Lemma sort_asc_perm l : sort_asc l ≡ₚ l.
Proof.
  induction l as [|x l IH]; simpl; [reflexivity|].
  rewrite insert_asc_perm, IH. reflexivity.
Qed.

(** ** LocalVectorStore.search *)

Lemma getitem_Some {A} (l : list A) i a :
  l !! i = Some a -> LocalVS.getitem l i = Ok a.
Proof. unfold LocalVS.getitem. intros ->. reflexivity. Qed.

Lemma getitem_None {A} (l : list A) i :
  l !! i = None -> LocalVS.getitem l i = Raise (IndexError "index out of range").
Proof. unfold LocalVS.getitem. intros ->. reflexivity. Qed.

Lemma search_loop_spec config similarities cs ps acc rs :
  Forall (fun p => similarities !! fst p = Some (snd p)) ps ->
  LocalVS.search_loop config similarities cs (map fst ps) acc = Ok rs ->
  exists hs new,
    rs = acc ++ new /\ sublist hs ps /\
    Forall2 (hit_of config similarities cs) hs new.
Proof.
  intros Hps. revert acc.
  induction Hps as [|p ps Hp Hps IH]; intros acc H; simpl in H.
  - injection H as <-. exists [], []. rewrite app_nil_r.
    repeat split; constructor.
  - rewrite (getitem_Some _ _ _ Hp) in H. cbn in H.
    destruct (Qltb (similarity_threshold config) (snd p)) eqn:Ethr.
    + destruct (cs !! fst p) as [c|] eqn:Ec;
        [rewrite (getitem_Some _ _ _ Ec) in H
        |rewrite (getitem_None _ _ Ec) in H]; cbn in H; [|discriminate].
      apply IH in H as (hs & new & -> & Hsub & Hhits).
      exists (p :: hs), (mk_result c (snd p) :: new).
      rewrite <- app_assoc. split; [reflexivity|].
      split; [constructor; exact Hsub|].
      constructor; [|exact Hhits].
      repeat split; simpl; try assumption. apply Qltb_lt, Ethr.
    + apply IH in H as (hs & new & -> & Hsub & Hhits).
      exists hs, new. repeat split; [constructor|]; assumption.
Qed.

Lemma search_hits config cosine st q k rs :
  LocalVS.search config cosine st q k = Ok rs ->
  exists hs : list scored,
    Forall2 (fun p r => result_of cosine st q (fst p) r /\ similarity r = snd p
                        /\ (similarity_threshold config < snd p)%Q) hs rs
    /\ StronglySorted (flip lex_lt) hs
    /\ ((0 < k)%Z -> length hs <= Z.to_nat k)
    /\ (forall E, embeddings st = Some E -> chunks st <> [] ->
        sublist hs (top_ranked (map (cosine q) (rows E)) k)).
Proof.
  unfold LocalVS.search. intros H.
  destruct (embeddings st) as [E|] eqn:HE.
  2:{ injection H as <-. exists []. repeat split; try constructor.
      - simpl; lia.
      - discriminate. }
  destruct (Nat.eqb (length (chunks st)) 0) eqn:Hn.
  { injection H as <-. exists []. repeat split; try constructor.
    - simpl; lia.
    - intros E' _ Hne. apply Nat.eqb_eq in Hn.
      destruct (chunks st); [congruence|discriminate]. }
  unfold LocalVS.cosine_similarity in H.
  destruct (Nat.eqb (nrows E) 0); [discriminate|].
  destruct (negb (Nat.eqb (length q) (width E))); [discriminate|].
  cbn in H. rewrite top_indices_ranked in H.
  apply search_loop_spec in H; [|apply top_ranked_lookup].
  destruct H as (hs & new & -> & Hsub & Hhits). simpl.
  exists hs. split; [|split; [|split]].
  - eapply Forall2_impl; [exact Hhits|].
    intros p r (Hc & Hs & Hl & Ht). repeat split; try assumption.
    unfold score_at. rewrite HE. simpl.
    rewrite list_lookup_fmap in Hl.
    destruct (rows E !! fst p); simpl in *; congruence.
  - eapply StronglySorted_sublist; [exact Hsub|apply top_ranked_sorted].
  - intros Hk. etransitivity; [apply sublist_length, Hsub|].
    apply top_ranked_length, Hk.
  - intros E' [= <-] _. exact Hsub.
Qed.

(** ** LocalVectorStore.search over any [np.argsort] *)

Lemma search_by_argsort config cosine st q k :
  LocalVS.search_by config cosine argsort st q k
  = LocalVS.search config cosine st q k.
Proof. reflexivity. Qed.

Lemma insert_asc_ascending x l :
  StronglySorted snd_le l -> StronglySorted snd_le (insert_asc x l).
Proof.
  induction 1 as [|y l Hs IH Hy]; simpl.
  - repeat constructor.
  - destruct (Qle_bool (snd x) (snd y)) eqn:E.
    + apply Qle_bool_iff in E.
      constructor; [constructor; assumption|].
      constructor; [exact E|].
      eapply Forall_impl; [exact Hy|]. intros z Hz. unfold snd_le in *.
      eapply Qle_trans; eassumption.
    + apply Qle_bool_false in E.
      constructor; [exact IH|].
      apply Forall_insert_asc; [|exact Hy].
      unfold snd_le. apply Qlt_le_weak, E.
Qed.

Lemma sort_asc_ascending l : StronglySorted snd_le (sort_asc l).
Proof.
  induction l as [|x l IH]; simpl; [constructor|].
  apply insert_asc_ascending, IH.
Qed.

Lemma enumerate_from_fst {A} (l : list A) i :
  map fst (enumerate_from i l) = seq i (length l).
Proof.
  revert i. induction l as [|a l IH]; intros i; simpl; [reflexivity|].
  f_equal. apply IH.
Qed.

Lemma enumerate_lookup (scores : list Q) :
  Forall (fun p => scores !! fst p = Some (snd p)) (enumerate scores).
Proof.
  eapply Forall_impl; [apply (enumerate_from_spec scores 0)|].
  intros [j b] [_ H]; simpl in *. replace (j - 0) with j in H by lia. exact H.
Qed.

Lemma sorted_pairs_indices scores (ps : list (nat * Q)) :
  Forall (fun p => scores !! fst p = Some (snd p)) ps ->
  StronglySorted snd_le ps ->
  StronglySorted (score_le scores) (map fst ps).
Proof.
  intros HF Hs. induction Hs as [|p ps Hs IH Hp]; simpl; [constructor|].
  apply Forall_cons in HF as [Hp0 HF].
  constructor; [apply IH, HF|].
  apply Forall_forall. intros i Hi.
  apply list_elem_of_fmap in Hi as (p' & -> & Hp').
  rewrite Forall_forall in Hp, HF.
  exists (snd p), (snd p'). split; [exact Hp0|].
  split; [apply HF, Hp'|apply Hp, Hp'].
Qed.

(** Sorting the enumerated scores, taken in any order, by insertion is an
    [np.argsort] within numpy's contract. *)
Lemma sort_pairs_is_argsort (pairs : list Q -> list (nat * Q)) :
  (forall scores, pairs scores ≡ₚ enumerate scores) ->
  is_argsort (fun scores => map fst (sort_asc (pairs scores))).
Proof.
  intros Hp scores. split.
  - transitivity (map fst (enumerate scores)).
    + apply Permutation_map. rewrite sort_asc_perm. apply Hp.
    + unfold enumerate. rewrite enumerate_from_fst. reflexivity.
  - apply sorted_pairs_indices; [|apply sort_asc_ascending].
    apply sort_asc_Forall. apply Forall_forall. intros p Hin.
    rewrite Hp in Hin.
    pose proof (enumerate_lookup scores) as H. rewrite Forall_forall in H.
    apply H, Hin.
Qed.

Lemma argsort_is_argsort : is_argsort argsort.
Proof. apply (sort_pairs_is_argsort enumerate). reflexivity. Qed.

Lemma argsort_last_first_is_argsort : is_argsort argsort_last_first.
Proof.
  apply (sort_pairs_is_argsort (fun scores => rev (enumerate scores))).
  intros scores. symmetry. apply Permutation_rev.
Qed.

Lemma is_argsort_lt sort scores i :
  is_argsort sort -> i ∈ sort scores -> i < length scores.
Proof.
  intros Hs Hi. destruct (Hs scores) as [Hp _]. rewrite Hp in Hi.
  apply elem_of_seq in Hi. lia.
Qed.

Lemma is_argsort_elem sort scores i :
  is_argsort sort -> i < length scores -> i ∈ sort scores.
Proof.
  intros Hs Hi. destruct (Hs scores) as [Hp _]. rewrite Hp.
  apply elem_of_seq. lia.
Qed.

Lemma is_argsort_length sort scores :
  is_argsort sort -> length (sort scores) = length scores.
Proof.
  intros Hs. destruct (Hs scores) as [Hp _].
  rewrite (Permutation_length Hp). apply length_seq.
Qed.

Lemma top_indices_by_elem sort scores k i :
  i ∈ LocalVS.top_indices_by sort scores k -> i ∈ sort scores.
Proof.
  unfold LocalVS.top_indices_by. intros H.
  apply list_elem_of_In, in_rev, list_elem_of_In in H.
  eapply elem_of_sublist; [exact H|apply slice_from_neg_sublist].
Qed.

Lemma top_indices_by_sorted sort scores k :
  is_argsort sort ->
  StronglySorted (flip (score_le scores)) (LocalVS.top_indices_by sort scores k).
Proof.
  intros Hs. apply StronglySorted_rev.
  eapply StronglySorted_sublist; [apply slice_from_neg_sublist|]. apply Hs.
Qed.

Lemma top_indices_by_length sort scores k :
  (0 < k)%Z -> length (LocalVS.top_indices_by sort scores k) <= Z.to_nat k.
Proof.
  intros Hk. unfold LocalVS.top_indices_by. rewrite length_rev.
  apply slice_from_neg_length, Hk.
Qed.

(** For [k >= 1] the first of the top indices is a position of the highest
    score. *)
Lemma top_indices_by_head sort scores k :
  is_argsort sort -> (0 < k)%Z -> scores <> [] ->
  exists i rest,
    LocalVS.top_indices_by sort scores k = i :: rest
    /\ forall j, j < length scores -> j = i \/ score_le scores j i.
Proof.
  intros Hsort Hk Hne. unfold LocalVS.top_indices_by, slice_from_neg.
  apply Z.ltb_lt in Hk as Hk'. rewrite Hk'.
  pose proof (is_argsort_length sort scores Hsort) as Hlen.
  set (n := length (sort scores) - Z.to_nat k).
  assert (Hn : n < length (sort scores)).
  { unfold n. rewrite Hlen. destruct scores; [congruence|]. simpl. lia. }
  destruct (rev (drop n (sort scores))) as [|i rest] eqn:E.
  { apply (f_equal length) in E. rewrite length_rev, length_drop in E.
    simpl in E. lia. }
  exists i, rest. split; [reflexivity|].
  assert (Hd : drop n (sort scores) = rev rest ++ [i]).
  { rewrite <- (rev_involutive (drop n (sort scores))), E. reflexivity. }
  destruct (Hsort scores) as [_ Hs].
  rewrite <- (take_drop n (sort scores)), Hd, app_assoc in Hs.
  intros j Hj. apply (is_argsort_elem sort scores j Hsort) in Hj.
  rewrite <- (take_drop n (sort scores)), Hd, app_assoc in Hj.
  apply elem_of_app in Hj as [Hj | Hj].
  - right. eapply StronglySorted_app_1_elem_of; [exact Hs|exact Hj|].
    apply list_elem_of_here.
  - left. apply list_elem_of_singleton in Hj. exact Hj.
Qed.

(** The loop of [search] read by stored position: the results are built,
    in order, from the indices whose score is above the threshold, and
    from every one of them. *)
Lemma search_loop_by_index config similarities cs idxs acc rs :
  LocalVS.search_loop config similarities cs idxs acc = Ok rs ->
  exists hs new,
    rs = acc ++ new /\ sublist hs idxs
    /\ Forall2 (fun i r => similarities !! i = Some (similarity r)
                           /\ cs !! i = Some (chunk r)
                           /\ (similarity_threshold config < similarity r)%Q)
         hs new
    /\ (forall i s, i ∈ idxs -> similarities !! i = Some s ->
          (similarity_threshold config < s)%Q -> i ∈ hs).
Proof.
  revert acc. induction idxs as [|i idxs IH]; intros acc H; simpl in H.
  - injection H as <-. exists [], []. rewrite app_nil_r.
    repeat split; try constructor.
    intros i s Hi. apply elem_of_nil in Hi. contradiction.
  - destruct (similarities !! i) as [s|] eqn:Es;
      [rewrite (getitem_Some _ _ _ Es) in H
      |rewrite (getitem_None _ _ Es) in H]; cbn in H; [|discriminate].
    destruct (Qltb (similarity_threshold config) s) eqn:Ethr.
    + destruct (cs !! i) as [c|] eqn:Ec;
        [rewrite (getitem_Some _ _ _ Ec) in H
        |rewrite (getitem_None _ _ Ec) in H]; cbn in H; [|discriminate].
      apply IH in H as (hs & new & -> & Hsub & Hhits & Hall).
      exists (i :: hs), (mk_result c s :: new). rewrite <- app_assoc.
      split; [reflexivity|]. split; [constructor; exact Hsub|]. split.
      * constructor; [|exact Hhits]. simpl.
        repeat split; try assumption. apply Qltb_lt, Ethr.
      * intros i' s' Hi' Hs' Ht'.
        apply elem_of_cons in Hi' as [-> | Hi']; [apply list_elem_of_here|].
        apply list_elem_of_further. eapply Hall; eauto.
    + apply IH in H as (hs & new & -> & Hsub & Hhits & Hall).
      exists hs, new. split; [reflexivity|].
      split; [constructor; exact Hsub|]. split; [exact Hhits|].
      intros i' s' Hi' Hs' Ht'.
      apply elem_of_cons in Hi' as [-> | Hi']; [|eapply Hall; eauto].
      exfalso. rewrite Es in Hs'. injection Hs' as <-.
      apply Qltb_lt in Ht'. congruence.
Qed.

Lemma search_loop_by_index_ok config similarities cs idxs acc :
  Forall (fun i => i < length similarities) idxs ->
  length similarities <= length cs ->
  exists rs, LocalVS.search_loop config similarities cs idxs acc = Ok rs.
Proof.
  intros Hi Hlen. revert acc.
  induction Hi as [|i idxs Hi His IH]; intros acc; simpl.
  - eexists; reflexivity.
  - destruct (lookup_lt_is_Some_2 similarities i Hi) as [s Es].
    rewrite (getitem_Some _ _ _ Es). cbn.
    destruct (Qltb (similarity_threshold config) s); [|apply IH].
    destruct (lookup_lt_is_Some_2 cs i ltac:(lia)) as [c Ec].
    rewrite (getitem_Some _ _ _ Ec). cbn. apply IH.
Qed.

Lemma search_by_nothing_stored config cosine sort st q k :
  embeddings st = None \/ chunks st = [] ->
  LocalVS.search_by config cosine sort st q k = Ok [].
Proof.
  unfold LocalVS.search_by. intros [-> | H]; [reflexivity|].
  rewrite H. destruct (embeddings st); reflexivity.
Qed.

Lemma search_by_unfold config cosine sort st q k E rs :
  embeddings st = Some E -> chunks st <> [] ->
  LocalVS.search_by config cosine sort st q k = Ok rs ->
  LocalVS.search_loop config (map (cosine q) (rows E)) (chunks st)
    (LocalVS.top_indices_by sort (map (cosine q) (rows E)) k) [] = Ok rs.
Proof.
  intros HE Hne H. unfold LocalVS.search_by in H. rewrite HE in H.
  destruct (Nat.eqb (length (chunks st)) 0) eqn:Hn.
  { apply Nat.eqb_eq in Hn. destruct (chunks st); [congruence|discriminate]. }
  unfold LocalVS.cosine_similarity in H.
  destruct (Nat.eqb (nrows E) 0); [discriminate|].
  destruct (negb (Nat.eqb (length q) (width E))); [discriminate|].
  exact H.
Qed.

Lemma score_at_lookup cosine st q E i :
  embeddings st = Some E ->
  score_at cosine st q i = map (cosine q) (rows E) !! i.
Proof.
  intros HE. unfold score_at. rewrite HE. simpl.
  change (map (cosine q) (rows E)) with (cosine q <$> rows E).
  rewrite list_lookup_fmap. destruct (rows E !! i); reflexivity.
Qed.

Lemma non_increasing_nil : non_increasing [].
Proof. intros a b ra rb _ Ha. rewrite lookup_nil in Ha. discriminate. Qed.

Lemma search_by_hits config cosine sort st q k rs :
  is_argsort sort ->
  LocalVS.search_by config cosine sort st q k = Ok rs ->
  exists hits : list nat,
    Forall2 (result_of cosine st q) hits rs
    /\ Forall (above_threshold config) rs
    /\ ((0 < k)%Z -> length rs <= Z.to_nat k)
    /\ non_increasing rs.
Proof.
  intros Hsort H.
  destruct (embeddings st) as [E|] eqn:HE.
  2:{ rewrite search_by_nothing_stored in H by (left; exact HE).
      injection H as <-. exists [].
      repeat split; try constructor; [simpl; lia|apply non_increasing_nil]. }
  destruct (Nat.eq_dec (length (chunks st)) 0) as [Hz | Hnz].
  { apply nil_length_inv in Hz.
    rewrite search_by_nothing_stored in H by (right; exact Hz).
    injection H as <-. exists [].
    repeat split; try constructor; [simpl; lia|apply non_increasing_nil]. }
  apply (search_by_unfold _ _ _ _ _ _ E) in H; [|exact HE|].
  2:{ intros Hnil. rewrite Hnil in Hnz. apply Hnz. reflexivity. }
  set (sims := map (cosine q) (rows E)) in *.
  apply search_loop_by_index in H as (hs & new & -> & Hsub & Hhits & _).
  simpl. exists hs. split; [|split; [|split]].
  - eapply Forall2_impl; [exact Hhits|]. intros i r (Hs & Hc & _).
    split; [exact Hc|]. rewrite (score_at_lookup _ _ _ E) by exact HE.
    exact Hs.
  - clear -Hhits.
    induction Hhits as [|i r hs new (_ & _ & Ht) _ IH]; constructor;
      [exact Ht|exact IH].
  - intros Hk. rewrite <- (Forall2_length _ _ _ Hhits).
    etransitivity; [apply sublist_length, Hsub|].
    apply top_indices_by_length, Hk.
  - intros a b ra rb Hab Ha Hb.
    destruct (Forall2_lookup_r _ _ _ _ _ Hhits Ha) as (ia & Hia & Hsa & _).
    destruct (Forall2_lookup_r _ _ _ _ _ Hhits Hb) as (ib & Hib & Hsb & _).
    assert (Hs : StronglySorted (flip (score_le sims)) hs).
    { eapply StronglySorted_sublist; [exact Hsub|].
      apply top_indices_by_sorted, Hsort. }
    destruct (StronglySorted_lookup _ _ _ _ _ _ Hs Hab Hia Hib)
      as (x & y & Hx & Hy & Hle).
    assert (x = similarity rb) by congruence.
    assert (y = similarity ra) by congruence.
    subst. exact Hle.
Qed.

Lemma search_by_returns config cosine sort st q k :
  is_argsort sort -> aligned st -> same_dimension st q ->
  exists rs, LocalVS.search_by config cosine sort st q k = Ok rs.
Proof.
  unfold aligned, same_dimension, LocalVS.search_by. intros Hsort Ha Hd.
  destruct (embeddings st) as [E|]; [|eexists; reflexivity]. simpl in Ha.
  destruct (Nat.eqb (length (chunks st)) 0) eqn:Hn; [eexists; reflexivity|].
  unfold LocalVS.cosine_similarity. rewrite <- Ha, Hn, Hd, Nat.eqb_refl. cbn.
  apply search_loop_by_index_ok.
  - apply Forall_forall. intros i Hi.
    eapply is_argsort_lt; [exact Hsort|]. eapply top_indices_by_elem, Hi.
  - rewrite length_map. unfold nrows in Ha. lia.
Qed.

Lemma slice_from_neg_all {A} (k : Z) (l : list A) :
  keeps_all k (length l) -> slice_from_neg k l = l.
Proof.
  unfold keeps_all, slice_from_neg. intros [-> | Hk]; [reflexivity|].
  destruct (0 <? k)%Z eqn:E.
  - replace (length l - Z.to_nat k) with 0 by lia. reflexivity.
  - apply Z.ltb_ge in E. replace (Z.to_nat (- k)) with 0 by lia. reflexivity.
Qed.

(** When the slice keeps every index, every row above the threshold is
    among the results. *)
Lemma search_by_complete config cosine sort st q k rs E i v :
  is_argsort sort ->
  LocalVS.search_by config cosine sort st q k = Ok rs ->
  embeddings st = Some E -> chunks st <> [] ->
  keeps_all k (nrows E) ->
  rows E !! i = Some v ->
  (similarity_threshold config < cosine q v)%Q ->
  exists r, r ∈ rs /\ chunks st !! i = Some (chunk r)
            /\ similarity r = cosine q v.
Proof.
  intros Hsort H HE Hne Hk Hv Hthr.
  apply (search_by_unfold _ _ _ _ _ _ E) in H; [|exact HE|exact Hne].
  set (sims := map (cosine q) (rows E)) in *.
  assert (Hsims : sims !! i = Some (cosine q v)).
  { unfold sims. change (map (cosine q) (rows E)) with (cosine q <$> rows E).
    rewrite list_lookup_fmap, Hv. reflexivity. }
  assert (Hin : i ∈ LocalVS.top_indices_by sort sims k).
  { unfold LocalVS.top_indices_by. rewrite slice_from_neg_all.
    - apply list_elem_of_In, in_rev. rewrite rev_involutive.
      apply list_elem_of_In, is_argsort_elem; [exact Hsort|].
      eapply lookup_lt_Some, Hsims.
    - rewrite is_argsort_length by exact Hsort.
      unfold sims. rewrite length_map. exact Hk. }
  apply search_loop_by_index in H as (hs & new & -> & _ & Hhits & Hall).
  specialize (Hall i _ Hin Hsims Hthr).
  apply list_elem_of_lookup_1 in Hall as [a Ha].
  destruct (Forall2_lookup_l _ _ _ _ _ Hhits Ha) as (r & Hr & Hs & Hc & _).
  exists r. split; [eapply list_elem_of_lookup_2, Hr|].
  split; [exact Hc|]. congruence.
Qed.

(** C1 (amended): whatever order [np.argsort] leaves equal scores in,
    [LocalVectorStore.search] returns, for [k >= 1], at most [k] results,
    each the chunk of a stored position with the similarity of the row at
    that position, in order of non-increasing similarity.  On an aligned
    store and a query of the stored dimension it does return.  The order
    of results of equal similarity is not fixed: it is the reverse of the
    order [np.argsort] leaves them in. *)
Theorem search_ranked_descending config cosine sort st q k :
  is_argsort sort ->
  (aligned st -> same_dimension st q ->
   exists rs, LocalVS.search_by config cosine sort st q k = Ok rs)
  /\ forall rs, LocalVS.search_by config cosine sort st q k = Ok rs ->
     exists hits : list nat,
       Forall2 (result_of cosine st q) hits rs
       /\ ((0 < k)%Z -> length rs <= Z.to_nat k)
       /\ non_increasing rs.
Proof.
  intros Hsort. split; [apply search_by_returns, Hsort|].
  intros rs H.
  apply search_by_hits in H as (hits & HF & _ & Hlen & Hdesc); [|exact Hsort].
  exists hits. repeat split; assumption.
Qed.

Lemma search_ranked_descending_witness :
  exists rs,
    LocalVS.search_by Reference.config Reference.cosine argsort
      Reference.store_ab [1; 0]%Q 3 = Ok rs
    /\ length rs <= 3 /\ non_increasing rs.
Proof.
  destruct (search_ranked_descending Reference.config Reference.cosine
              argsort Reference.store_ab [1; 0]%Q 3 argsort_is_argsort)
    as [Hret Hprop].
  destruct Hret as [rs Hrs]; [reflexivity | reflexivity |].
  exists rs. split; [exact Hrs|].
  destruct (Hprop rs Hrs) as (hits & _ & Hlen & Hdesc).
  split; [apply Hlen; reflexivity | exact Hdesc].
Defined.

Lemma store_ab_search :
  LocalVS.search Reference.config Reference.cosine Reference.store_ab
    [1; 0]%Q 3
  = Ok [mk_result Reference.chunk_b 1; mk_result Reference.chunk_a 1;
        mk_result Reference.chunk_c (3 # 5)].
Proof. vm_compute. reflexivity. Qed.

(** The same search over an [np.argsort] that leaves equal scores in the
    other order: [a.txt] and [b.txt] change places. *)
Lemma store_ab_search_last_first :
  LocalVS.search_by Reference.config Reference.cosine argsort_last_first
    Reference.store_ab [1; 0]%Q 3
  = Ok [mk_result Reference.chunk_a 1; mk_result Reference.chunk_b 1;
        mk_result Reference.chunk_c (3 # 5)].
Proof. vm_compute. reflexivity. Qed.

(** C1, as stated, fails on the store of [a.txt], [b.txt] and [c.txt].
    With [k = 0] the slice [[-0:]] keeps every index, and the search
    returns the chunk of every row above the threshold, not at most [0]
    results, whatever order [np.argsort] leaves equal scores in.  With
    [k = 3], insertion order of equal similarities does not follow from
    what numpy promises of [np.argsort]: under a stable [np.argsort] the
    reversal [[::-1]] returns [b.txt], stored second, before [a.txt]. *)
Lemma search_order_not_as_stated :
  (~ exists sort,
       is_argsort sort
       /\ ranked_with_insertion_order_ties Reference.config Reference.cosine
            sort Reference.store_ab [1; 0]%Q 0)
  /\ ~ (forall sort, is_argsort sort ->
          ranked_with_insertion_order_ties Reference.config Reference.cosine
            sort Reference.store_ab [1; 0]%Q 3).
Proof.
  split.
  - intros (sort & Hsort & H).
    destruct (search_by_returns Reference.config Reference.cosine sort
                Reference.store_ab [1; 0]%Q 0 Hsort) as [rs Hrs];
      [reflexivity | reflexivity |].
    destruct (H rs Hrs) as (hits & _ & Hlen & _).
    destruct (search_by_complete Reference.config Reference.cosine sort
                Reference.store_ab [1; 0]%Q 0 rs
                (mk_ndarray 2 [[1; 0]; [1; 0]; [3 # 5; 4 # 5]]%Q) 0 [1; 0]%Q
                Hsort Hrs) as (r & Hr & _);
      [reflexivity | discriminate | left; reflexivity | reflexivity
      | reflexivity |].
    destruct rs; [apply elem_of_nil in Hr; contradiction|].
    simpl in Hlen. lia.
  - intros H. specialize (H argsort argsort_is_argsort).
    destruct (H _ store_ab_search) as (hits & HF & _ & _ & Hties).
    inversion HF as [|i0 r0 hits' rs' [H0 _] HF']; subst.
    inversion HF' as [|i1 r1 hits'' rs'' [H1 _] _]; subst.
    assert (i0 = 1).
    { destruct i0 as [|[|[|i0]]]; simpl in H0; try reflexivity; discriminate. }
    assert (i1 = 0).
    { destruct i1 as [|[|[|i1]]]; simpl in H1; try reflexivity; discriminate. }
    subst.
    specialize (Hties 0 1 1 0 _ _ ltac:(lia) eq_refl eq_refl eq_refl eq_refl).
    simpl in Hties. specialize (Hties ltac:(reflexivity)). lia.
Qed.

(** [k = 0]: the slice [[-0:]] keeps every index, so the search returns
    every row above the threshold. *)
Example search_k_zero_keeps_every_index :
  LocalVS.search Reference.config Reference.cosine Reference.store_ab
    [1; 0]%Q 0
  = LocalVS.search Reference.config Reference.cosine Reference.store_ab
      [1; 0]%Q 3.
Proof. vm_compute. reflexivity. Qed.

(** ** The similarity threshold *)

Lemma pinecone_search_loop_threshold config matches acc rs :
  PineconeVS.search_loop config matches acc = Ok rs ->
  Forall (above_threshold config) acc ->
  Forall (above_threshold config) rs.
Proof.
  revert acc. induction matches as [|m ms IH]; intros acc H Hacc; simpl in H.
  - injection H as <-. exact Hacc.
  - destruct (Qltb (similarity_threshold config) (m_score m)) eqn:Ethr;
      [|eapply IH; eauto].
    destruct (PineconeVS.match_metadata m) as [md|e]; cbn in H; [|discriminate].
    eapply IH; [exact H|]. apply Forall_app. split; [exact Hacc|].
    repeat constructor. apply Qltb_lt, Ethr.
Qed.

(** C2: no result of [search], of the local store or of the hosted one, has
    a similarity at or below [config.similarity_threshold]. *)
Theorem search_above_threshold config cosine index_query st q k :
  (forall rs, LocalVS.search config cosine st q k = Ok rs ->
              Forall (above_threshold config) rs)
  /\ Forall (above_threshold config) (PineconeVS.search config index_query q k).
Proof.
  split.
  - intros rs H. apply search_hits in H as (hs & HF & _).
    apply Forall_forall. intros r Hr.
    apply list_elem_of_lookup in Hr as [i Hi].
    destruct (Forall2_lookup_r _ _ _ _ _ HF Hi) as (p & _ & _ & Hs & Ht).
    unfold above_threshold. rewrite Hs. exact Ht.
  - unfold PineconeVS.search, PineconeVS.search_body.
    destruct (index_query q k) as [ms|e]; cbn; [|constructor].
    destruct (PineconeVS.search_loop config ms []) as [rs|e] eqn:E; [|constructor].
    eapply pinecone_search_loop_threshold; [exact E|constructor].
Qed.

Lemma search_above_threshold_witness :
  Forall (above_threshold Reference.config)
    (PineconeVS.search Reference.config Reference.index_query [1; 0]%Q 3)
  /\ exists rs,
       LocalVS.search Reference.config Reference.cosine Reference.store_ab
         [1; 0]%Q 3 = Ok rs
       /\ Forall (above_threshold Reference.config) rs.
Proof.
  destruct (search_above_threshold Reference.config Reference.cosine
              Reference.index_query Reference.store_ab [1; 0]%Q 3) as [Hl Hh].
  split; [exact Hh|]. eexists. split; [apply store_ab_search|].
  apply Hl, store_ab_search.
Defined.

(** ** RAGSystem.query *)

Lemma vs_search_run config sv q k w :
  RAG.vs_search config sv q k w = (store_search config sv (vector_store w) q k, w).
Proof.
  unfold RAG.vs_search, store_search. run_M.
  destruct (vector_store w); reflexivity.
Qed.

Lemma call_encode_run sv texts w :
  RAG.call_encode sv texts w = (encode sv texts, log_event (EvEncode texts) w).
Proof.
  unfold RAG.call_encode. run_M. reflexivity.
Qed.

Lemma call_generate_content_run sv prompt w :
  RAG.call_generate_content sv prompt w
  = (generate_content sv prompt, log_event (EvGenerate prompt) w).
Proof.
  unfold RAG.call_generate_content. run_M. reflexivity.
Qed.

(** The [try] body of [query] up to the search. *)
Lemma query_body_no_results config sv question w E qe :
  encode sv [question] = Ok E ->
  rows E !! 0 = Some qe ->
  store_search config sv (vector_store w) qe (max_results config) = Ok [] ->
  RAG.query_body config sv question w
  = (Ok RAG._generate_no_context_response, log_event (EvEncode [question]) w).
Proof.
  intros HE Hq Hs. unfold RAG.query_body.
  unfold mbind at 1. unfold M_bind. rewrite call_encode_run, HE.
  unfold mbind at 1. unfold M_bind. unfold lift at 1.
  rewrite (getitem_Some _ _ _ Hq).
  unfold mbind at 1. unfold M_bind. rewrite vs_search_run. simpl vector_store.
  rewrite Hs. reflexivity.
Qed.

(** C4: when the search returns no result, [query] answers with the fixed
    text of [_generate_no_context_response]; the only call it makes to a
    collaborator is the embedding of the question, the generator is not
    called. *)
Theorem query_without_results_skips_generator config sv question w E qe :
  encode sv [question] = Ok E ->
  rows E !! 0 = Some qe ->
  store_search config sv (vector_store w) qe (max_results config) = Ok [] ->
  exists w',
    RAG.query config sv question w = (Ok RAG._generate_no_context_response, w')
    /\ trace w' = trace w ++ [EvEncode [question]]
    /\ (forall prompt, EvGenerate prompt ∈ trace w' -> EvGenerate prompt ∈ trace w).
Proof.
  intros HE Hq Hs. exists (log_event (EvEncode [question]) w).
  unfold RAG.query, try_except.
  rewrite (query_body_no_results _ _ _ _ _ _ HE Hq Hs).
  split; [reflexivity|]. split; [reflexivity|].
  intros prompt. simpl. rewrite elem_of_app, list_elem_of_singleton.
  intros [H | H]; [exact H | discriminate].
Qed.

Lemma query_without_results_skips_generator_witness :
  exists w',
    RAG.query Reference.config Reference.services "Where is the library?"
      Reference.world_local
    = (Ok RAG._generate_no_context_response, w')
    /\ trace w' = [EvEncode ["Where is the library?"]].
Proof.
  destruct (query_without_results_skips_generator Reference.config
              Reference.services "Where is the library?" Reference.world_local
              (mk_ndarray 2 [[0; 1]%Q]) [0; 1]%Q)
    as (w' & Hq & Ht & _); [reflexivity | reflexivity | vm_compute; reflexivity |].
  exists w'. split; [exact Hq | exact Ht].
Defined.

Lemma query_body_encode_raises config sv question w e :
  encode sv [question] = Raise e ->
  fst (RAG.query_body config sv question w) = Raise e.
Proof.
  intros HE. unfold RAG.query_body.
  unfold mbind at 1. unfold M_bind. rewrite call_encode_run, HE. reflexivity.
Qed.

Lemma query_body_search_raises config sv question w E qe e :
  encode sv [question] = Ok E ->
  rows E !! 0 = Some qe ->
  store_search config sv (vector_store w) qe (max_results config) = Raise e ->
  fst (RAG.query_body config sv question w) = Raise e.
Proof.
  intros HE Hq Hs. unfold RAG.query_body.
  unfold mbind at 1. unfold M_bind. rewrite call_encode_run, HE.
  unfold mbind at 1. unfold M_bind. unfold lift at 1.
  rewrite (getitem_Some _ _ _ Hq).
  unfold mbind at 1. unfold M_bind. rewrite vs_search_run. simpl vector_store.
  rewrite Hs. reflexivity.
Qed.

Lemma query_body_generate_raises config sv question w E qe r rs e :
  encode sv [question] = Ok E ->
  rows E !! 0 = Some qe ->
  store_search config sv (vector_store w) qe (max_results config) = Ok (r :: rs) ->
  generate_content sv (prompt_for question (r :: rs)) = Raise e ->
  fst (RAG.query_body config sv question w) = Raise e.
Proof.
  intros HE Hq Hs Hg. unfold RAG.query_body.
  unfold mbind at 1. unfold M_bind. rewrite call_encode_run, HE.
  unfold mbind at 1. unfold M_bind. unfold lift at 1.
  rewrite (getitem_Some _ _ _ Hq).
  unfold mbind at 1. unfold M_bind. rewrite vs_search_run. simpl vector_store.
  rewrite Hs. cbv beta iota.
  unfold mbind at 1. unfold M_bind. rewrite call_generate_content_run.
  unfold prompt_for in Hg. rewrite Hg. reflexivity.
Qed.

(** C5: [query] returns a string for every question, every state and every
    behaviour of the collaborators.  When its [try] body raises [e], whether
    from the embedding, from the search or from the generator, the string is
    the error text followed by [str(e)]. *)
Theorem query_never_raises config sv question w :
  exists answer w',
    RAG.query config sv question w = (Ok answer, w')
    /\ (forall e, fst (RAG.query_body config sv question w) = Raise e ->
        answer = (RAG.error_prefix ++ str e)%string)
    /\ (forall e, encode sv [question] = Raise e ->
        answer = (RAG.error_prefix ++ str e)%string)
    /\ (forall E qe e,
        encode sv [question] = Ok E -> rows E !! 0 = Some qe ->
        store_search config sv (vector_store w) qe (max_results config) = Raise e ->
        answer = (RAG.error_prefix ++ str e)%string)
    /\ (forall E qe r rs e,
        encode sv [question] = Ok E -> rows E !! 0 = Some qe ->
        store_search config sv (vector_store w) qe (max_results config)
          = Ok (r :: rs) ->
        generate_content sv (prompt_for question (r :: rs)) = Raise e ->
        answer = (RAG.error_prefix ++ str e)%string).
Proof.
  assert (Hmain : exists answer w',
    RAG.query config sv question w = (Ok answer, w')
    /\ (forall e, fst (RAG.query_body config sv question w) = Raise e ->
        answer = (RAG.error_prefix ++ str e)%string)).
  { unfold RAG.query, try_except.
    destruct (RAG.query_body config sv question w) as [[answer | e] w'] eqn:E.
    - exists answer, w'. split; [reflexivity|]. simpl. discriminate.
    - exists (RAG.error_prefix ++ str e)%string, w'. split; [reflexivity|].
      simpl. intros e' [= <-]. reflexivity. }
  destruct Hmain as (answer & w' & Hq & Hbody).
  exists answer, w'. split; [exact Hq|]. split; [exact Hbody|].
  split; [|split].
  - intros e HE. apply Hbody. apply query_body_encode_raises, HE.
  - intros E qe e HE Hqe Hs. apply Hbody.
    eapply query_body_search_raises; eauto.
  - intros E qe r rs e HE Hqe Hs Hg. apply Hbody.
    eapply query_body_generate_raises; eauto.
Qed.

Lemma query_never_raises_witness :
  fst (RAG.query Reference.config
         (Reference.build (fun _ => Written) Reference.index_query
            Reference.directory Reference.generate_content_down)
         "CSCE 629 prerequisites?" Reference.world_local)
  = Ok "I encountered an error while processing your question: 429 Resource has been exhausted".
Proof.
  destruct (query_never_raises Reference.config
              (Reference.build (fun _ => Written) Reference.index_query
                 Reference.directory Reference.generate_content_down)
              "CSCE 629 prerequisites?" Reference.world_local)
    as (answer & w' & Hq & _ & _ & _ & Hgen).
  rewrite Hq. simpl. f_equal.
  apply (Hgen (mk_ndarray 2 [[1; 0]%Q]) [1; 0]%Q
           (mk_result Reference.chunk_a 1) []
           (RuntimeError "429 Resource has been exhausted"));
    reflexivity.
Defined.

(** ** PineconeVectorStore.search when the remote call fails *)

Lemma pinecone_search_raise config iq q k e :
  iq q k = Raise e -> PineconeVS.search config iq q k = [].
Proof.
  intros H. unfold PineconeVS.search, PineconeVS.search_body.
  rewrite H. reflexivity.
Qed.

(** C10: when the remote query raises, [PineconeVectorStore.search] returns
    the empty list; [query] then gives the "no information" answer, makes no
    call to the generator, and behaves exactly as it does when the remote
    index answers with no match at all. *)
Theorem hosted_search_failure_reads_as_no_results
    config sv question w pc E qe e :
  vector_store w = Pinecone pc ->
  encode sv [question] = Ok E ->
  rows E !! 0 = Some qe ->
  index_query sv qe (max_results config) = Raise e ->
  PineconeVS.search config (index_query sv) qe (max_results config) = []
  /\ RAG.query config sv question w
     = (Ok RAG._generate_no_context_response, log_event (EvEncode [question]) w)
  /\ RAG.query config sv question w
     = RAG.query config (with_index_query sv (fun _ _ => Ok [])) question w.
Proof.
  intros Hvs HE Hq Hraise.
  pose proof (pinecone_search_raise config _ _ _ _ Hraise) as Hsearch.
  split; [exact Hsearch|].
  assert (H1 : RAG.query config sv question w
     = (Ok RAG._generate_no_context_response, log_event (EvEncode [question]) w)).
  { unfold RAG.query, try_except.
    rewrite (query_body_no_results config sv question w E qe HE Hq);
      [reflexivity|].
    rewrite Hvs. simpl. rewrite Hsearch. reflexivity. }
  split; [exact H1|]. rewrite H1.
  unfold RAG.query, try_except.
  rewrite (query_body_no_results config _ question w E qe); try assumption.
  - reflexivity.
  - rewrite Hvs. reflexivity.
Qed.

Lemma hosted_search_failure_reads_as_no_results_witness :
  fst (RAG.query Reference.config
         (Reference.build (fun _ => Written) Reference.index_query_down
            Reference.directory Reference.generate_content)
         "CSCE 629 prerequisites?" Reference.world_hosted)
  = Ok RAG._generate_no_context_response.
Proof.
  destruct (hosted_search_failure_reads_as_no_results Reference.config
              (Reference.build (fun _ => Written) Reference.index_query_down
                 Reference.directory Reference.generate_content)
              "CSCE 629 prerequisites?" Reference.world_hosted
              (mk_pinecone "aggie-courses") (mk_ndarray 2 [[1; 0]%Q]) [1; 0]%Q
              (RuntimeError "connection refused"))
    as (_ & Hq & _); [reflexivity | reflexivity | reflexivity | reflexivity |].
  rewrite Hq. reflexivity.
Defined.

(** ** RAGSystem.index_documents *)

Lemma already_indexed_local force st :
  RAG.already_indexed force (Local st) = negb force && negb (Nat.eqb (length (chunks st)) 0).
Proof.
  unfold RAG.already_indexed. destruct (chunks st); reflexivity.
Qed.

(** C6: [index_documents(force_reindex=False)] on a local store that holds
    at least one chunk returns at once and leaves everything as it was: the
    store, the snapshot file and the trace (no load, no embedding, no add).
    Calling it twice changes nothing either. *)
Theorem index_documents_already_indexed config sv w st :
  vector_store w = Local st ->
  chunks st <> [] ->
  RAG.index_documents config sv false w = (Ok tt, w)
  /\ (RAG.index_documents config sv false ≫= fun _ =>
      RAG.index_documents config sv false) w = (Ok tt, w).
Proof.
  intros Hvs Hne.
  assert (H : RAG.index_documents config sv false w = (Ok tt, w)).
  { unfold RAG.index_documents. run_M. rewrite Hvs. simpl.
    destruct (chunks st); [congruence|reflexivity]. }
  split; [exact H|].
  unfold mbind at 1. unfold M_bind. rewrite H. exact H.
Qed.

Lemma index_documents_already_indexed_witness :
  RAG.index_documents Reference.config Reference.services false
    Reference.world_local
  = (Ok tt, Reference.world_local).
Proof.
  destruct (index_documents_already_indexed Reference.config
              Reference.services Reference.world_local Reference.store_a)
    as [H _]; [reflexivity | discriminate | exact H].
Defined.

Lemma call_load_documents_run config sv w :
  RAG.call_load_documents config sv w
  = (Ok (Processor.load_documents (split_text sv) (md5_hexdigest sv) (directory sv)),
     log_event (EvLoadDocuments (data_dir config)) w).
Proof. unfold RAG.call_load_documents. run_M. reflexivity. Qed.

(** C7: when [index_documents] gets to load the data directory and the
    load yields no chunk, it raises [ValueError]; the store, the snapshot
    file and the hosted index are as before, and no embedding was asked
    for. *)
Theorem index_documents_empty_corpus config sv force w :
  RAG.already_indexed force (vector_store w) = false ->
  Processor.load_documents (split_text sv) (md5_hexdigest sv) (directory sv) = [] ->
  exists w',
    RAG.index_documents config sv force w
    = (Raise (ValueError ("No documents found in " ++ data_dir config)), w')
    /\ vector_store w' = vector_store w
    /\ disk w' = disk w
    /\ upserted w' = upserted w
    /\ trace w' = trace w ++ [EvLoadDocuments (data_dir config)].
Proof.
  intros Hidx Hload. exists (log_event (EvLoadDocuments (data_dir config)) w).
  split; [|repeat split].
  unfold RAG.index_documents.
  unfold mbind at 1. unfold M_bind. unfold get_world at 1. cbv beta iota.
  rewrite Hidx.
  unfold mbind at 1. unfold M_bind. rewrite call_load_documents_run, Hload.
  reflexivity.
Qed.

Lemma index_documents_empty_corpus_witness :
  fst (RAG.index_documents Reference.config
         (Reference.build (fun _ => Written) Reference.index_query
            Reference.empty_directory Reference.generate_content)
         true Reference.world_local)
  = Raise (ValueError "No documents found in data").
Proof.
  destruct (index_documents_empty_corpus Reference.config
              (Reference.build (fun _ => Written) Reference.index_query
                 Reference.empty_directory Reference.generate_content)
              true Reference.world_local)
    as (w' & H & _); [reflexivity | reflexivity |].
  rewrite H. reflexivity.
Defined.

(** ** DocumentProcessor._chunk_document *)

Lemma rstrip_not_whitespace_only s :
  rstrip s <> EmptyString -> whitespace_only (rstrip s) = false.
Proof.
  induction s as [|c s IH]; simpl; [congruence|].
  destruct (rstrip s) as [|c' t] eqn:E.
  - destruct (is_space c) eqn:Ec; [congruence|]. simpl. rewrite Ec. reflexivity.
  - intros _. simpl. simpl in IH. rewrite IH; [|discriminate].
    apply andb_false_r.
Qed.

Lemma strip_truthy_not_whitespace_only s :
  truthy (strip s) = true -> whitespace_only (strip s) = false.
Proof.
  unfold strip. intros H. apply rstrip_not_whitespace_only.
  intros E. rewrite E in H. discriminate.
Qed.

Lemma lstrip_whitespace_only s : whitespace_only s = true -> lstrip s = EmptyString.
Proof.
  induction s as [|c s IH]; simpl; [reflexivity|].
  destruct (is_space c); simpl; [exact IH | discriminate].
Qed.

Lemma strip_whitespace_only s : whitespace_only s = true -> strip s = EmptyString.
Proof. intros H. unfold strip. rewrite lstrip_whitespace_only; auto. Qed.

Lemma chunk_loop_spec md5_hexdigest source items acc :
  Processor.chunk_loop md5_hexdigest source items acc
  = acc ++ omap (chunk_of md5_hexdigest source) items.
Proof.
  revert acc. induction items as [|[i t] items IH]; intros acc; simpl.
  - rewrite app_nil_r. reflexivity.
  - unfold chunk_of at 1. simpl.
    destruct (truthy (strip t)); rewrite IH; [|reflexivity].
    rewrite <- app_assoc. reflexivity.
Qed.

Lemma enumerate_elem_of {A} (l : list A) (p : nat * A) :
  p ∈ enumerate l -> l !! fst p = Some (snd p).
Proof.
  intros Hp. pose proof (enumerate_from_spec l 0) as H.
  rewrite Forall_forall in H. destruct (H p Hp) as [_ Hl].
  replace (fst p - 0) with (fst p) in Hl by lia. exact Hl.
Qed.

Example chunk_document_example :
  Processor._chunk_document Reference.split_text Reference.md5_hexdigest
    "  CSCE 629 requires CSCE 221 " "a.txt"
  = [mk_chunk "CSCE 629 requires CSCE 221" "a.txt" "a.txt_0_0f3c9a1b" None].
Proof. vm_compute. reflexivity. Qed.

(** C8: every chunk of [_chunk_document] comes from a piece [t] of the
    splitter at a position [i]; its [chunk_id] is
    [source_i_<first 8 hex digits of md5(t)>], its content is [t] stripped,
    and that content is neither empty nor white space only.  Pieces that
    strip to nothing give no chunk (possibly no chunk at all), and a second
    run whose splitter yields the same pieces gives the same chunks, hence
    the same [chunk_id]s. *)
Theorem chunk_document_ids_and_content split_text md5_hexdigest text src :
  Forall (fun c =>
            (exists i t, split_text text !! i = Some t
               /\ chunk_id c = (src ++ "_" ++ pretty i ++ "_"
                                  ++ str_take 8 (md5_hexdigest t))%string
               /\ content c = strip t
               /\ source c = src)
            /\ content c <> EmptyString
            /\ whitespace_only (content c) = false)
         (Processor._chunk_document split_text md5_hexdigest text src)
  /\ (Forall (fun t => whitespace_only t = true) (split_text text) ->
      Processor._chunk_document split_text md5_hexdigest text src = [])
  /\ (forall split_text', split_text' text = split_text text ->
      map chunk_id (Processor._chunk_document split_text' md5_hexdigest text src)
      = map chunk_id (Processor._chunk_document split_text md5_hexdigest text src)).
Proof.
  unfold Processor._chunk_document. split; [|split].
  - rewrite chunk_loop_spec. simpl. apply Forall_forall. intros c Hc.
    apply list_elem_of_omap in Hc as ([i t] & Hp & Hc).
    apply enumerate_elem_of in Hp. simpl in Hp.
    unfold chunk_of in Hc. simpl in Hc.
    destruct (truthy (strip t)) eqn:Et; [|discriminate].
    injection Hc as <-. simpl. split; [|split].
    + exists i, t. repeat split. exact Hp.
    + intros E. rewrite E in Et. discriminate.
    + apply strip_truthy_not_whitespace_only, Et.
  - intros Hblank. rewrite chunk_loop_spec. simpl.
    assert (H : Forall (fun p => whitespace_only (snd p) = true)
                  (enumerate (split_text text))).
    { apply Forall_forall. intros p Hp. apply enumerate_elem_of in Hp.
      rewrite Forall_forall in Hblank. apply Hblank.
      eapply list_elem_of_lookup_2, Hp. }
    induction H as [|p ps Hp _ IH]; simpl; [reflexivity|].
    unfold chunk_of at 1. rewrite (strip_whitespace_only _ Hp). simpl. exact IH.
  - intros split_text' ->. reflexivity.
Qed.

Lemma chunk_document_ids_and_content_witness :
  Processor._chunk_document Reference.split_text Reference.md5_hexdigest
    "   " "blank.txt" = [].
Proof.
  destruct (chunk_document_ids_and_content Reference.split_text
              Reference.md5_hexdigest "   " "blank.txt") as (_ & H & _).
  apply H. repeat constructor.
Defined.

(** ** LocalVectorStore.add_documents *)

Lemma aligned_rows st : aligned st <-> length (chunks st) = length (stored_rows st).
Proof. unfold aligned, stored_rows, nrows. destruct (embeddings st); reflexivity. Qed.

Lemma add_documents_run write_outcome st d cs E :
  compatible st E ->
  exists st',
    LocalVS.add_documents write_outcome st d cs E
    = (Ok tt, st', LocalVS._save_cache write_outcome st' d)
    /\ chunks st' = chunks st ++ cs
    /\ stored_rows st' = stored_rows st ++ rows E
    /\ (exists E', embeddings st' = Some E' /\ width E' = width E).
Proof.
  unfold compatible, LocalVS.add_documents, stored_rows. intros Hc.
  destruct (embeddings st) as [E0|].
  - unfold vstack. rewrite Hc, Nat.eqb_refl.
    eexists. split; [reflexivity|]. simpl. repeat split. eauto.
  - eexists. split; [reflexivity|]. simpl. repeat split. eauto.
Qed.

Lemma add_documents_spec write_outcome st d cs E :
  aligned st -> compatible st E -> length cs = nrows E ->
  exists st' d',
    LocalVS.add_documents write_outcome st d cs E = (Ok tt, st', d')
    /\ chunks st' = chunks st ++ cs
    /\ stored_rows st' = stored_rows st ++ rows E
    /\ aligned st'
    /\ d' = match write_outcome (snapshot_of st') with
            | Written => CacheFile (snapshot_of st')
            | FailedBeforeOpen _ => d
            | FailedDuringDump _ => Truncated
            end.
Proof.
  intros Ha Hc Hn.
  destruct (add_documents_run write_outcome st d cs E Hc)
    as (st' & Hrun & Hcs & Hrows & _).
  exists st', (LocalVS._save_cache write_outcome st' d).
  split; [exact Hrun|]. split; [exact Hcs|]. split; [exact Hrows|]. split.
  - apply aligned_rows. rewrite Hcs, Hrows, !length_app.
    apply aligned_rows in Ha. unfold nrows in Hn. lia.
  - unfold LocalVS._save_cache, LocalVS.write_cache, snapshot_of.
    destruct (write_outcome _); reflexivity.
Qed.

(** C9 (amended): on an aligned store, [add_documents] with [n] chunks and
    an [n]-row matrix of the stored width returns with the chunks and the
    rows appended to the old ones, which are unchanged, and with the store
    aligned again.  The snapshot file holds the new state when the write
    succeeds; a failed write is caught inside [_save_cache], and
    [add_documents] returns all the same, with the file as the failed write
    left it. *)
Theorem add_documents_appends_aligned write_outcome st d cs E :
  aligned st -> compatible st E -> length cs = nrows E ->
  exists st' d',
    LocalVS.add_documents write_outcome st d cs E = (Ok tt, st', d')
    /\ chunks st' = chunks st ++ cs
    /\ stored_rows st' = stored_rows st ++ rows E
    /\ aligned st'
    /\ d' = match write_outcome (snapshot_of st') with
            | Written => CacheFile (snapshot_of st')
            | FailedBeforeOpen _ => d
            | FailedDuringDump _ => Truncated
            end.
Proof. apply add_documents_spec. Qed.

Lemma add_documents_appends_aligned_witness :
  exists st',
    LocalVS.add_documents (fun _ => Written) Reference.store_a NoFile
      [Reference.chunk_c] (mk_ndarray 2 [[3 # 5; 4 # 5]%Q])
    = (Ok tt, st', CacheFile (snapshot_of st'))
    /\ chunks st' = [Reference.chunk_a; Reference.chunk_c].
Proof.
  destruct (add_documents_appends_aligned (fun _ => Written) Reference.store_a
              NoFile [Reference.chunk_c] (mk_ndarray 2 [[3 # 5; 4 # 5]%Q]))
    as (st' & d' & Hrun & Hcs & _ & _ & Hd);
    [reflexivity | reflexivity | reflexivity |].
  exists st'. rewrite <- Hd. split; [exact Hrun | exact Hcs].
Defined.

(** C9, as stated, fails: with a full disk [add_documents] returns normally
    and the snapshot file does not hold the new state. *)
Lemma add_documents_save_failure_is_swallowed :
  ~ add_documents_always_persists Reference.disk_full Reference.store_a NoFile
      [Reference.chunk_c] (mk_ndarray 2 [[3 # 5; 4 # 5]%Q]).
Proof.
  intros H.
  destruct (H ltac:(reflexivity) ltac:(reflexivity) ltac:(reflexivity)
              _ _ eq_refl) as [_ Hd].
  discriminate Hd.
Qed.

(** ** add_documents followed by search *)

Lemma float32_slack_ge t : (t <= t + float32_slack t)%Q.
Proof.
  assert (H : (0 <= float32_slack t)%Q).
  { unfold float32_slack.
    apply (Qle_trans _ (0 + 0)); [unfold Qle; simpl; lia|].
    apply Qplus_le_compat; [|unfold Qle; simpl; lia].
    apply Qmult_le_0_compat; [apply Qabs_nonneg|unfold Qle; simpl; lia]. }
  apply (Qle_trans _ (t + 0)); [rewrite Qplus_0_r; apply Qle_refl|].
  apply Qplus_le_compat; [apply Qle_refl|exact H].
Qed.

(** The top result of a search on an aligned store, for [k >= 1] and any
    [np.argsort]: when the row at [pos] is above the threshold there is a
    first result, it is at least as similar to the query as that row, and
    it is the chunk of [pos] when every other row is strictly less
    similar. *)
Lemma search_by_top config cosine sort st q k pos s :
  is_argsort sort ->
  aligned st -> same_dimension st q -> (0 < k)%Z ->
  score_at cosine st q pos = Some s ->
  (similarity_threshold config < s)%Q ->
  exists r rs i,
    LocalVS.search_by config cosine sort st q k = Ok (r :: rs)
    /\ result_of cosine st q i r
    /\ (s <= similarity r)%Q
    /\ ((forall j x, j <> pos -> score_at cosine st q j = Some x -> (x < s)%Q) ->
        i = pos).
Proof.
  intros Hsort Ha Hd Hk Hpos Hthr.
  destruct (embeddings st) as [E|] eqn:HE;
    [|unfold score_at in Hpos; rewrite HE in Hpos; discriminate].
  pose proof Hpos as Hpos'. rewrite (score_at_lookup _ _ _ E _ HE) in Hpos'.
  destruct (search_by_returns config cosine sort st q k Hsort Ha Hd)
    as [rs0 Hrs].
  pose proof (lookup_lt_Some _ _ _ Hpos') as Hlt.
  assert (Hlen : length (map (cosine q) (rows E)) = length (chunks st)).
  { rewrite length_map. unfold aligned in Ha. rewrite HE in Ha.
    simpl in Ha. unfold nrows in Ha. lia. }
  pose proof Hrs as Hloop.
  apply (search_by_unfold _ _ _ _ _ _ E) in Hloop; [|exact HE|].
  2:{ intros Hnil. rewrite Hnil in Hlen. simpl in Hlen. lia. }
  set (sims := map (cosine q) (rows E)) in *.
  assert (Hne : sims <> []).
  { intros E0. rewrite E0 in Hpos'. discriminate. }
  destruct (top_indices_by_head sort sims k Hsort Hk Hne)
    as (i & rest & Htop & Hbest).
  assert (Hi : i < length sims).
  { eapply is_argsort_lt; [exact Hsort|]. eapply top_indices_by_elem.
    rewrite Htop. apply list_elem_of_here. }
  destruct (lookup_lt_is_Some_2 sims i Hi) as [si Hsi].
  assert (Hle : (s <= si)%Q).
  { destruct (Hbest pos Hlt) as [Heq | (x & y & Hx & Hy & Hxy)].
    - subst i. assert (si = s) by congruence. subst. apply Qle_refl.
    - assert (x = s) by congruence. assert (y = si) by congruence.
      subst. exact Hxy. }
  rewrite Htop in Hloop. simpl in Hloop.
  rewrite (getitem_Some _ _ _ Hsi) in Hloop. cbn in Hloop.
  assert (Hpass : Qltb (similarity_threshold config) si = true).
  { apply Qltb_lt. eapply Qlt_le_trans; eassumption. }
  rewrite Hpass in Hloop.
  destruct (lookup_lt_is_Some_2 (chunks st) i ltac:(lia)) as [c Hc].
  rewrite (getitem_Some _ _ _ Hc) in Hloop. cbn in Hloop.
  apply search_loop_by_index in Hloop as (hs & new & -> & _).
  exists (mk_result c si), new, i. simpl in Hrs.
  split; [exact Hrs|]. split; [|split].
  - split; simpl; [exact Hc|].
    rewrite (score_at_lookup _ _ _ E _ HE). exact Hsi.
  - exact Hle.
  - intros Huniq. destruct (Nat.eq_dec i pos) as [Heq | Hneq]; [exact Heq|].
    exfalso.
    assert (Hx : score_at cosine st q i = Some si).
    { rewrite (score_at_lookup _ _ _ E _ HE). exact Hsi. }
    pose proof (Huniq i si Hneq Hx) as Hlt'.
    apply Qlt_not_le in Hlt'. contradiction.
Qed.

(** C3 (amended): take a cosine that gives [v] a similarity of at least
    [1 - eps] to itself and no stored row more than [1 + eps], and a
    threshold that stays below [1 - eps] when rounded to single precision.
    After [add_documents] on an aligned store, a search for the embedding
    [v] of an added chunk, with [k >= 1] and whatever order [np.argsort]
    leaves equal scores in, has a top result of similarity between
    [1 - eps] and [1 + eps]; the top result is the added chunk when every
    other stored row is strictly less similar to [v] than [v] itself. *)
Theorem add_then_search_top config cosine sort write_outcome st0 d cs E j c v k
    eps :
  is_argsort sort ->
  aligned st0 -> compatible st0 E -> length cs = nrows E ->
  cs !! j = Some c -> rows E !! j = Some v -> length v = width E ->
  (0 < k)%Z ->
  (1 - eps <= cosine v v)%Q ->
  Forall (fun u => (cosine v u <= 1 + eps)%Q) (stored_rows st0 ++ rows E) ->
  (similarity_threshold config + float32_slack (similarity_threshold config)
   < 1 - eps)%Q ->
  exists st1 d1 r rs,
    LocalVS.add_documents write_outcome st0 d cs E = (Ok tt, st1, d1)
    /\ LocalVS.search_by config cosine sort st1 v k = Ok (r :: rs)
    /\ (1 - eps <= similarity r)%Q /\ (similarity r <= 1 + eps)%Q
    /\ ((forall i u, i <> length (chunks st0) + j ->
           (stored_rows st0 ++ rows E) !! i = Some u ->
           (cosine v u < cosine v v)%Q) ->
        chunk r = c).
Proof.
  intros Hsort Ha Hc Hn Hj Hv Hw Hk Hself Hbound Hthr.
  destruct (add_documents_spec write_outcome st0 d cs E Ha Hc Hn)
    as (st1 & d1 & Hrun & Hcs & Hrows & Ha1 & _).
  destruct (add_documents_run write_outcome st0 d cs E Hc)
    as (st1' & Hrun' & _ & _ & (E1 & HE1 & Hw1)).
  assert (st1' = st1) by congruence. subst st1'.
  set (pos := length (chunks st0) + j).
  assert (Hlen0 : length (chunks st0) = length (stored_rows st0))
    by (apply aligned_rows, Ha).
  assert (Hrow : stored_rows st1 !! pos = Some v).
  { rewrite Hrows. unfold pos. rewrite Hlen0, lookup_app_r by lia.
    rewrite <- Hv. f_equal. lia. }
  assert (Hchunk : chunks st1 !! pos = Some c).
  { rewrite Hcs. unfold pos. rewrite lookup_app_r by lia.
    rewrite <- Hj. f_equal. lia. }
  assert (Hstored : stored_rows st1 = rows E1).
  { unfold stored_rows. rewrite HE1. reflexivity. }
  assert (Hscore : forall i, score_at cosine st1 v i
                             = (fun u => cosine v u) <$> stored_rows st1 !! i).
  { intros i. unfold score_at. rewrite Hstored, HE1. simpl.
    destruct (rows E1 !! i); reflexivity. }
  assert (Hdim : same_dimension st1 v).
  { unfold same_dimension. rewrite HE1. congruence. }
  assert (Hpass : (similarity_threshold config < cosine v v)%Q).
  { eapply Qlt_le_trans; [|exact Hself].
    eapply Qle_lt_trans; [apply float32_slack_ge|exact Hthr]. }
  destruct (search_by_top config cosine sort st1 v k pos (cosine v v)
              Hsort Ha1 Hdim Hk) as (r & rs & i & Hs & [Hri Hsi] & Hle & Huniq);
    [rewrite Hscore, Hrow; reflexivity | exact Hpass |].
  rewrite Hscore in Hsi. apply fmap_Some in Hsi as (u & Hu & Hsim).
  exists st1, d1, r, rs. split; [exact Hrun|]. split; [exact Hs|].
  split; [|split].
  - eapply Qle_trans; eassumption.
  - rewrite Hsim. rewrite Forall_forall in Hbound. apply Hbound.
    rewrite <- Hrows. eapply list_elem_of_lookup_2, Hu.
  - intros Hothers. assert (i = pos) as ->; [|congruence].
    apply Huniq. intros j' x Hne Hx.
    rewrite Hscore in Hx. apply fmap_Some in Hx as (u' & Hu' & ->).
    apply (Hothers j' u' Hne). rewrite <- Hrows. exact Hu'.
Qed.

Lemma add_then_search_top_witness :
  exists st1 d1 r rs,
    LocalVS.add_documents (fun _ => Written) Reference.store_a NoFile
      [Reference.chunk_c] (mk_ndarray 2 [[3 # 5; 4 # 5]%Q]) = (Ok tt, st1, d1)
    /\ LocalVS.search_by Reference.config Reference.cosine argsort st1
         [3 # 5; 4 # 5]%Q 3 = Ok (r :: rs)
    /\ (1 - (1 # 1000) <= similarity r)%Q
    /\ (similarity r <= 1 + (1 # 1000))%Q
    /\ chunk r = Reference.chunk_c.
Proof.
  destruct (add_then_search_top Reference.config Reference.cosine argsort
              (fun _ => Written) Reference.store_a NoFile [Reference.chunk_c]
              (mk_ndarray 2 [[3 # 5; 4 # 5]%Q]) 0 Reference.chunk_c
              [3 # 5; 4 # 5]%Q 3 (1 # 1000) argsort_is_argsort)
    as (st1 & d1 & r & rs & Hrun & Hs & Hlo & Hhi & Hc);
    [reflexivity | reflexivity | reflexivity | reflexivity | reflexivity
    | reflexivity | reflexivity | vm_compute; discriminate
    | repeat constructor; vm_compute; discriminate
    | vm_compute; reflexivity |].
  exists st1, d1, r, rs.
  split; [exact Hrun|]. split; [exact Hs|]. split; [exact Hlo|].
  split; [exact Hhi|].
  apply Hc. intros i u Hi Hl.
  destruct i as [|[|i]]; [|contradiction|discriminate].
  simpl in Hl. injection Hl as <-. vm_compute. reflexivity.
Defined.

(** C3, as stated, fails, whatever order [np.argsort] leaves equal scores
    in: [a.txt] and [b.txt] hold the same text and are added with the same
    embedding; a search for that embedding has one top result, which
    cannot be both the chunk of [a.txt] and the chunk of [b.txt]. *)
Lemma round_trip_duplicate_embedding :
  ~ exists sort,
      round_trip_returns_that_chunk Reference.config Reference.cosine sort
        (fun _ => Written) (mk_local [] None) NoFile
        [Reference.chunk_a; Reference.chunk_b]
        (mk_ndarray 2 [[1; 0]; [1; 0]]%Q) [1; 0]%Q 3 (1 # 1000).
Proof.
  intros (sort & H). unfold round_trip_returns_that_chunk in H.
  specialize (H eq_refl I eq_refl eq_refl ltac:(lia) ltac:(reflexivity)).
  destruct (H 0 Reference.chunk_a eq_refl eq_refl)
    as (st1 & d1 & r & rs & Hrun & Hs & Hc & _).
  destruct (H 1 Reference.chunk_b eq_refl eq_refl)
    as (st1' & d1' & r' & rs' & Hrun' & Hs' & Hc' & _).
  assert (st1' = st1) by congruence. subst st1'.
  assert (r' = r) by congruence. subst r'.
  rewrite Hc in Hc'. discriminate Hc'.
Qed.

(** * Further properties *)

(** ** LocalVectorStore: what a search can and cannot return *)

(** X1: when [k] is at least the number of stored rows, or [k = 0] (the
    slice [[-0:]] keeps everything), no row clearly above the threshold is
    missed, whatever order [np.argsort] leaves equal scores in: every
    stored position whose similarity exceeds the threshold by more than
    the rounding of the threshold to single precision has its chunk among
    the results. *)
Theorem search_misses_no_row_when_k_covers_store config cosine sort st q k rs E
    i v :
  is_argsort sort ->
  LocalVS.search_by config cosine sort st q k = Ok rs ->
  embeddings st = Some E -> chunks st <> [] ->
  keeps_all k (nrows E) ->
  rows E !! i = Some v ->
  (similarity_threshold config + float32_slack (similarity_threshold config)
   < cosine q v)%Q ->
  exists r, r ∈ rs /\ chunks st !! i = Some (chunk r)
            /\ similarity r = cosine q v.
Proof.
  intros Hsort H HE Hne Hk Hv Hthr.
  eapply search_by_complete; eauto.
  eapply Qle_lt_trans; [apply float32_slack_ge|exact Hthr].
Qed.

Lemma search_misses_no_row_when_k_covers_store_witness :
  exists rs r,
    LocalVS.search_by Reference.config Reference.cosine argsort
      Reference.store_ab [1; 0]%Q 0 = Ok rs
    /\ r ∈ rs /\ chunk r = Reference.chunk_c.
Proof.
  assert (Hrs : LocalVS.search_by Reference.config Reference.cosine argsort
                  Reference.store_ab [1; 0]%Q 0
                = Ok [mk_result Reference.chunk_b 1;
                      mk_result Reference.chunk_a 1;
                      mk_result Reference.chunk_c (3 # 5)])
    by (vm_compute; reflexivity).
  destruct (search_misses_no_row_when_k_covers_store Reference.config
              Reference.cosine argsort Reference.store_ab [1; 0]%Q 0 _
              (mk_ndarray 2 [[1; 0]; [1; 0]; [3 # 5; 4 # 5]]%Q) 2
              [3 # 5; 4 # 5]%Q argsort_is_argsort Hrs)
    as (r & Hr & Hc & _);
    [reflexivity | discriminate | left; reflexivity | reflexivity
    | vm_compute; reflexivity |].
  eexists _, r. split; [exact Hrs|]. split; [exact Hr|].
  simpl in Hc. congruence.
Defined.

Lemma idx_sorted_NoDup (l : list (nat * Q)) :
  StronglySorted idx_lt l -> NoDup (map fst l).
Proof.
  induction 1 as [|x l Hs IH Hx]; simpl; constructor; [|exact IH].
  intros Hin. apply list_elem_of_fmap in Hin as (y & Hy & Hin).
  rewrite Forall_forall in Hx. specialize (Hx y Hin).
  unfold idx_lt in Hx. lia.
Qed.

Lemma top_ranked_NoDup scores k : NoDup (map fst (top_ranked scores k)).
Proof.
  unfold top_ranked. rewrite map_rev, <- Permutation_rev.
  change (NoDup (fst <$> slice_from_neg k (ranked scores))).
  eapply sublist_NoDup; [|apply (fmap_sublist fst), slice_from_neg_sublist].
  unfold ranked. rewrite sort_asc_perm.
  apply idx_sorted_NoDup, enumerate_from_sorted.
Qed.

Lemma search_nothing_stored config cosine st q k :
  embeddings st = None \/ chunks st = [] ->
  LocalVS.search config cosine st q k = Ok [].
Proof.
  unfold LocalVS.search. intros [-> | H]; [reflexivity|].
  rewrite H. destruct (embeddings st); reflexivity.
Qed.

(** X2: a search never returns the same stored position twice, and every
    result is a stored chunk with the similarity of its own row; so there
    are never more results than stored rows, whatever [k] is. *)
Theorem search_returns_distinct_positions config cosine st q k rs :
  LocalVS.search config cosine st q k = Ok rs ->
  exists hits : list nat,
    Forall2 (result_of cosine st q) hits rs
    /\ NoDup hits
    /\ length rs <= length (stored_rows st).
Proof.
  intros H.
  destruct (embeddings st) as [E|] eqn:HE.
  2:{ rewrite search_nothing_stored in H by (left; exact HE).
      injection H as <-. exists []. repeat split; try constructor. simpl; lia. }
  destruct (chunks st) as [|c0 cs0] eqn:Hcs.
  { rewrite search_nothing_stored in H by (right; exact Hcs).
    injection H as <-. exists []. repeat split; try constructor. simpl; lia. }
  apply search_hits in H as (hs & HF & _ & _ & Hsub).
  specialize (Hsub E HE). rewrite Hcs in Hsub. specialize (Hsub ltac:(discriminate)).
  exists (map fst hs). split; [|split].
  - apply Forall2_fmap_l. eapply Forall2_impl; [exact HF|].
    intros p r (Hr & _). exact Hr.
  - eapply sublist_NoDup; [|apply (fmap_sublist fst), Hsub].
    apply top_ranked_NoDup.
  - rewrite <- (Forall2_length _ _ _ HF).
    etransitivity; [apply sublist_length, Hsub|].
    unfold top_ranked. rewrite length_rev.
    etransitivity; [apply sublist_length, slice_from_neg_sublist|].
    rewrite ranked_length, length_map. unfold stored_rows. rewrite HE. reflexivity.
Qed.

Lemma search_returns_distinct_positions_witness :
  exists hits : list nat,
    Forall2 (result_of Reference.cosine Reference.store_ab [1; 0]%Q) hits
      [mk_result Reference.chunk_b 1; mk_result Reference.chunk_a 1;
       mk_result Reference.chunk_c (3 # 5)]
    /\ NoDup hits.
Proof.
  destruct (search_returns_distinct_positions Reference.config Reference.cosine
              Reference.store_ab [1; 0]%Q 3 _ store_ab_search)
    as (hits & HF & Hnd & _).
  exists hits. split; assumption.
Defined.

(** ** LocalVectorStore: the snapshot file and a failed [np.vstack] *)

Lemma init_snapshot st : LocalVS.init (CacheFile (snapshot_of st)) = st.
Proof. destruct st. reflexivity. Qed.

(** X3: what a restart finds after [add_documents] returned.  When the
    write succeeded, [LocalVectorStore(cache_dir)] loads exactly the store
    that was in memory; when the write failed before the file was opened it
    loads what the old file held; when it failed while dumping, the file is
    unreadable and the restart begins with an empty store. *)
Theorem restart_after_add_documents write_outcome st d cs E :
  compatible st E ->
  exists st' d',
    LocalVS.add_documents write_outcome st d cs E = (Ok tt, st', d')
    /\ match write_outcome (snapshot_of st') with
       | Written => LocalVS.init d' = st'
       | FailedBeforeOpen _ => LocalVS.init d' = LocalVS.init d
       | FailedDuringDump _ => LocalVS.init d' = mk_local [] None
       end.
Proof.
  intros Hc.
  destruct (add_documents_run write_outcome st d cs E Hc) as (st' & Hrun & _).
  exists st', (LocalVS._save_cache write_outcome st' d). split; [exact Hrun|].
  unfold LocalVS._save_cache, LocalVS.write_cache.
  fold (snapshot_of st'). destruct (write_outcome (snapshot_of st')).
  - apply init_snapshot.
  - reflexivity.
  - reflexivity.
Qed.

Lemma restart_after_add_documents_witness :
  exists st' d',
    LocalVS.add_documents (fun _ => Written) Reference.store_a NoFile
      [Reference.chunk_c] (mk_ndarray 2 [[3 # 5; 4 # 5]%Q]) = (Ok tt, st', d')
    /\ LocalVS.init d' = st'.
Proof.
  destruct (restart_after_add_documents (fun _ => Written) Reference.store_a
              NoFile [Reference.chunk_c] (mk_ndarray 2 [[3 # 5; 4 # 5]%Q]))
    as (st' & d' & Hrun & Hinit); [reflexivity|].
  exists st', d'. split; [exact Hrun | exact Hinit].
Defined.

(** X4: [add_documents] with rows of another width than the stored ones
    raises the [ValueError] of [np.vstack] AFTER the chunk list was
    extended: the chunks are in the store, the rows are not, nothing is
    written to disk, and a store that was aligned no longer is. *)
Theorem add_documents_width_mismatch_breaks_alignment
    write_outcome st d cs E E0 :
  embeddings st = Some E0 ->
  width E0 <> width E ->
  exists e st',
    LocalVS.add_documents write_outcome st d cs E = (Raise (ValueError e), st', d)
    /\ chunks st' = chunks st ++ cs
    /\ embeddings st' = Some E0
    /\ (aligned st -> cs <> [] -> ~ aligned st').
Proof.
  intros HE Hw. unfold LocalVS.add_documents. rewrite HE. unfold vstack.
  apply Nat.eqb_neq in Hw as ->.
  eexists _, _. split; [reflexivity|]. simpl. repeat split.
  unfold aligned. rewrite HE. simpl. rewrite length_app.
  intros Ha Hne Ha'. destruct cs; [congruence|]. simpl in Ha'. lia.
Qed.

Lemma add_documents_width_mismatch_breaks_alignment_witness :
  exists st',
    fst (LocalVS.add_documents (fun _ => Written) Reference.store_a NoFile
           [Reference.chunk_c] (mk_ndarray 3 [[1; 0; 0]%Q]))
    = (Raise (ValueError "all the input array dimensions except for the concatenation axis must match exactly"), st')
    /\ ~ aligned st'.
Proof.
  destruct (add_documents_width_mismatch_breaks_alignment (fun _ => Written)
              Reference.store_a NoFile [Reference.chunk_c]
              (mk_ndarray 3 [[1; 0; 0]%Q]) (mk_ndarray 2 [[1; 0]%Q]))
    as (e & st' & Hrun & _ & _ & Hbad); [reflexivity | simpl; lia |].
  exists st'. rewrite Hrun. simpl. injection Hrun as <- <-.
  split; [reflexivity|]. apply Hbad; [reflexivity | discriminate].
Defined.

(** ** PineconeVectorStore.add_documents: batches of fifty *)

Lemma batches_fuel_concat {A} fuel n (l : list A) :
  0 < n -> length l <= fuel ->
  concat (PineconeVS.batches_fuel fuel n l) = l.
Proof.
  intros Hn. revert l. induction fuel as [|fuel IH]; intros l Hl.
  - destruct l; [reflexivity | simpl in Hl; lia].
  - destruct l as [|a l]; [reflexivity|].
    change (PineconeVS.batches_fuel (S fuel) n (a :: l))
      with (take n (a :: l) :: PineconeVS.batches_fuel fuel n (drop n (a :: l))).
    simpl concat. rewrite IH; [apply take_drop|].
    rewrite length_drop. simpl in *. lia.
Qed.

Lemma batches_fuel_sizes {A} fuel n (l : list A) :
  0 < n ->
  Forall (fun b => 0 < length b <= n) (PineconeVS.batches_fuel fuel n l).
Proof.
  intros Hn. revert l. induction fuel as [|fuel IH]; intros l.
  - destruct l; constructor.
  - destruct l as [|a l]; [constructor|].
    change (PineconeVS.batches_fuel (S fuel) n (a :: l))
      with (take n (a :: l) :: PineconeVS.batches_fuel fuel n (drop n (a :: l))).
    constructor; [|apply IH].
    rewrite length_take. simpl. lia.
Qed.

Lemma upsert_loop_all_ok index_upsert bs sent :
  Forall (fun b => index_upsert b = Ok tt) bs ->
  PineconeVS.upsert_loop index_upsert bs sent = (Ok tt, sent ++ bs).
Proof.
  intros H. revert sent. induction H as [|b bs Hb _ IH]; intros sent; simpl.
  - rewrite app_nil_r. reflexivity.
  - rewrite Hb, IH, <- app_assoc. reflexivity.
Qed.

Lemma zip_vectors_length cs es :
  length (PineconeVS.zip_vectors cs es) = Nat.min (length cs) (length es).
Proof.
  revert es. induction cs as [|c cs IH]; intros [|e es]; simpl; auto.
Qed.

(** X5: when no [upsert] fails, [add_documents] of the hosted store sends
    every vector exactly once and in order, in batches of one to fifty
    vectors, after the batches sent before; there is one vector per pair of
    [zip(chunks, embeddings)], so surplus chunks or rows are dropped
    without an error. *)
Theorem hosted_add_sends_every_vector_once index_upsert sent cs E :
  (forall b, b ∈ PineconeVS.batches 50 (PineconeVS.zip_vectors cs (rows E)) ->
             index_upsert b = Ok tt) ->
  exists bs,
    PineconeVS.add_documents index_upsert sent cs E = (Ok tt, sent ++ bs)
    /\ concat bs = PineconeVS.zip_vectors cs (rows E)
    /\ Forall (fun b => 0 < length b <= 50) bs
    /\ length (concat bs) = Nat.min (length cs) (nrows E).
Proof.
  intros Hok.
  exists (PineconeVS.batches 50 (PineconeVS.zip_vectors cs (rows E))).
  split; [|split; [|split]].
  - unfold PineconeVS.add_documents. apply upsert_loop_all_ok.
    apply Forall_forall. exact Hok.
  - apply batches_fuel_concat; lia.
  - apply batches_fuel_sizes. lia.
  - unfold PineconeVS.batches. rewrite batches_fuel_concat by lia.
    apply zip_vectors_length.
Qed.

Lemma hosted_add_sends_every_vector_once_witness :
  exists bs,
    PineconeVS.add_documents (fun _ => Ok tt) []
      [Reference.chunk_a; Reference.chunk_c] (mk_ndarray 2 [[1; 0]%Q])
    = (Ok tt, bs)
    /\ length (concat bs) = 1.
Proof.
  destruct (hosted_add_sends_every_vector_once (fun _ => Ok tt) []
              [Reference.chunk_a; Reference.chunk_c] (mk_ndarray 2 [[1; 0]%Q]))
    as (bs & Hrun & _ & _ & Hlen); [reflexivity|].
  exists bs. split; [exact Hrun | exact Hlen].
Defined.

(** X6: when the [upsert] of batch number [i] is the first to fail,
    [add_documents] of the hosted store raises that exception with exactly
    the [i] batches before it sent and none after it: the remote index is
    left partly written. *)
Theorem hosted_add_stops_at_first_failure index_upsert sent cs E i b e :
  PineconeVS.batches 50 (PineconeVS.zip_vectors cs (rows E)) !! i = Some b ->
  index_upsert b = Raise e ->
  (forall j b', j < i ->
     PineconeVS.batches 50 (PineconeVS.zip_vectors cs (rows E)) !! j = Some b' ->
     index_upsert b' = Ok tt) ->
  PineconeVS.add_documents index_upsert sent cs E
  = (Raise e,
     sent ++ take i (PineconeVS.batches 50 (PineconeVS.zip_vectors cs (rows E)))).
Proof.
  unfold PineconeVS.add_documents.
  generalize (PineconeVS.batches 50 (PineconeVS.zip_vectors cs (rows E))).
  intros bs. revert i sent.
  induction bs as [|b0 bs IH]; intros i sent Hi Hb Hbefore.
  - rewrite lookup_nil in Hi. discriminate.
  - destruct i as [|i]; simpl in *.
    + injection Hi as ->. rewrite Hb, app_nil_r. reflexivity.
    + rewrite (Hbefore 0 b0 ltac:(lia) eq_refl).
      rewrite (IH i (sent ++ [b0]) Hi Hb).
      * rewrite <- app_assoc. reflexivity.
      * intros j b' Hj Hl. apply (Hbefore (S j) b'); [lia | exact Hl].
Qed.

Lemma hosted_add_stops_at_first_failure_witness :
  PineconeVS.add_documents
    (fun b => if Nat.eqb (length b) 50 then Ok tt
              else Raise (RuntimeError "503"))
    [] (replicate 51 Reference.chunk_a) (mk_ndarray 2 (replicate 51 [1; 0]%Q))
  = (Raise (RuntimeError "503"),
     [replicate 50 (PineconeVS.to_vector Reference.chunk_a [1; 0]%Q)]).
Proof.
  apply (hosted_add_stops_at_first_failure
           (fun b => if Nat.eqb (length b) 50 then Ok tt
                     else Raise (RuntimeError "503"))
           [] (replicate 51 Reference.chunk_a)
           (mk_ndarray 2 (replicate 51 [1; 0]%Q)) 1
           [PineconeVS.to_vector Reference.chunk_a [1; 0]%Q]).
  - reflexivity.
  - reflexivity.
  - intros j b' Hj Hl. destruct j as [|j]; [|lia].
    injection Hl as <-. reflexivity.
Defined.

(** ** PineconeVectorStore.search: reading the matches *)

Lemma to_vector_text c e :
  pv_metadata (PineconeVS.to_vector c e) !! "text" = Some (str_take 1000 (content c)).
Proof. unfold PineconeVS.to_vector. simpl. apply lookup_insert_eq. Qed.

Lemma to_vector_source c e :
  pv_metadata (PineconeVS.to_vector c e) !! "source" = Some (source c).
Proof.
  unfold PineconeVS.to_vector. simpl.
  rewrite lookup_insert_ne by discriminate. apply lookup_insert_eq.
Qed.

Lemma str_take_all n s : String.length s <= n -> str_take n s = s.
Proof.
  revert n. induction s as [|c s IH]; intros [|n] H; simpl in *;
    try reflexivity; try lia.
  rewrite IH by lia. reflexivity.
Qed.

Lemma str_take_length n s : String.length (str_take n s) <= n.
Proof.
  revert n. induction s as [|c s IH]; intros [|n]; simpl; try lia.
  specialize (IH n). lia.
Qed.

Lemma hosted_search_loop_step config m ms acc :
  PineconeVS.search_loop config (m :: ms) acc
  = if Qltb (similarity_threshold config) (m_score m)
    then match m_metadata m with
         | Some md =>
             PineconeVS.search_loop config ms
               (acc ++ [mk_result
                          (mk_chunk (default (default "" (md !! "content")) (md !! "text"))
                             (default "unknown" (md !! "source")) (m_id m) None)
                          (m_score m)])
         | None => Raise (TypeError "'NoneType' object has no attribute 'get'")
         end
    else PineconeVS.search_loop config ms acc.
Proof.
  simpl. destruct (Qltb (similarity_threshold config) (m_score m)); [|reflexivity].
  unfold PineconeVS.match_metadata. destruct (m_metadata m); reflexivity.
Qed.

Lemma hosted_search_loop_round_trip config
    (stored : list (DocumentChunk * list Q * Q)) acc :
  PineconeVS.search_loop config
    (map (fun t => remote_match (PineconeVS.to_vector (fst (fst t)) (snd (fst t))) (snd t))
       stored) acc
  = Ok (acc ++ omap (hosted_result config) stored).
Proof.
  revert acc. induction stored as [|[[c e] s] stored IH]; intros acc.
  - simpl. rewrite app_nil_r. reflexivity.
  - cbn [map omap list_omap fst snd]. rewrite hosted_search_loop_step.
    unfold hosted_result at 1. cbn [remote_match m_score m_metadata m_id fst snd].
    destruct (Qltb (similarity_threshold config) s); [|apply IH].
    rewrite IH, <- app_assoc. unfold read_back.
    rewrite to_vector_text, to_vector_source. reflexivity.
Qed.

(** X7: the round trip through the hosted index.  When the remote query
    answers with the vectors that [add_documents] sent (id, metadata) and
    their scores, [search] returns, in the order of the answer and for the
    scores above the threshold, the chunks that were added, with their
    source and [chunk_id] and with the content cut to 1000 characters; a
    chunk of at most 1000 characters and without metadata comes back
    unchanged. *)
Theorem hosted_round_trip config index_query q k
    (stored : list (DocumentChunk * list Q * Q)) :
  index_query q k
  = Ok (map (fun t => remote_match (PineconeVS.to_vector (fst (fst t)) (snd (fst t))) (snd t))
          stored) ->
  PineconeVS.search config index_query q k = omap (hosted_result config) stored
  /\ (forall c, String.length (content c) <= 1000 -> metadata c = None ->
                read_back c = c)
  /\ (forall c, String.length (content (read_back c)) <= 1000).
Proof.
  intros Hq. split; [|split].
  - unfold PineconeVS.search, PineconeVS.search_body. rewrite Hq. cbn.
    rewrite hosted_search_loop_round_trip. reflexivity.
  - intros [ct src id md] Hlen Hmd. cbn [content metadata] in *. subst md.
    unfold read_back. cbn [content source chunk_id].
    rewrite str_take_all by exact Hlen. reflexivity.
  - intros c. unfold read_back. cbn [content]. apply str_take_length.
Qed.

Lemma hosted_round_trip_witness :
  PineconeVS.search Reference.config
    (fun _ _ => Ok [remote_match (PineconeVS.to_vector Reference.chunk_a [1; 0]%Q) (9 # 10);
                    remote_match (PineconeVS.to_vector Reference.chunk_c [3 # 5; 4 # 5]%Q) (1 # 20)])
    [1; 0]%Q 3
  = [mk_result Reference.chunk_a (9 # 10)].
Proof.
  destruct (hosted_round_trip Reference.config
              (fun _ _ => Ok [remote_match (PineconeVS.to_vector Reference.chunk_a [1; 0]%Q) (9 # 10);
                              remote_match (PineconeVS.to_vector Reference.chunk_c [3 # 5; 4 # 5]%Q) (1 # 20)])
              [1; 0]%Q 3
              [(Reference.chunk_a, [1; 0]%Q, (9 # 10)%Q);
               (Reference.chunk_c, [3 # 5; 4 # 5]%Q, (1 # 20)%Q)])
    as (Hs & Hback & _); [reflexivity|].
  rewrite Hs. simpl. unfold hosted_result. simpl.
  rewrite (Hback Reference.chunk_a); [reflexivity | simpl; lia | reflexivity].
Defined.

Lemma hosted_search_loop_void config matches acc m :
  m ∈ matches ->
  m_metadata m = None ->
  (similarity_threshold config < m_score m)%Q ->
  exists e, PineconeVS.search_loop config matches acc = Raise e.
Proof.
  intros Hin Hmd Hthr. revert acc.
  induction matches as [|m0 ms IH]; intros acc.
  - apply elem_of_nil in Hin. contradiction.
  - simpl. apply elem_of_cons in Hin as [<- | Hin].
    + apply Qltb_lt in Hthr as ->. unfold PineconeVS.match_metadata.
      rewrite Hmd. cbn. eexists; reflexivity.
    + destruct (Qltb (similarity_threshold config) (m_score m0)); [|apply IH, Hin].
      destruct (PineconeVS.match_metadata m0); cbn; [apply IH, Hin|].
      eexists; reflexivity.
Qed.

(** X8: one match above the threshold that carries no metadata voids the
    whole hosted search: the exception of reading it is caught by the
    [except] of [search], and the results gathered before it are thrown
    away with it. *)
Theorem hosted_search_voided_by_match_without_metadata
    config index_query q k matches m :
  index_query q k = Ok matches ->
  m ∈ matches ->
  m_metadata m = None ->
  (similarity_threshold config < m_score m)%Q ->
  PineconeVS.search config index_query q k = [].
Proof.
  intros Hq Hin Hmd Hthr.
  unfold PineconeVS.search, PineconeVS.search_body. rewrite Hq. cbn.
  destruct (hosted_search_loop_void config matches [] m Hin Hmd Hthr) as [e ->].
  reflexivity.
Qed.

Lemma hosted_search_voided_by_match_without_metadata_witness :
  PineconeVS.search Reference.config
    (fun _ _ => Ok [remote_match (PineconeVS.to_vector Reference.chunk_a [1; 0]%Q) (9 # 10);
                    mk_match "orphan" (1 # 2) None])
    [1; 0]%Q 3
  = [].
Proof.
  apply (hosted_search_voided_by_match_without_metadata Reference.config _
           [1; 0]%Q 3 _ (mk_match "orphan" (1 # 2) None) eq_refl).
  - apply list_elem_of_further, list_elem_of_here.
  - reflexivity.
  - reflexivity.
Defined.

Lemma hosted_search_loop_order config matches acc :
  Forall has_metadata matches ->
  exists new,
    PineconeVS.search_loop config matches acc = Ok (acc ++ new)
    /\ map (fun r => (chunk_id (chunk r), similarity r)) new
       = map (fun m => (m_id m, m_score m))
           (List.filter (fun m => Qltb (similarity_threshold config) (m_score m))
              matches).
Proof.
  intros H. revert acc. induction H as [|m ms Hm _ IH]; intros acc; simpl.
  - exists []. rewrite app_nil_r. split; reflexivity.
  - destruct (Qltb (similarity_threshold config) (m_score m)); [|apply IH].
    unfold PineconeVS.match_metadata. unfold has_metadata in Hm.
    destruct (m_metadata m) as [md|]; [|congruence]. cbn.
    destruct (IH (acc ++ [mk_result
                    (mk_chunk (default (default "" (md !! "content")) (md !! "text"))
                       (default "unknown" (md !! "source")) (m_id m) None)
                    (m_score m)])) as (new & Hrun & Hmap).
    eexists (_ :: new). rewrite Hrun, <- app_assoc. split; [reflexivity|].
    simpl. rewrite Hmap. reflexivity.
Qed.

(** X9: the hosted search neither sorts nor truncates: when every match
    carries metadata, the results are the matches above the threshold, in
    the order of the remote answer, each with the id and the score of its
    match; with more than [k] such matches in the answer there are more
    than [k] results. *)
Theorem hosted_search_keeps_remote_answer config index_query q k matches :
  index_query q k = Ok matches ->
  Forall has_metadata matches ->
  map (fun r => (chunk_id (chunk r), similarity r))
    (PineconeVS.search config index_query q k)
  = map (fun m => (m_id m, m_score m))
      (List.filter (fun m => Qltb (similarity_threshold config) (m_score m))
         matches).
Proof.
  intros Hq Hmd. unfold PineconeVS.search, PineconeVS.search_body.
  rewrite Hq. cbn.
  destruct (hosted_search_loop_order config matches [] Hmd) as (new & -> & Hmap).
  exact Hmap.
Qed.

Lemma hosted_search_keeps_remote_answer_witness :
  map (fun r => (chunk_id (chunk r), similarity r))
    (PineconeVS.search Reference.config
       (fun _ _ => Ok [mk_match "low" (1 # 5) (Some ∅); mk_match "high" (9 # 10) (Some ∅);
                       mk_match "under" (1 # 20) (Some ∅)])
       [1; 0]%Q 1)
  = [("low", (1 # 5)%Q); ("high", (9 # 10)%Q)].
Proof.
  rewrite (hosted_search_keeps_remote_answer Reference.config _ [1; 0]%Q 1
             [mk_match "low" (1 # 5) (Some ∅); mk_match "high" (9 # 10) (Some ∅);
              mk_match "under" (1 # 20) (Some ∅)] eq_refl).
  - reflexivity.
  - repeat constructor; discriminate.
Defined.

(** ** DocumentProcessor.load_documents *)

Lemma load_txt_spec split_text md5_hexdigest files acc :
  Processor.load_txt split_text md5_hexdigest files acc
  = acc ++ concat (map (txt_chunks split_text md5_hexdigest) files).
Proof.
  revert acc. induction files as [|[name [text|e]] files IH]; intros acc;
    cbn [Processor.load_txt map concat].
  - rewrite app_nil_r. reflexivity.
  - unfold txt_chunks at 1. cbn [fst snd].
    destruct (truthy (strip text)); rewrite IH; [|reflexivity].
    rewrite <- app_assoc. reflexivity.
  - rewrite IH. reflexivity.
Qed.

Lemma load_pdf_spec split_text md5_hexdigest docs acc :
  Processor.load_pdf split_text md5_hexdigest docs acc
  = acc ++ concat (map (pdf_chunks split_text md5_hexdigest) docs).
Proof.
  revert acc. induction docs as [|doc docs IH]; intros acc;
    cbn [Processor.load_pdf map concat].
  - rewrite app_nil_r. reflexivity.
  - unfold pdf_chunks at 1.
    destruct (truthy (strip (page_content doc))); rewrite IH; [|reflexivity].
    rewrite <- app_assoc. reflexivity.
Qed.

Lemma load_documents_spec split_text md5_hexdigest dir :
  Processor.load_documents split_text md5_hexdigest dir
  = concat (map (txt_chunks split_text md5_hexdigest) (txt_files dir))
    ++ match pdf_docs dir with
       | Ok docs => concat (map (pdf_chunks split_text md5_hexdigest) docs)
       | Raise _ => []
       end.
Proof.
  unfold Processor.load_documents. rewrite load_txt_spec. simpl.
  destruct (pdf_docs dir); [apply load_pdf_spec|].
  rewrite app_nil_r. reflexivity.
Qed.

(** X10: [load_documents] returns the chunks of the text files, file by
    file in glob order, followed by the chunks of the PDF documents in the
    order of the loader; within a file the chunks are those of
    [_chunk_document] on its text with the file name as source. *)
Theorem load_documents_file_by_file split_text md5_hexdigest dir :
  Processor.load_documents split_text md5_hexdigest dir
  = concat (map (txt_chunks split_text md5_hexdigest) (txt_files dir))
    ++ match pdf_docs dir with
       | Ok docs => concat (map (pdf_chunks split_text md5_hexdigest) docs)
       | Raise _ => []
       end.
Proof. apply load_documents_spec. Qed.

Lemma txt_chunks_nothing split_text md5_hexdigest f :
  contributes_nothing f -> txt_chunks split_text md5_hexdigest f = [].
Proof.
  unfold contributes_nothing, txt_chunks. destruct (snd f); [|reflexivity].
  intros ->. reflexivity.
Qed.

(** X11: a text file that cannot be read, or that is blank, changes
    nothing for the other files: the load gives what it gives without that
    file.  A failure of the PDF loader likewise costs the PDF chunks only:
    the load gives what it gives for a directory without PDF documents. *)
Theorem load_documents_isolates_failures split_text md5_hexdigest
    before f after pdfs e :
  contributes_nothing f ->
  Processor.load_documents split_text md5_hexdigest
    (mk_directory (before ++ f :: after) pdfs)
  = Processor.load_documents split_text md5_hexdigest
      (mk_directory (before ++ after) pdfs)
  /\ Processor.load_documents split_text md5_hexdigest
       (mk_directory (before ++ after) (Raise e))
     = Processor.load_documents split_text md5_hexdigest
         (mk_directory (before ++ after) (Ok [])).
Proof.
  intros Hf. rewrite !load_documents_spec. cbn [txt_files pdf_docs].
  split; [|reflexivity].
  rewrite !map_app, !concat_app. cbn [map concat].
  rewrite (txt_chunks_nothing _ _ _ Hf). reflexivity.
Qed.

Lemma load_documents_isolates_failures_witness :
  Processor.load_documents Reference.split_text Reference.md5_hexdigest
    Reference.directory
  = Processor.load_documents Reference.split_text Reference.md5_hexdigest
      (mk_directory
         [("a.txt", Ok "CSCE 629 requires CSCE 221");
          ("b.txt", Ok "CSCE 629 requires CSCE 221");
          ("blank.txt", Ok "   ")]
         (Ok [])).
Proof.
  apply (load_documents_isolates_failures Reference.split_text
           Reference.md5_hexdigest
           [("a.txt", Ok "CSCE 629 requires CSCE 221");
            ("b.txt", Ok "CSCE 629 requires CSCE 221");
            ("blank.txt", Ok "   ")]
           ("locked.txt", Raise (OSError "Permission denied")) []
           (Ok []) (OSError "none")).
  exact I.
Defined.

Lemma elem_of_concat {A} (x : A) (ls : list (list A)) :
  x ∈ concat ls -> exists l, x ∈ l /\ l ∈ ls.
Proof.
  intros H. apply list_elem_of_In, in_concat in H as (l & Hl & Hx).
  exists l. split; apply list_elem_of_In; assumption.
Qed.

Lemma chunk_document_sources split_text md5_hexdigest text src :
  Forall (fun c => source c = src /\ whitespace_only (content c) = false)
    (Processor._chunk_document split_text md5_hexdigest text src).
Proof.
  unfold Processor._chunk_document. rewrite chunk_loop_spec. simpl.
  apply Forall_forall. intros c Hc.
  apply list_elem_of_omap in Hc as ([i t] & _ & Hc).
  unfold chunk_of in Hc. simpl in Hc.
  destruct (truthy (strip t)) eqn:Et; [|discriminate].
  injection Hc as <-. simpl. split; [reflexivity|].
  apply strip_truthy_not_whitespace_only, Et.
Qed.

(** X12: every chunk that [load_documents] returns has a content that is
    not white space only, and its source is the name of one of the text
    files of the directory, or the source of one of the loaded PDF
    documents ([unknown.pdf] when the document has none). *)
Theorem load_documents_chunks_have_text_and_source split_text md5_hexdigest dir :
  Forall (fun c =>
            whitespace_only (content c) = false
            /\ (source c ∈ map fst (txt_files dir)
                \/ exists docs doc, pdf_docs dir = Ok docs /\ doc ∈ docs
                     /\ source c = default "unknown.pdf" (pdf_source doc)))
    (Processor.load_documents split_text md5_hexdigest dir).
Proof.
  rewrite load_documents_spec. apply Forall_app. split.
  - apply Forall_forall. intros c Hc.
    apply elem_of_concat in Hc as (l & Hc & Hl).
    apply list_elem_of_fmap in Hl as (f & -> & Hf).
    unfold txt_chunks in Hc. destruct f as [name [text|e]]; simpl in Hc.
    + destruct (truthy (strip text)); [|apply elem_of_nil in Hc; contradiction].
      pose proof (chunk_document_sources split_text md5_hexdigest text name) as H.
      rewrite Forall_forall in H. destruct (H c Hc) as [Hs Hw].
      split; [exact Hw|]. left. rewrite Hs.
      apply list_elem_of_fmap. exists (name, Ok text). split; [reflexivity|exact Hf].
    + apply elem_of_nil in Hc. contradiction.
  - destruct (pdf_docs dir) as [docs|e]; [|constructor].
    apply Forall_forall. intros c Hc.
    apply elem_of_concat in Hc as (l & Hc & Hl).
    apply list_elem_of_fmap in Hl as (doc & -> & Hdoc).
    unfold pdf_chunks in Hc.
    destruct (truthy (strip (page_content doc)));
      [|apply elem_of_nil in Hc; contradiction].
    pose proof (chunk_document_sources split_text md5_hexdigest
                  (page_content doc) (default "unknown.pdf" (pdf_source doc))) as H.
    rewrite Forall_forall in H. destruct (H c Hc) as [Hs Hw].
    split; [exact Hw|]. right. exists docs, doc. auto.
Qed.

(** ** DocumentProcessor._chunk_document: the ids of one document *)

Lemma pretty_N_char_free x : Ascii.eqb (pretty_N_char x) "_" = false.
Proof. unfold pretty_N_char. repeat case_match; reflexivity. Qed.

Lemma pretty_N_go_free x s :
  free_of "_" s = true -> free_of "_" (pretty_N_go x s) = true.
Proof.
  revert s. induction (N.lt_wf_0 x) as [x _ IH]; intros s Hs.
  assert (x = 0 \/ 0 < x)%N as [-> | Hx] by lia.
  - rewrite pretty_N_go_0. exact Hs.
  - rewrite pretty_N_go_step by exact Hx. apply IH.
    + apply N.div_lt; [exact Hx | reflexivity].
    + simpl. rewrite pretty_N_char_free. exact Hs.
Qed.

Lemma pretty_nat_free (n : nat) : free_of "_" (pretty n) = true.
Proof.
  unfold pretty, pretty_nat, pretty, pretty_N.
  destruct (decide (N.of_nat n = 0%N)); [reflexivity|].
  apply pretty_N_go_free. reflexivity.
Qed.

Lemma append_cancel_l (s a b : string) : (s ++ a = s ++ b)%string -> a = b.
Proof.
  induction s as [|c s IH]; simpl; [auto|]. intros [= H]. auto.
Qed.

Lemma separator_split (s1 s2 a b : string) :
  free_of "_" s1 = true -> free_of "_" s2 = true ->
  (s1 ++ String "_" a = s2 ++ String "_" b)%string -> s1 = s2.
Proof.
  revert s2. induction s1 as [|c1 s1 IH]; intros [|c2 s2] H1 H2 H; simpl in *.
  - reflexivity.
  - injection H as <- _. discriminate.
  - injection H as -> _. discriminate.
  - injection H as -> H. apply andb_true_iff in H1 as [_ H1].
    apply andb_true_iff in H2 as [_ H2]. f_equal. eapply IH; eauto.
Qed.

Lemma make_chunk_id_index md5_hexdigest src i j t t' :
  Processor.make_chunk_id md5_hexdigest src i t
  = Processor.make_chunk_id md5_hexdigest src j t' ->
  i = j.
Proof.
  unfold Processor.make_chunk_id. intros H.
  apply append_cancel_l in H. simpl in H. injection H as H.
  apply separator_split in H; [|apply pretty_nat_free..].
  apply (inj pretty) in H. exact H.
Qed.

Lemma enumerate_from_ge {A} (l : list A) i p :
  p ∈ enumerate_from i l -> i <= fst p.
Proof.
  intros Hp. pose proof (enumerate_from_spec l i) as H.
  rewrite Forall_forall in H. apply (H p Hp).
Qed.

Lemma chunk_ids_NoDup md5_hexdigest src (pieces : list string) i :
  NoDup (map chunk_id (omap (chunk_of md5_hexdigest src) (enumerate_from i pieces))).
Proof.
  revert i. induction pieces as [|t pieces IH]; intros i; simpl; [constructor|].
  unfold chunk_of at 1. simpl.
  destruct (truthy (strip t)); [|apply IH].
  simpl. constructor; [|apply IH].
  intros Hin. apply list_elem_of_fmap in Hin as (c & Hid & Hc).
  apply list_elem_of_omap in Hc as ([j t'] & Hp & Hc).
  apply enumerate_from_ge in Hp. simpl in Hp.
  unfold chunk_of in Hc. simpl in Hc.
  destruct (truthy (strip t')); [|discriminate]. injection Hc as <-.
  simpl in Hid. apply make_chunk_id_index in Hid. lia.
Qed.

(** X13: the [chunk_id]s of the chunks of one document are pairwise
    different, whatever the hash is: the position that is part of the id
    tells them apart, also when two pieces have the same text or the hash
    prefixes collide. *)
Theorem chunk_document_ids_are_distinct split_text md5_hexdigest text src :
  NoDup (map chunk_id (Processor._chunk_document split_text md5_hexdigest text src)).
Proof.
  unfold Processor._chunk_document. rewrite chunk_loop_spec. simpl.
  apply chunk_ids_NoDup.
Qed.

(** ** RAGSystem.query: effects and answers *)

Lemma query_body_run config sv question w :
  RAG.query_body config sv question w
  = let w1 := log_event (EvEncode [question]) w in
    match encode sv [question] with
    | Raise e => (Raise e, w1)
    | Ok E =>
        match LocalVS.getitem (rows E) 0 with
        | Raise e => (Raise e, w1)
        | Ok qe =>
            match store_search config sv (vector_store w) qe (max_results config) with
            | Raise e => (Raise e, w1)
            | Ok [] => (Ok RAG._generate_no_context_response, w1)
            | Ok (r :: rs) =>
                let prompt := prompt_for question (r :: rs) in
                let w2 := log_event (EvGenerate prompt) w1 in
                match generate_content sv prompt with
                | Raise e => (Raise e, w2)
                | Ok response =>
                    match text response with
                    | Raise e => (Raise e, w2)
                    | Ok t => (Ok (answer_of t), w2)
                    end
                end
            end
        end
    end.
Proof.
  unfold RAG.query_body. cbv zeta.
  unfold mbind at 1. unfold M_bind. rewrite call_encode_run.
  destruct (encode sv [question]) as [E|e]; [|reflexivity].
  unfold mbind at 1. unfold M_bind. unfold lift at 1.
  destruct (LocalVS.getitem (rows E) 0) as [qe|e]; [|reflexivity].
  unfold mbind at 1. unfold M_bind. rewrite vs_search_run. simpl vector_store.
  destruct (store_search config sv (vector_store w) qe (max_results config))
    as [[|r rs]|e]; [reflexivity| |reflexivity].
  unfold mbind at 1. unfold M_bind. rewrite call_generate_content_run.
  fold (prompt_for question (r :: rs)).
  destruct (generate_content sv (prompt_for question (r :: rs))) as [response|e];
    [|reflexivity].
  unfold mbind at 1. unfold M_bind. unfold lift at 1.
  destruct (text response) as [t|e]; [|reflexivity].
  unfold answer_of. destruct (truthy t); reflexivity.
Qed.

Lemma rstrip_empty_whitespace_only s :
  rstrip s = EmptyString -> whitespace_only s = true.
Proof.
  induction s as [|c s IH]; simpl; [reflexivity|].
  destruct (rstrip s); [|discriminate].
  destruct (is_space c); [|discriminate]. intros _. apply IH. reflexivity.
Qed.

Lemma lstrip_whitespace_only_inv s :
  whitespace_only (lstrip s) = true -> whitespace_only s = true.
Proof.
  induction s as [|c s IH]; simpl; [reflexivity|].
  destruct (is_space c) eqn:Ec; simpl; [exact IH|].
  rewrite Ec. simpl. auto.
Qed.

Lemma strip_empty_whitespace_only s :
  strip s = EmptyString -> whitespace_only s = true.
Proof.
  unfold strip. intros H.
  apply lstrip_whitespace_only_inv, rstrip_empty_whitespace_only, H.
Qed.

Lemma query_effects config sv question w :
  same_stores w (snd (RAG.query config sv question w))
  /\ (trace (snd (RAG.query config sv question w))
      = trace w ++ [EvEncode [question]]
      \/ exists prompt,
          trace (snd (RAG.query config sv question w))
          = trace w ++ [EvEncode [question]; EvGenerate prompt]).
Proof.
  unfold RAG.query, try_except. rewrite query_body_run. cbv zeta.
  unfold same_stores.
  destruct (encode sv [question]) as [E|e]; [|simpl; auto].
  destruct (LocalVS.getitem (rows E) 0) as [qe|e]; [|simpl; auto].
  destruct (store_search config sv (vector_store w) qe (max_results config))
    as [[|r rs]|e]; [simpl; auto| |simpl; auto].
  assert (Hgen : forall A (x : A),
    same_stores w (log_event (EvGenerate (prompt_for question (r :: rs)))
                     (log_event (EvEncode [question]) w))
    /\ exists prompt,
        trace (log_event (EvGenerate (prompt_for question (r :: rs)))
                 (log_event (EvEncode [question]) w))
        = trace w ++ [EvEncode [question]; EvGenerate prompt]).
  { intros _ _. split; [repeat split|]. eexists. simpl.
    rewrite <- app_assoc. reflexivity. }
  destruct (Hgen unit tt) as [Hs Ht].
  destruct (generate_content sv (prompt_for question (r :: rs))) as [response|e];
    [|simpl; auto].
  destruct (text response) as [t|e]; simpl; auto.
Qed.

(** X14: [query] only reads.  Whatever the question, the state and the
    collaborators do, the vector store, the snapshot file and the hosted
    index are the same after the call; the embedder is called exactly once,
    with the question alone, and the generator at most once, after it. *)
Theorem query_reads_only config sv question w :
  same_stores w (snd (RAG.query config sv question w))
  /\ (trace (snd (RAG.query config sv question w))
      = trace w ++ [EvEncode [question]]
      \/ exists prompt,
          trace (snd (RAG.query config sv question w))
          = trace w ++ [EvEncode [question]; EvGenerate prompt]).
Proof. apply query_effects. Qed.

(** X15: when the search finds something and the generator answers with
    the text [t], [query] returns [t] stripped, or the fixed apology when
    [t] is empty; the generator was called once, with the prompt built from
    the results and the question.  A text that is not empty but white space
    only gives the empty string as the answer, not the apology. *)
Theorem query_returns_stripped_generator_text
    config sv question w E qe r rs response t :
  encode sv [question] = Ok E ->
  rows E !! 0 = Some qe ->
  store_search config sv (vector_store w) qe (max_results config) = Ok (r :: rs) ->
  generate_content sv (prompt_for question (r :: rs)) = Ok response ->
  text response = Ok t ->
  RAG.query config sv question w
  = (Ok (answer_of t),
     log_event (EvGenerate (prompt_for question (r :: rs)))
       (log_event (EvEncode [question]) w))
  /\ (t = EmptyString -> answer_of t = RAG.empty_response_apology)
  /\ (t <> EmptyString -> whitespace_only t = true -> answer_of t = EmptyString)
  /\ (whitespace_only t = false ->
      answer_of t = strip t /\ whitespace_only (answer_of t) = false).
Proof.
  intros HE Hq Hs Hg Ht. split; [|split; [|split]].
  - unfold RAG.query, try_except. rewrite query_body_run. cbv zeta.
    rewrite HE, (getitem_Some _ _ _ Hq), Hs, Hg, Ht. reflexivity.
  - intros ->. reflexivity.
  - intros Hne Hw. unfold answer_of.
    destruct t; [congruence|]. cbn [truthy].
    apply strip_whitespace_only, Hw.
  - intros Hw. unfold answer_of.
    destruct t as [|c t]; [discriminate|]. cbn [truthy].
    split; [reflexivity|].
    apply strip_truthy_not_whitespace_only.
    destruct (strip (String c t)) eqn:E'; [|reflexivity].
    apply strip_empty_whitespace_only in E'. congruence.
Qed.

Lemma query_returns_stripped_generator_text_witness :
  fst (RAG.query Reference.config Reference.services "CSCE 629 prerequisites?"
         Reference.world_local)
  = Ok "CSCE 629 requires CSCE 221.".
Proof.
  destruct (query_returns_stripped_generator_text Reference.config
              Reference.services "CSCE 629 prerequisites?" Reference.world_local
              (mk_ndarray 2 [[1; 0]%Q]) [1; 0]%Q
              (mk_result Reference.chunk_a 1) []
              (mk_response (Ok " CSCE 629 requires CSCE 221. "))
              " CSCE 629 requires CSCE 221. ")
    as (Hq & _); [reflexivity | reflexivity | reflexivity | reflexivity
                 | reflexivity |].
  rewrite Hq. reflexivity.
Defined.

(** ** RAGSystem.index_documents: the path through load, embed and add *)

Lemma index_documents_run config sv force w :
  RAG.index_documents config sv force w
  = if RAG.already_indexed force (vector_store w) then (Ok tt, w)
    else
      let cs := Processor.load_documents (split_text sv) (md5_hexdigest sv)
                  (directory sv) in
      match cs with
      | [] => (Raise (ValueError ("No documents found in " ++ data_dir config)),
               log_event (EvLoadDocuments (data_dir config)) w)
      | _ =>
          match encode sv (map content cs) with
          | Ok E => RAG.vs_add_documents sv cs E (after_load_and_encode config cs w)
          | Raise e => (Raise e, after_load_and_encode config cs w)
          end
      end.
Proof.
  unfold RAG.index_documents.
  unfold mbind at 1. unfold M_bind. unfold get_world at 1. cbv beta iota.
  destruct (RAG.already_indexed force (vector_store w)); [reflexivity|].
  unfold mbind at 1. unfold M_bind. rewrite call_load_documents_run. cbv zeta.
  destruct (Processor.load_documents (split_text sv) (md5_hexdigest sv)
              (directory sv)) as [|c cs]; [reflexivity|].
  unfold mbind at 1. unfold M_bind. rewrite call_encode_run.
  unfold after_load_and_encode.
  destruct (encode sv (map content (c :: cs))); reflexivity.
Qed.

(** X16: when [index_documents] runs on a local store (forced, or the
    store holds no chunk), the directory yields the chunks [cs], and the
    embedder returns one row per chunk of the stored width, the call
    succeeds and the store holds its old chunks and rows followed by the
    new ones, aligned.  Nothing is removed first: a forced re-index of an
    indexed store stores every chunk of the directory once more. *)
Theorem index_documents_appends_to_local_store config sv force w st cs E :
  vector_store w = Local st ->
  RAG.already_indexed force (Local st) = false ->
  Processor.load_documents (split_text sv) (md5_hexdigest sv) (directory sv) = cs ->
  cs <> [] ->
  encode sv (map content cs) = Ok E ->
  aligned st -> compatible st E -> nrows E = length cs ->
  exists st' d',
    RAG.index_documents config sv force w
    = (Ok tt,
       mk_world (Local st') d' (upserted w)
         (trace w ++ [EvLoadDocuments (data_dir config); EvEncode (map content cs)]))
    /\ chunks st' = chunks st ++ cs
    /\ stored_rows st' = stored_rows st ++ rows E
    /\ aligned st'.
Proof.
  intros Hvs Hidx Hload Hne HE Ha Hc Hn.
  destruct (add_documents_spec (write_outcome sv) st (disk w) cs E Ha Hc
              (eq_sym Hn)) as (st' & d' & Hrun & Hcs & Hrows & Ha' & _).
  exists st', d'. split; [|auto].
  rewrite index_documents_run, Hvs, Hidx. cbv zeta. rewrite Hload.
  destruct cs as [|c cs']; [congruence|]. rewrite HE.
  unfold RAG.vs_add_documents, after_load_and_encode. simpl vector_store.
  rewrite Hvs. simpl disk. rewrite Hrun. simpl.
  rewrite <- app_assoc. reflexivity.
Qed.

Lemma index_documents_appends_to_local_store_witness :
  exists st',
    vector_store (snd (RAG.index_documents Reference.config Reference.services
                         true Reference.world_local)) = Local st'
    /\ length (chunks st') = 3.
Proof.
  destruct (index_documents_appends_to_local_store Reference.config
              Reference.services true Reference.world_local Reference.store_a
              _ (mk_ndarray 2 [[1; 0]; [1; 0]]%Q)
              eq_refl eq_refl eq_refl)
    as (st' & d' & Hrun & Hcs & _);
    [discriminate | reflexivity | reflexivity | reflexivity | reflexivity |].
  exists st'. rewrite Hrun, Hcs. split; reflexivity.
Defined.

(** X17: when the embedder fails during [index_documents], the call
    raises that exception and nothing stored has changed: the vector
    store, the snapshot file and the hosted index are as before. *)
Theorem index_documents_embedding_failure_changes_nothing config sv force w e :
  RAG.already_indexed force (vector_store w) = false ->
  Processor.load_documents (split_text sv) (md5_hexdigest sv) (directory sv) <> [] ->
  encode sv (map content
               (Processor.load_documents (split_text sv) (md5_hexdigest sv)
                  (directory sv))) = Raise e ->
  fst (RAG.index_documents config sv force w) = Raise e
  /\ same_stores w (snd (RAG.index_documents config sv force w)).
Proof.
  intros Hidx Hne HE. rewrite index_documents_run, Hidx. cbv zeta.
  destruct (Processor.load_documents (split_text sv) (md5_hexdigest sv)
              (directory sv)) as [|c cs]; [congruence|].
  rewrite HE. split; [reflexivity|]. repeat split.
Qed.

Lemma index_documents_embedding_failure_changes_nothing_witness :
  fst (RAG.index_documents Reference.config
         (mk_services Reference.cosine (fun _ => Written) Reference.index_query
            (fun _ => Ok tt) Reference.split_text Reference.md5_hexdigest
            Reference.directory (fun _ => Raise (RuntimeError "model not loaded"))
            Reference.generate_content)
         true Reference.world_local)
  = Raise (RuntimeError "model not loaded").
Proof.
  apply (index_documents_embedding_failure_changes_nothing Reference.config
           (mk_services Reference.cosine (fun _ => Written) Reference.index_query
              (fun _ => Ok tt) Reference.split_text Reference.md5_hexdigest
              Reference.directory (fun _ => Raise (RuntimeError "model not loaded"))
              Reference.generate_content)
           true Reference.world_local (RuntimeError "model not loaded")).
  - reflexivity.
  - discriminate.
  - reflexivity.
Defined.

(** X18: on the hosted store [index_documents] has no short cut, so the
    [force_reindex] flag changes nothing: with either value the directory
    is loaded and embedded and, when no [upsert] fails, all its vectors are
    sent again, after the batches sent before. *)
Theorem index_documents_hosted_ignores_force config sv force w pc cs E :
  vector_store w = Pinecone pc ->
  Processor.load_documents (split_text sv) (md5_hexdigest sv) (directory sv) = cs ->
  cs <> [] ->
  encode sv (map content cs) = Ok E ->
  (forall b, index_upsert sv b = Ok tt) ->
  RAG.index_documents config sv force w
  = (Ok tt,
     mk_world (Pinecone pc) (disk w)
       (upserted w ++ PineconeVS.batches 50 (PineconeVS.zip_vectors cs (rows E)))
       (trace w ++ [EvLoadDocuments (data_dir config); EvEncode (map content cs)]))
  /\ RAG.index_documents config sv force w
     = RAG.index_documents config sv (negb force) w.
Proof.
  intros Hvs Hload Hne HE Hup.
  assert (H : forall f, RAG.index_documents config sv f w
    = (Ok tt,
       mk_world (Pinecone pc) (disk w)
         (upserted w ++ PineconeVS.batches 50 (PineconeVS.zip_vectors cs (rows E)))
         (trace w ++ [EvLoadDocuments (data_dir config); EvEncode (map content cs)]))).
  { intros f. rewrite index_documents_run, Hvs.
    unfold RAG.already_indexed. rewrite andb_false_r. cbv zeta. rewrite Hload.
    destruct cs as [|c cs']; [congruence|]. rewrite HE.
    unfold RAG.vs_add_documents, after_load_and_encode. simpl vector_store.
    rewrite Hvs. unfold PineconeVS.add_documents.
    rewrite upsert_loop_all_ok by (apply Forall_forall; intros; apply Hup).
    simpl. rewrite <- app_assoc. reflexivity. }
  split; [apply H|]. rewrite !H. reflexivity.
Qed.

Lemma index_documents_hosted_ignores_force_witness :
  RAG.index_documents Reference.config Reference.services false
    Reference.world_hosted
  = RAG.index_documents Reference.config Reference.services true
      Reference.world_hosted.
Proof.
  destruct (index_documents_hosted_ignores_force Reference.config
              Reference.services false Reference.world_hosted
              (mk_pinecone "aggie-courses") _ (mk_ndarray 2 [[1; 0]; [1; 0]]%Q)
              eq_refl eq_refl) as [_ H];
    [discriminate | reflexivity | reflexivity |].
  exact H.
Defined.

(** ** AggieeRag: start-up and questions *)

(** X19: the indexing at start-up never stops the application: whatever
    [index_documents] does, [auto_index] returns normally.  When the
    directory yields no chunk and the local store is empty, the store
    stays empty, and every question whose embedding succeeds then gets the
    "no information" answer without a call to the generator. *)
Theorem auto_index_never_raises config sv data_dir_exists w :
  (exists w', Aggiee.auto_index config sv data_dir_exists w = (Ok tt, w'))
  /\ (forall st,
        vector_store w = Local st -> chunks st = [] ->
        Processor.load_documents (split_text sv) (md5_hexdigest sv) (directory sv) = [] ->
        exists w',
          Aggiee.auto_index config sv true w = (Ok tt, w')
          /\ vector_store w' = Local st
          /\ forall question E qe,
               encode sv [question] = Ok E -> rows E !! 0 = Some qe ->
               Aggiee.augment_prompt config sv question w'
               = (Ok RAG._generate_no_context_response,
                  log_event (EvEncode [question]) w')).
Proof.
  split.
  - unfold Aggiee.auto_index. destruct data_dir_exists; [|eexists; reflexivity].
    unfold try_except.
    destruct (RAG.index_documents config sv false w) as [[[]|e] w'];
      eexists; reflexivity.
  - intros st Hvs Hcs Hload.
    exists (log_event (EvLoadDocuments (data_dir config)) w).
    split; [|split].
    + unfold Aggiee.auto_index, try_except.
      rewrite index_documents_run, Hvs. unfold RAG.already_indexed.
      rewrite Hcs. cbv zeta. rewrite Hload. reflexivity.
    + exact Hvs.
    + intros question E qe HE Hq.
      unfold Aggiee.augment_prompt, RAG.query, try_except.
      rewrite (query_body_no_results config sv question _ E qe HE Hq);
        [reflexivity|].
      simpl vector_store. rewrite Hvs. simpl.
      apply search_nothing_stored. right. exact Hcs.
Qed.

Lemma auto_index_never_raises_witness :
  exists w',
    Aggiee.auto_index Reference.config
      (Reference.build (fun _ => Written) Reference.index_query
         Reference.empty_directory Reference.generate_content)
      true (mk_world (Local (mk_local [] None)) NoFile [] [])
    = (Ok tt, w')
    /\ vector_store w' = Local (mk_local [] None).
Proof.
  destruct (auto_index_never_raises Reference.config
              (Reference.build (fun _ => Written) Reference.index_query
                 Reference.empty_directory Reference.generate_content)
              true (mk_world (Local (mk_local [] None)) NoFile [] []))
    as [_ H].
  destruct (H (mk_local [] None)) as (w' & Hrun & Hvs & _);
    [reflexivity | reflexivity | reflexivity |].
  exists w'. split; [exact Hrun | exact Hvs].
Defined.

(** ** The chat endpoint *)

Lemma query_returns config sv question w :
  exists answer, fst (RAG.query config sv question w) = Ok answer.
Proof.
  unfold RAG.query, try_except.
  destruct (RAG.query_body config sv question w) as [[answer|e] w'];
    eexists; reflexivity.
Qed.

Lemma process_query_accepted config sv req w q :
  acceptable req q ->
  App.process_query config sv req w
  = match RAG.query config sv q w with
    | (Ok response, w') =>
        (App.mk_reply 200
           [("message", if truthy response then response
                        else App.empty_answer_apology)], w')
    | (Raise e, w') => (App.on_exception (App.classify e), w')
    end.
Proof.
  intros (Hm & Hr & Hne & Hlen). unfold App.process_query.
  rewrite Hm, Hr. cbn [String.eqb negb].
  replace (String.eqb "POST" "POST") with true by reflexivity. cbn [negb].
  destruct q as [|c q]; [congruence|]. cbn [truthy negb].
  apply Nat.ltb_ge in Hlen. rewrite Hlen. reflexivity.
Qed.

(** X20: a POST whose message, once stripped, is not empty and has at most
    2000 characters is always answered with status 200 and a non-empty
    message, whatever the RAG system and its collaborators do: a failure of
    the embedding, the search or the generator arrives as the text of the
    message, not as an error status.  The request changes nothing that is
    stored. *)
Theorem process_query_answers_every_acceptable_message config sv req w q :
  acceptable req q ->
  exists answer,
    fst (App.process_query config sv req w)
    = App.mk_reply 200 [("message", answer)]
    /\ answer <> EmptyString
    /\ same_stores w (snd (App.process_query config sv req w)).
Proof.
  intros Hacc. rewrite (process_query_accepted config sv req w q Hacc).
  destruct (query_returns config sv q w) as [answer Ha].
  destruct (query_effects config sv q w) as [Hsame _].
  destruct (RAG.query config sv q w) as [[response|e] w']; simpl in *;
    [|discriminate].
  eexists. split; [reflexivity|]. split; [|exact Hsame].
  destruct response; simpl; discriminate.
Qed.

Lemma process_query_answers_every_acceptable_message_witness :
  exists answer,
    fst (App.process_query Reference.config
           (Reference.build (fun _ => Written) Reference.index_query
              Reference.directory Reference.generate_content_down)
           (App.mk_request "POST" false None {["message" := " CSCE 629? "]})
           Reference.world_local)
    = App.mk_reply 200 [("message", answer)]
    /\ answer <> EmptyString.
Proof.
  destruct (process_query_answers_every_acceptable_message Reference.config
              (Reference.build (fun _ => Written) Reference.index_query
                 Reference.directory Reference.generate_content_down)
              (App.mk_request "POST" false None {["message" := " CSCE 629? "]})
              Reference.world_local "CSCE 629?")
    as (answer & Hr & Hne & _).
  - split; [reflexivity|]. split; [vm_compute; reflexivity|].
    split; [discriminate | simpl; lia].
  - exists answer. split; assumption.
Defined.

(** X21: the RAG system is reached only by an acceptable message.  A
    reply with status 200 means the request was a POST with a message
    that, stripped, is not empty and not longer than 2000 characters; for
    every other request the world after the handler is the world before
    it: no embedding, no search, no generation, and the status is 400, 405
    or 500. *)
Theorem process_query_rejects_before_the_backend config sv req w :
  (App.status (fst (App.process_query config sv req w)) = 200 ->
   exists q, acceptable req q)
  /\ ((forall q, ~ acceptable req q) ->
      snd (App.process_query config sv req w) = w
      /\ (App.status (fst (App.process_query config sv req w)) = 400
          \/ App.status (fst (App.process_query config sv req w)) = 405
          \/ App.status (fst (App.process_query config sv req w)) = 500)).
Proof.
  assert (Hcases : (exists q, acceptable req q)
    \/ (snd (App.process_query config sv req w) = w
        /\ (App.status (fst (App.process_query config sv req w)) = 400
            \/ App.status (fst (App.process_query config sv req w)) = 405
            \/ App.status (fst (App.process_query config sv req w)) = 500))).
  { unfold App.process_query, acceptable.
    destruct (String.eqb (App.method req) "POST") eqn:Hm; cbn [negb];
      [|right; simpl; auto].
    apply String.eqb_eq in Hm.
    destruct (App.read_message req) as [q|[msg|]] eqn:Hr;
      [|right; simpl; auto..].
    destruct q as [|c q]; cbn [truthy negb]; [right; simpl; auto|].
    destruct (Nat.ltb 2000 (String.length (String c q))) eqn:Hlen;
      [right; simpl; auto|].
    left. exists (String c q). apply Nat.ltb_ge in Hlen.
    repeat split; [exact Hm | discriminate | exact Hlen]. }
  split.
  - intros H200. destruct Hcases as [Hq | [_ Hst]]; [exact Hq|].
    rewrite H200 in Hst. destruct Hst as [H | [H | H]]; discriminate.
  - intros Hno. destruct Hcases as [[q Hq] | H]; [|exact H].
    exfalso. exact (Hno q Hq).
Qed.

Lemma process_query_rejects_before_the_backend_witness :
  App.process_query Reference.config Reference.services
    (App.mk_request "POST" true (Some (App.JObject [("text", App.JString "hi")])) ∅)
    Reference.world_local
  = (App.mk_reply 400 [("error", "No message provided")], Reference.world_local).
Proof.
  destruct (process_query_rejects_before_the_backend Reference.config
              Reference.services
              (App.mk_request "POST" true
                 (Some (App.JObject [("text", App.JString "hi")])) ∅)
              Reference.world_local) as [_ H].
  destruct H as [Hw _].
  - intros q (_ & Hr & Hne & _). vm_compute in Hr. injection Hr as <-.
    congruence.
  - reflexivity.
Defined.

(** X22: a JSON request from which no message can be read (the body does
    not parse, is not an object, or carries a message that is not a
    string) is answered with status 500 and the generic error text, not
    with 400; the RAG system is not called. *)
Theorem process_query_unreadable_json_is_500 config sv req w :
  App.method req = "POST" ->
  App.is_json req = true ->
  unreadable_json (App.get_json req) ->
  App.process_query config sv req w = (App.internal_error_reply, w).
Proof.
  intros Hm Hj Hbad. unfold App.process_query, App.read_message.
  rewrite Hm, Hj. replace (String.eqb "POST" "POST") with true by reflexivity.
  cbn [negb]. unfold unreadable_json in Hbad.
  destruct (App.get_json req) as [[| | | | |members]|]; try reflexivity.
  unfold App.json_message.
  destruct (App.dict_get "message" members) as [[| | | | |]|];
    try reflexivity; contradiction.
Qed.

Lemma process_query_unreadable_json_is_500_witness :
  App.process_query Reference.config Reference.services
    (App.mk_request "POST" true
       (Some (App.JObject [("message", App.JNumber 42)])) ∅)
    Reference.world_local
  = (App.internal_error_reply, Reference.world_local).
Proof.
  apply (process_query_unreadable_json_is_500 Reference.config
           Reference.services
           (App.mk_request "POST" true
              (Some (App.JObject [("message", App.JNumber 42)])) ∅)
           Reference.world_local); [reflexivity | reflexivity | exact I].
Defined.

(** X23: [/api/reindex] forces the index run, short cut or not: on a
    directory without chunks it answers 500 with "Failed to reindex
    documents", also when the local store is already indexed, and leaves
    what is stored as it was. *)
Theorem reindex_empty_corpus_is_500 config sv w :
  Processor.load_documents (split_text sv) (md5_hexdigest sv) (directory sv) = [] ->
  fst (App.reindex_documents config sv w)
  = App.mk_reply 500 [("error", "Failed to reindex documents")]
  /\ same_stores w (snd (App.reindex_documents config sv w)).
Proof.
  intros Hload. unfold App.reindex_documents.
  rewrite index_documents_run. unfold RAG.already_indexed. cbn [negb andb].
  cbv zeta. rewrite Hload. split; [reflexivity|]. repeat split.
Qed.

Lemma reindex_empty_corpus_is_500_witness :
  App.status
    (fst (App.reindex_documents Reference.config
            (Reference.build (fun _ => Written) Reference.index_query
               Reference.empty_directory Reference.generate_content)
            Reference.world_local))
  = 500.
Proof.
  destruct (reindex_empty_corpus_is_500 Reference.config
              (Reference.build (fun _ => Written) Reference.index_query
                 Reference.empty_directory Reference.generate_content)
              Reference.world_local) as [H _]; [reflexivity|].
  rewrite H. reflexivity.
Defined.

(** ** ConfigManager.validate_config *)

Lemma truthy_true s : truthy s = true <-> s <> EmptyString.
Proof. destruct s; simpl; split; congruence. Qed.

Lemma string_in_elem s l : Settings.string_in s l = true <-> s ∈ l.
Proof.
  unfold Settings.string_in. rewrite existsb_exists. split.
  - intros (x & Hx & He). apply String.eqb_eq in He. subst.
    apply list_elem_of_In, Hx.
  - intros H. exists s. split; [apply list_elem_of_In, H | apply String.eqb_refl].
Qed.

Lemma check_key_ok s :
  Settings.check_key s = [] <-> Settings.gemini_api_key s <> EmptyString.
Proof.
  unfold Settings.check_key. rewrite <- truthy_true.
  destruct (truthy (Settings.gemini_api_key s)); split; congruence.
Qed.

Lemma check_data_ok s dep :
  Settings.check_data s dep = []
  <-> Settings.data_dir_exists dep = true /\ Settings.data_files dep <> [].
Proof.
  unfold Settings.check_data.
  destruct (Settings.data_dir_exists dep); cbn [negb].
  - destruct (Settings.data_files dep); split.
    + discriminate.
    + intros [_ H]. congruence.
    + intros _. split; [reflexivity | discriminate].
    + reflexivity.
  - split; [discriminate|]. intros [H _]. discriminate.
Qed.

Lemma check_pinecone_ok s dep :
  fst (Settings.check_pinecone s dep) = []
  <-> (Settings.use_pinecone s = true ->
       Settings.pinecone_api_key s <> EmptyString
       /\ (Settings.probe dep = Settings.NotInstalled
           \/ exists names, Settings.probe dep = Settings.Indexes names
                            /\ Settings.pinecone_index_name s ∈ names)).
Proof.
  unfold Settings.check_pinecone.
  destruct (Settings.use_pinecone s); [|split; [discriminate | reflexivity]].
  pose proof (truthy_true (Settings.pinecone_api_key s)) as Hp.
  destruct (truthy (Settings.pinecone_api_key s)); cbn [negb].
  2:{ split; [discriminate|]. intros H. destruct (H eq_refl) as [Hk _].
      apply Hp in Hk. discriminate. }
  assert (Hkey : Settings.pinecone_api_key s <> EmptyString) by (apply Hp; reflexivity).
  destruct (Settings.probe dep) as [|names|e].
  - split; [|reflexivity]. intros _ _. split; [exact Hkey | left; reflexivity].
  - pose proof (string_in_elem (Settings.pinecone_index_name s) names) as Hin.
    destruct (Settings.string_in (Settings.pinecone_index_name s) names).
    + split; [|reflexivity]. intros _ _. split; [exact Hkey|].
      right. exists names. split; [reflexivity | apply Hin; reflexivity].
    + split; [discriminate|]. intros H.
      destruct (H eq_refl) as [_ [Hn | (names' & Hn & Hi)]]; [discriminate|].
      injection Hn as <-. apply Hin in Hi. discriminate.
  - split; [discriminate|]. intros H.
    destruct (H eq_refl) as [_ [Hn | (names' & Hn & _)]]; discriminate.
Qed.

Lemma check_pinecone_switch s dep :
  snd (Settings.check_pinecone s dep) <> Settings.use_pinecone s
  <-> Settings.use_pinecone s = true
      /\ Settings.pinecone_api_key s <> EmptyString
      /\ Settings.probe dep = Settings.NotInstalled.
Proof.
  unfold Settings.check_pinecone.
  destruct (Settings.use_pinecone s); cbn [snd];
    [|split; [congruence | intros [H _]; discriminate]].
  pose proof (truthy_true (Settings.pinecone_api_key s)) as Hp.
  destruct (truthy (Settings.pinecone_api_key s)); cbn [negb snd].
  2:{ split; [congruence|]. intros (_ & Hk & _). apply Hp in Hk. discriminate. }
  destruct (Settings.probe dep) as [|names|e]; cbn [snd].
  - split; [|discriminate]. intros _. repeat split. apply Hp. reflexivity.
  - destruct (Settings.string_in _ names); cbn [snd];
      (split; [congruence | intros (_ & _ & H); discriminate]).
  - cbn [snd]. split; [congruence | intros (_ & _ & H); discriminate].
Qed.

Lemma validate_config_run s dep :
  Settings.validate_config s dep
  = (Nat.eqb (length (Settings.check_key s ++ Settings.check_data s dep
                        ++ fst (Settings.check_pinecone s dep))) 0,
     Settings.check_key s ++ Settings.check_data s dep
       ++ fst (Settings.check_pinecone s dep),
     Settings.mk_settings (Settings.gemini_api_key s) (Settings.pinecone_api_key s)
       (snd (Settings.check_pinecone s dep)) (Settings.pinecone_index_name s)
       (Settings.data_dir s)).
Proof.
  unfold Settings.validate_config.
  destruct (Settings.check_pinecone s dep). reflexivity.
Qed.

(** X24: [validate_config] reports the configuration as valid exactly
    when the Gemini key is set, the data directory exists and holds a text
    or PDF file, and, with Pinecone switched on, the Pinecone key is set
    and the index is listed or the [pinecone] package is not installed.
    In that last case, and only then, the validation switches
    [use_pinecone] off. *)
Theorem validate_config_valid_iff s dep :
  (fst (fst (Settings.validate_config s dep)) = true <-> deployable s dep)
  /\ (fst (fst (Settings.validate_config s dep)) = true
      <-> snd (fst (Settings.validate_config s dep)) = [])
  /\ (Settings.use_pinecone (snd (Settings.validate_config s dep))
      <> Settings.use_pinecone s
      <-> Settings.use_pinecone s = true
          /\ Settings.pinecone_api_key s <> EmptyString
          /\ Settings.probe dep = Settings.NotInstalled).
Proof.
  rewrite validate_config_run. cbn [fst snd Settings.use_pinecone].
  assert (Hlen : forall l : list string, Nat.eqb (length l) 0 = true <-> l = []).
  { intros [|x l]; simpl; split; congruence. }
  split; [|split].
  - rewrite Hlen. unfold deployable. split.
    + intros H. apply app_eq_nil in H as [H1 H]. apply app_eq_nil in H as [H2 H3].
      destruct (proj1 (check_data_ok s dep) H2) as [H2a H2b].
      split; [exact (proj1 (check_key_ok s) H1)|].
      split; [exact H2a|]. split; [exact H2b|].
      exact (proj1 (check_pinecone_ok s dep) H3).
    + intros (H1 & H2 & H2' & H3).
      rewrite (proj2 (check_key_ok s) H1),
        (proj2 (check_data_ok s dep) (conj H2 H2')),
        (proj2 (check_pinecone_ok s dep) H3).
      reflexivity.
  - apply Hlen.
  - apply check_pinecone_switch.
Qed.

Lemma validate_config_valid_iff_witness :
  fst (fst (Settings.validate_config reference_settings reference_deployment)) = true
  /\ Settings.use_pinecone
       (snd (Settings.validate_config reference_settings reference_deployment))
     = false.
Proof.
  destruct (validate_config_valid_iff reference_settings reference_deployment)
    as (Hvalid & _ & _).
  split; [|reflexivity]. apply Hvalid.
  repeat split; try discriminate.
  left. reflexivity.
Defined.

(** ** EmbeddingManager: construction and fall back *)

Lemma select_provider_openai env :
  Embedding._select_provider env = Embedding.OpenAI
  <-> Embedding.openai_api_key env <> EmptyString
      /\ Embedding.openai_importable env = true.
Proof.
  unfold Embedding._select_provider. rewrite <- truthy_true.
  destruct (truthy (Embedding.openai_api_key env));
    destruct (Embedding.openai_importable env); split;
    try discriminate; try (intros [? ?]; discriminate); auto.
Qed.

Lemma initialize_sentence_transformers_run env m :
  match Embedding._initialize_sentence_transformers env m with
  | (Embedding.Return _, m') =>
      (exists dim, Embedding.load_model env = Embedding.Return dim)
      /\ Embedding.embedding_model m' = true
      /\ Embedding.provider m' = Embedding.provider m
  | (Embedding.Throw _, m') =>
      (exists e, Embedding.load_model env = Embedding.Throw e) /\ m' = m
  end.
Proof.
  unfold Embedding._initialize_sentence_transformers.
  destruct (Embedding.load_model env) as [dim|[e|msg|msg]]; simpl; eauto.
Qed.

(** X25: constructing an [EmbeddingManager] succeeds exactly when the
    OpenAI client can be built (key set, package importable, constructor
    returns) or the local model loads.  The manager it returns holds the
    object its provider needs, and its provider is OpenAI exactly in the
    first case: a key without a working client silently gives the local
    model. *)
Theorem embedding_manager_init env :
  ((exists m, Embedding.init env = Embedding.Return m)
   <-> openai_usable env \/ exists dim, Embedding.load_model env = Embedding.Return dim)
  /\ (forall m, Embedding.init env = Embedding.Return m ->
        ready m
        /\ (Embedding.provider m = Embedding.OpenAI <-> openai_usable env)).
Proof.
  unfold Embedding.init, Embedding._initialize_embeddings, openai_usable, ready.
  pose proof (select_provider_openai env) as Hsel.
  cbn [Embedding.provider].
  destruct (Embedding._select_provider env) eqn:Hprov.
  - destruct (proj1 Hsel eq_refl) as [Hkey Himp]. rewrite Himp.
    destruct (Embedding.openai_connect env) as [u|e] eqn:Hconn.
    + split.
      * split; [intros _; left; eauto | intros _; eexists; reflexivity].
      * intros m [= <-]. simpl. split; [reflexivity|].
        split; [intros _; eauto | reflexivity].
    + pose proof (initialize_sentence_transformers_run env
        (Embedding.use_sentence_transformers
           (Embedding.mk_manager Embedding.OpenAI false false None))) as Hrun.
      destruct (Embedding._initialize_sentence_transformers env _)
        as [[u|e'] m'] eqn:Hinit.
      * destruct Hrun as ((dim & Hdim) & Hmodel & Hp). split.
        -- split; [intros _; right; eauto | intros _; eexists; reflexivity].
        -- intros m [= <-]. simpl in Hp. rewrite Hp. split; [exact Hmodel|].
           split; [discriminate|]. intros (_ & _ & u' & Hu). discriminate.
      * destruct Hrun as ((e0 & He0) & _). split.
        -- split; [intros [m Hm]; discriminate|].
           intros [(_ & _ & u' & Hu) | (dim & Hdim)]; congruence.
        -- intros m Hm. discriminate.
  - assert (Hno : ~ (Embedding.openai_api_key env <> EmptyString
                     /\ Embedding.openai_importable env = true)).
    { intros H. apply Hsel in H. discriminate. }
    pose proof (initialize_sentence_transformers_run env
      (Embedding.mk_manager Embedding.SentenceTransformers false false None)) as Hrun.
    destruct (Embedding._initialize_sentence_transformers env _)
      as [[u|e'] m'] eqn:Hinit.
    + destruct Hrun as ((dim & Hdim) & Hmodel & Hp). split.
      * split; [intros _; right; eauto | intros _; eexists; reflexivity].
      * intros m [= <-]. simpl in Hp. rewrite Hp. split; [exact Hmodel|].
        split; [discriminate|]. intros (Hk & Hi & _). exfalso. apply Hno. auto.
    + destruct Hrun as ((e0 & He0) & _). split.
      * split; [intros [m Hm]; discriminate|].
        intros [(Hk & Hi & _) | (dim & Hdim)]; [exfalso; apply Hno; auto|congruence].
      * intros m Hm. discriminate.
Qed.

Lemma embedding_manager_init_witness :
  exists m, Embedding.init reference_environment = Embedding.Return m
            /\ Embedding.provider m = Embedding.OpenAI.
Proof.
  destruct (embedding_manager_init reference_environment) as [Hex Hm].
  destruct (proj2 Hex) as [m Hinit].
  - left. repeat split; [discriminate | eexists; reflexivity].
  - exists m. split; [exact Hinit|].
    apply (Hm m Hinit). repeat split; [discriminate | eexists; reflexivity].
Defined.

Lemma encode_local env m texts :
  Embedding.provider m = Embedding.SentenceTransformers ->
  snd (fst (Embedding.encode env m texts)) = m
  /\ no_openai_call (snd (Embedding.encode env m texts)).
Proof.
  intros Hp. unfold Embedding.encode, Embedding.encode_with_model. rewrite Hp.
  destruct (Embedding.embedding_model m); split; reflexivity.
Qed.

Lemma no_openai_call_app c1 c2 :
  no_openai_call c1 -> no_openai_call c2 -> no_openai_call (c1 ++ c2).
Proof.
  unfold no_openai_call. intros H1 H2. rewrite forallb_app, H1, H2. reflexivity.
Qed.

Lemma encode_all_local env m batches :
  Embedding.provider m = Embedding.SentenceTransformers ->
  snd (fst (Embedding.encode_all env m batches)) = m
  /\ no_openai_call (snd (Embedding.encode_all env m batches)).
Proof.
  intros Hp. induction batches as [|texts batches IH]; [split; reflexivity|].
  cbn [Embedding.encode_all].
  destruct (encode_local env m texts Hp) as [Hm Hc].
  destruct (Embedding.encode env m texts) as [[r m1] calls]. simpl in Hm, Hc.
  subst m1. destruct IH as [Hm' Hc'].
  destruct (Embedding.encode_all env m batches) as [[rs m2] calls'].
  simpl in *. split; [exact Hm'|]. apply no_openai_call_app; assumption.
Qed.

(** X26: the fall back of [encode] is for good.  When the OpenAI attempt
    fails, the manager switches to the local model, loads it if needed,
    and answers with the embeddings of the local model; from then on no
    call ever goes to OpenAI again and the manager no longer changes,
    whatever is asked and even when the OpenAI service works again. *)
Theorem encode_falls_back_for_good env m texts :
  Embedding.provider m = Embedding.OpenAI ->
  openai_fails env m texts ->
  Embedding.embedding_model m = true
    \/ (exists dim, Embedding.load_model env = Embedding.Return dim) ->
  fst (fst (Embedding.encode env m texts)) = Embedding.model_encode env texts
  /\ Embedding.provider (snd (fst (Embedding.encode env m texts)))
     = Embedding.SentenceTransformers
  /\ forall env' batches,
       snd (fst (Embedding.encode_all env'
                   (snd (fst (Embedding.encode env m texts))) batches))
       = snd (fst (Embedding.encode env m texts))
       /\ no_openai_call
            (snd (Embedding.encode_all env'
                    (snd (fst (Embedding.encode env m texts))) batches)).
Proof.
  intros Hp [e Hfail] Hmodel.
  assert (H : fst (fst (Embedding.encode env m texts)) = Embedding.model_encode env texts
              /\ Embedding.provider (snd (fst (Embedding.encode env m texts)))
                 = Embedding.SentenceTransformers).
  { unfold Embedding.encode. rewrite Hp.
    destruct (Embedding.encode_with_openai env m texts) as [[E|e0] calls];
      [discriminate|].
    cbn [Embedding.use_sentence_transformers Embedding.embedding_model].
    unfold Embedding.encode_with_model.
    destruct (Embedding.embedding_model m) eqn:Hm.
    - simpl. rewrite ?Hm. simpl. split; reflexivity.
    - destruct Hmodel as [H | [dim Hdim]]; [discriminate|].
      unfold Embedding._initialize_sentence_transformers. rewrite Hdim.
      simpl. split; reflexivity. }
  destruct H as [Hr Hprov]. split; [exact Hr|]. split; [exact Hprov|].
  intros env' batches. apply encode_all_local, Hprov.
Qed.

Lemma encode_falls_back_for_good_witness :
  exists m m',
    Embedding.init reference_environment = Embedding.Return m
    /\ snd (fst (Embedding.encode reference_environment m ["CSCE 629"])) = m'
    /\ Embedding.provider m' = Embedding.SentenceTransformers
    /\ Embedding.embedding_dim m' = Some 384.
Proof.
  exists (Embedding.mk_manager Embedding.OpenAI false true (Some 1536)).
  eexists. split; [reflexivity|]. split; [reflexivity|].
  destruct (encode_falls_back_for_good reference_environment
              (Embedding.mk_manager Embedding.OpenAI false true (Some 1536))
              ["CSCE 629"]) as (_ & Hp & _).
  - reflexivity.
  - eexists. reflexivity.
  - right. eexists. reflexivity.
  - split; [exact Hp | reflexivity].
Defined.

(** X27: a fall back that cannot load the local model leaves the manager
    unusable.  When the OpenAI attempt fails, no model is loaded and
    loading it fails too, [encode] raises, and the manager is left with the
    local provider and no model: every later [encode] raises
    [AttributeError] at once, without a call to OpenAI, to the model or to
    the loader, on any machine. *)
Theorem encode_failed_fall_back_disables_manager env m texts e :
  Embedding.provider m = Embedding.OpenAI ->
  Embedding.embedding_model m = false ->
  openai_fails env m texts ->
  Embedding.load_model env = Embedding.Throw e ->
  (exists e', fst (fst (Embedding.encode env m texts)) = Embedding.Throw e')
  /\ snd (fst (Embedding.encode env m texts)) = Embedding.use_sentence_transformers m
  /\ forall env' texts',
       Embedding.encode env' (Embedding.use_sentence_transformers m) texts'
       = (Embedding.Throw Embedding.no_encode,
          Embedding.use_sentence_transformers m, []).
Proof.
  intros Hp Hm [e0 Hfail] Hload. split; [|split].
  - unfold Embedding.encode. rewrite Hp.
    destruct (Embedding.encode_with_openai env m texts) as [[E|e1] calls];
      [discriminate|].
    cbn [Embedding.use_sentence_transformers Embedding.embedding_model].
    rewrite Hm. unfold Embedding._initialize_sentence_transformers.
    rewrite Hload. destruct e; simpl; eexists; reflexivity.
  - unfold Embedding.encode. rewrite Hp.
    destruct (Embedding.encode_with_openai env m texts) as [[E|e1] calls];
      [discriminate|].
    cbn [Embedding.use_sentence_transformers Embedding.embedding_model].
    rewrite Hm. unfold Embedding._initialize_sentence_transformers.
    rewrite Hload. destruct e; reflexivity.
  - intros env' texts'. unfold Embedding.encode, Embedding.encode_with_model.
    cbn [Embedding.use_sentence_transformers Embedding.provider
         Embedding.embedding_model].
    rewrite Hm. reflexivity.
Qed.

Lemma encode_failed_fall_back_disables_manager_witness :
  Embedding.encode reference_environment
    (Embedding.use_sentence_transformers
       (Embedding.mk_manager Embedding.OpenAI false true (Some 1536)))
    ["CSCE 629"]
  = (Embedding.Throw Embedding.no_encode,
     Embedding.use_sentence_transformers
       (Embedding.mk_manager Embedding.OpenAI false true (Some 1536)), []).
Proof.
  destruct (encode_failed_fall_back_disables_manager
              reference_environment_no_model
              (Embedding.mk_manager Embedding.OpenAI false true (Some 1536))
              ["CSCE 629"]
              (Embedding.ImportError "No module named 'sentence_transformers'"))
    as (_ & _ & H).
  - reflexivity.
  - reflexivity.
  - eexists. reflexivity.
  - reflexivity.
  - apply H.
Defined.
